(** * feedbax: staged networks, connectivity masks and composite losses

    A shallow embedding of [feedbax/nn.py] and of the constructor of
    [CompositeLoss] in [feedbax/loss.py].

    Conventions of the embedding.
    - Python exceptions are values of [exn]; a function that may raise
      returns [result].
    - Array entries are real numbers: the floating point values of the
      arrays are idealised (no rounding, no NaN, no infinities).  Where
      a property depends on entries that are not finite, the arrays are
      those of [Fp], which has the infinities and NaN.
    - A one-dimensional array is a list, a two-dimensional array a list
      of rows.  An array without rows therefore carries no column count.
      Elementwise operations ask for equal shapes; the broadcasting of
      axes of length one is reported as [ShapeError].
    - The sizes and unit indices a network is built from are natural
      numbers.  Where the code takes any Python int and a negative one
      changes what it does ([PopulationStructure.create],
      [power_discount]), the argument is an integer.
    - What comes from jax and equinox (random keys, samplers, the
      initialiser and the forward pass of [eqx.nn.Linear], the forward
      pass of [eqx.nn.GRUCell]) is an interface, [JaxLib]. *)

From Stdlib Require Import String.
From Stdlib Require Import List Bool Arith ZArith Lia Reals Lra Permutation.
Import ListNotations.

Set Implicit Arguments.
Set Warnings "-register-all".

(** ** Exceptions *)

Inductive exn : Type :=
| ValueError
| TypeError
| AttributeError
| ZeroDivisionError
| ShapeError.

Inductive result (A : Type) : Type :=
| Ok (a : A)
| Raise (e : exn).

Arguments Ok {A} a.
Arguments Raise {A} e.

Definition bind {A B : Type} (r : result A) (k : A -> result B) : result B :=
  match r with
  | Ok a => k a
  | Raise e => Raise e
  end.

Notation "x <- r ;; k" := (bind r (fun x => k))
  (at level 61, r at next level, right associativity).

(** ** Arrays *)

Definition vec : Type := list R.
Definition matrix : Type := list (list R).

Fixpoint map2 {A B C : Type} (f : A -> B -> C) (l1 : list A) (l2 : list B) : list C :=
  match l1, l2 with
  | a :: l1', b :: l2' => f a b :: map2 f l1' l2'
  | _, _ => []
  end.

Fixpoint forallb2 {A B : Type} (f : A -> B -> bool) (l1 : list A) (l2 : list B) : bool :=
  match l1, l2 with
  | [], [] => true
  | a :: l1', b :: l2' => f a b && forallb2 f l1' l2'
  | _, _ => false
  end.

Module Jnp.

(** [jnp.zeros(n)] and [jnp.zeros((r, c))]. *)
Definition zeros (n : nat) : vec := repeat 0%R n.
Definition zeros2 (r c : nat) : matrix := repeat (zeros c) r.

(** [jnp.zeros_like]. *)
Definition zeros_like (v : vec) : vec := zeros (length v).

Definition same_shape (a b : matrix) : bool :=
  forallb2 (fun r1 r2 => length r1 =? length r2) a b.

(** [a * b] on two matrices. *)
Definition mul (a b : matrix) : result matrix :=
  if same_shape a b then Ok (map2 (map2 Rmult) a b) else Raise ShapeError.

(** [u + v] on two vectors. *)
Definition add (u v : vec) : result vec :=
  if length u =? length v then Ok (map2 Rplus u v) else Raise ShapeError.

(** [c * v] for a scalar [c]. *)
Definition scale (c : R) (v : vec) : vec := map (Rmult c) v.

Definition vdot (u v : vec) : R := fold_right Rplus 0%R (map2 Rmult u v).

(** [jnp.dot(w, x)] for a matrix [w] and a vector [x]. *)
Definition dot (w : matrix) (x : vec) : result vec :=
  if forallb (fun row => length row =? length x) w
  then Ok (map (fun row => vdot row x) w)
  else Raise ShapeError.

(** [jnp.dot(x, w.T)] for a vector [x] and a matrix [w]. *)
Definition dot_T (x : vec) (w : matrix) : result vec :=
  if forallb (fun row => length x =? length row) w
  then Ok (map (fun row => vdot x row) w)
  else Raise ShapeError.

(** [jnp.tile(m, (3, 1))]. *)
Definition tile3 (m : matrix) : matrix := m ++ m ++ m.

Definition mem (i : nat) (idx : list nat) : bool := existsb (Nat.eqb i) idx.

(** [jnp.zeros((r, c)).at[idx, :].set(1.0)]: indices beyond the last
    row are dropped. *)
Definition ones_at_rows (r c : nat) (idx : list nat) : matrix :=
  map (fun i => repeat (if mem i idx then 1%R else 0%R) c) (seq 0 r).

(** [jnp.zeros((r, c)).at[:, idx].set(1.0)]. *)
Definition ones_at_cols (r c : nat) (idx : list nat) : matrix :=
  repeat (map (fun j => if mem j idx then 1%R else 0%R) (seq 0 c)) r.

(** [jnp.ones((r, c))]. *)
Definition ones2 (r c : nat) : matrix := repeat (repeat 1%R c) r.

(** [m[i, j]], zero outside the array. *)
Definition entry (m : matrix) (i j : nat) : R := nth j (nth i m []) 0%R.

(** An operand that is either the Python scalar or an array
    ([bias = 0], [noise = 0] against [self.bias]), or [None]. *)
Inductive operand : Type :=
| Scalar (r : R)
| Arr (v : vec)
| NoneVal.

(** [v + o] *)
Definition add_operand (v : vec) (o : operand) : result vec :=
  match o with
  | Scalar r => Ok (map (fun x => (x + r)%R) v)
  | Arr b => add v b
  | NoneVal => Raise TypeError
  end.

End Jnp.

(** A value that may be [None]: the sub-trees of a state. *)
Definition pytree : Type := option vec.

(** ** The interface to jax and equinox *)

Module Linear.
(** [eqx.nn.Linear]: its two array fields. *)
Record t : Type := mk { weight : matrix; bias : option vec }.
End Linear.

Module GRUCell.
(** [eqx.nn.GRUCell]: its array fields. *)
Record t : Type := mk {
  weight_ih : matrix;
  weight_hh : matrix;
  bias : option vec;
  bias_n : option vec
}.
End GRUCell.

Class JaxLib : Type := {
  (* a PRNG key *)
  Key : Type;
  (* jr.split(key, 3) *)
  jr_split3 : Key -> Key * Key * Key;
  (* jr.permutation(key, n) *)
  jr_permutation : Key -> nat -> list nat;
  (* jr.normal(key, (n,)) *)
  jr_normal : Key -> nat -> vec;
  (* eqx.nn.Linear(in_features, out_features, use_bias, key=key) *)
  eqx_nn_Linear : nat -> nat -> bool -> Key -> Linear.t;
  (* eqx.nn.Linear.__call__ *)
  eqx_nn_Linear_call : Linear.t -> vec -> result vec;
  (* eqx.nn.GRUCell.__call__ *)
  eqx_nn_GRUCell_call : GRUCell.t -> vec -> vec -> result vec
}.

(** [jr.permutation(key, n)] is a rearrangement of [0 .. n-1]. *)
Definition permutation_law (J : JaxLib) : Prop :=
  forall (k : Key) (n : nat), Permutation (jr_permutation k n) (seq 0 n).

(** ** MaskedLinear *)

Module MaskedLinear.

Record t : Type := mk { linear : Linear.t; mask : matrix }.

Section WithJax.
Context {J : JaxLib}.

(** [MaskedLinear.__init__] *)
Definition __init__ (in_features out_features : nat) (mask : matrix)
      (use_bias : bool) (key : Key) : result t :=
    let linear := eqx_nn_Linear in_features out_features use_bias key in
    w <- Jnp.mul (Linear.weight linear) mask ;;
    Ok (mk (Linear.mk w (Linear.bias linear)) mask).
End WithJax.

(** [self.linear.weight * self.mask], the first statement of [__call__]. *)
Definition masked_weight (self : t) : result matrix :=
  Jnp.mul (Linear.weight (linear self)) (mask self).

(** [MaskedLinear.__call__] *)
Definition __call__ (self : t) (x : vec) : result vec :=
  masked_weight <- masked_weight self ;;
  result <- Jnp.dot_T x masked_weight ;;
  match Linear.bias (linear self) with
  | Some b => Jnp.add result b
  | None => Ok result
  end.

(** [eqx.tree_at(lambda m: m.linear.weight, self, w)]: what a training
    update does to the raw weight. *)
Definition with_weight (self : t) (w : matrix) : t :=
  mk (Linear.mk w (Linear.bias (linear self))) (mask self).

End MaskedLinear.

(** ** Arrays whose entries need not be finite *)

(** The arrays above hold real numbers.  A floating point array can also
    hold an infinity or NaN, and there [0 * x] is not always zero.  [Fp.t]
    has these values too, with the products and sums floating point
    arithmetic gives them; products and sums of numbers are still
    exact. *)
Module Fp.

Inductive t : Type :=
| Num (r : R)
| Inf (negative : bool)
| NaN.

Definition finite (x : t) : bool :=
  match x with
  | Num _ => true
  | Inf _ | NaN => false
  end.

Definition negative (r : R) : bool := if Rlt_dec r 0 then true else false.

(** [a * b]: zero times an infinity is NaN. *)
Definition mul (a b : t) : t :=
  match a, b with
  | NaN, _ | _, NaN => NaN
  | Num x, Num y => Num (x * y)
  | Num x, Inf s | Inf s, Num x =>
      if Req_dec_T x 0 then NaN else Inf (xorb s (negative x))
  | Inf s, Inf s' => Inf (xorb s s')
  end.

(** [a + b]: the sum of the two infinities is NaN. *)
Definition add (a b : t) : t :=
  match a, b with
  | NaN, _ | _, NaN => NaN
  | Num x, Num y => Num (x + y)
  | Num _, Inf s | Inf s, Num _ => Inf s
  | Inf s, Inf s' => if Bool.eqb s s' then Inf s else NaN
  end.

Definition vec : Type := list t.
Definition matrix : Type := list (list t).

Definition of_vec (v : list R) : vec := map Num v.
Definition of_matrix (m : list (list R)) : matrix := map of_vec m.

Definition finite_vec (v : vec) : Prop := Forall (fun x => finite x = true) v.
Definition finite_matrix (m : matrix) : Prop := Forall finite_vec m.

Definition same_shape (a b : matrix) : bool :=
  forallb2 (fun r1 r2 => length r1 =? length r2) a b.

(** [a * b] on two matrices of one shape. *)
Definition mul2 (a b : matrix) : result matrix :=
  if same_shape a b then Ok (map2 (map2 mul) a b) else Raise ShapeError.

(** [u + v] on two vectors of one length. *)
Definition add_vec (u v : vec) : result vec :=
  if length u =? length v then Ok (map2 add u v) else Raise ShapeError.

Definition vdot (u v : vec) : t := fold_right add (Num 0) (map2 mul u v).

(** [jnp.dot(x, w.T)] for a vector [x] and a matrix [w]. *)
Definition dot_T (x : vec) (w : matrix) : result vec :=
  if forallb (fun row => length x =? length row) w
  then Ok (map (fun row => vdot x row) w)
  else Raise ShapeError.

(** [m[i, j]], zero outside the array. *)
Definition entry (m : matrix) (i j : nat) : t := nth j (nth i m []) (Num 0).

End Fp.

(** [MaskedLinear] on arrays whose entries need not be finite: the same
    fields and the same statements, over [Fp.t]. *)
Module FpMaskedLinear.

Record linear_t : Type := mk_linear { weight : Fp.matrix; bias : option Fp.vec }.

Record t : Type := mk { linear : linear_t; mask : Fp.matrix }.

(** [self.linear.weight * self.mask], the first statement of [__call__]. *)
Definition masked_weight (self : t) : result Fp.matrix :=
  Fp.mul2 (weight (linear self)) (mask self).

(** [MaskedLinear.__call__] *)
Definition __call__ (self : t) (x : Fp.vec) : result Fp.vec :=
  masked_weight <- masked_weight self ;;
  result <- Fp.dot_T x masked_weight ;;
  match bias (linear self) with
  | Some b => Fp.add_vec result b
  | None => Ok result
  end.

(** [eqx.tree_at(lambda m: m.linear.weight, self, w)] *)
Definition with_weight (self : t) (w : Fp.matrix) : t :=
  mk (mk_linear w (bias (linear self))) (mask self).

(** A layer whose arrays hold numbers only. *)
Definition of_real (ml : MaskedLinear.t) : t :=
  mk (mk_linear (Fp.of_matrix (Linear.weight (MaskedLinear.linear ml)))
                (option_map Fp.of_vec (Linear.bias (MaskedLinear.linear ml))))
     (Fp.of_matrix (MaskedLinear.mask ml)).

End FpMaskedLinear.

(** ** Ordered dictionaries *)

Module Dict.

(** [d[k] = v]: a key that is present keeps its place and takes the new
    value, a new key goes to the end. *)
Fixpoint set_item {V : Type} (d : list (string * V)) (k : string) (v : V)
    : list (string * V) :=
  match d with
  | [] => [(k, v)]
  | (k', v') :: d' =>
      if String.eqb k' k then (k, v) :: d' else (k', v') :: set_item d' k v
  end.

(** [d |= other] and [d | other] *)
Definition update {V : Type} (d other : list (string * V)) : list (string * V) :=
  fold_left (fun acc kv => set_item acc (fst kv) (snd kv)) other d.

(** [dict(zip(keys, values))] *)
Definition of_zip {V : Type} (keys : list string) (values : list V)
    : list (string * V) :=
  update [] (combine keys values).

Definition keys {V : Type} (d : list (string * V)) : list string := map fst d.
Definition values {V : Type} (d : list (string * V)) : list V := map snd d.

End Dict.

(** ** PopulationStructure *)

Module PopulationStructure.

Record t : Type := mk {
  n_input_only : nat;
  n_readout_only : nat;
  n_recurrent_only : nat;
  n_input_readout : nat;
  input_indices : list nat;
  readout_indices : list nat;
  input_only_indices : list nat;
  readout_only_indices : list nat;
  recurrent_only_indices : list nat;
  input_readout_indices : list nat
}.

(** [a[lo:hi]], [a[:hi]] and [a[lo:]] for bounds that are not negative. *)
Definition slice {A : Type} (a : list A) (lo hi : nat) : list A :=
  firstn (hi - lo) (skipn lo a).

Definition slice_to {A : Type} (a : list A) (hi : nat) : list A := firstn hi a.

Definition slice_from {A : Type} (a : list A) (lo : nat) : list A := skipn lo a.

(** [jnp.arange(lo, hi)] *)
Definition arange (lo hi : nat) : list nat := seq lo (hi - lo).

Section WithJax.
Context {J : JaxLib}.

(** The four arrays an assignment function returns. *)
Definition assignment : Type := (list nat * list nat * list nat * list nat)%type.

Definition assignment_fn_t : Type :=
  nat -> nat -> nat -> nat -> nat -> Key -> assignment.

(** [contiguous_assignment] *)
Definition contiguous_assignment : assignment_fn_t :=
  fun hidden_size n_input_only n_readout_only n_recurrent_only n_input_readout key =>
    let input_only_indices := arange 0 n_input_only in
    let readout_only_indices := arange n_input_only (n_input_only + n_readout_only) in
    let recurrent_only_indices :=
      arange (n_input_only + n_readout_only)
             (n_input_only + n_readout_only + n_recurrent_only) in
    let input_readout_indices :=
      arange (n_input_only + n_readout_only + n_recurrent_only) hidden_size in
    (input_only_indices, readout_only_indices, recurrent_only_indices,
     input_readout_indices).

(** [PopulationStructure.create] on sizes that are not negative;
    [PopulationStructureZ.create] below takes any Python int. *)
Definition create (hidden_size n_input_only n_readout_only n_recurrent_only
    n_input_readout : nat) (assignment_fn : option assignment_fn_t) (key : Key)
    : result t :=
  let total := n_input_only + n_readout_only + n_recurrent_only + n_input_readout in
  if negb (total =? hidden_size) then Raise ValueError
  else
    let '(input_only_indices, readout_only_indices, recurrent_only_indices,
          input_readout_indices) :=
      match assignment_fn with
      | None =>
          let all_indices := jr_permutation key hidden_size in
          (slice_to all_indices n_input_only,
           slice all_indices n_input_only (n_input_only + n_readout_only),
           slice all_indices (n_input_only + n_readout_only)
                 (n_input_only + n_readout_only + n_recurrent_only),
           slice_from all_indices (n_input_only + n_readout_only + n_recurrent_only))
      | Some f =>
          f hidden_size n_input_only n_readout_only n_recurrent_only
            n_input_readout key
      end in
    let input_indices := input_only_indices ++ input_readout_indices in
    let readout_indices := readout_only_indices ++ input_readout_indices in
    Ok (mk n_input_only n_readout_only n_recurrent_only n_input_readout
           input_indices readout_indices input_only_indices readout_only_indices
           recurrent_only_indices input_readout_indices).

End WithJax.

(** The four populations, one after the other. *)
Definition populations (p : t) : list nat :=
  input_only_indices p ++ readout_only_indices p ++
  recurrent_only_indices p ++ input_readout_indices p.

Definition disjoint (a b : list nat) : Prop := forall i, In i a -> ~ In i b.

(** No two of the four populations share a unit. *)
Definition pairwise_disjoint (p : t) : Prop :=
  disjoint (input_only_indices p) (readout_only_indices p) /\
  disjoint (input_only_indices p) (recurrent_only_indices p) /\
  disjoint (input_only_indices p) (input_readout_indices p) /\
  disjoint (readout_only_indices p) (recurrent_only_indices p) /\
  disjoint (readout_only_indices p) (input_readout_indices p) /\
  disjoint (recurrent_only_indices p) (input_readout_indices p).

(** The union of the four populations is [{0 .. hidden_size-1}]. *)
Definition covers (hidden_size : nat) (p : t) : Prop :=
  forall i, In i (populations p) <-> i < hidden_size.

Definition is_partition (hidden_size : nat) (p : t) : Prop :=
  pairwise_disjoint p /\ covers hidden_size p.

End PopulationStructure.

(** ** PopulationStructure on Python ints *)

(** [PopulationStructure] above has sizes and unit indices that are not
    negative, which is what the network constructor reads.  [create]
    itself takes Python ints and compares only their sum with
    [hidden_size]: a negative size reaches the slices, where it counts
    from the end, and [jnp.arange], whose bounds it moves.
    [PopulationStructureZ] has [create] and [contiguous_assignment] on
    integers; on sizes that are not negative they are the functions
    above (lemmas [create_default_of_nat] and
    [create_contiguous_of_nat]). *)
Module PopulationStructureZ.

Record t : Type := mk {
  n_input_only : Z;
  n_readout_only : Z;
  n_recurrent_only : Z;
  n_input_readout : Z;
  input_indices : list Z;
  readout_indices : list Z;
  input_only_indices : list Z;
  readout_only_indices : list Z;
  recurrent_only_indices : list Z;
  input_readout_indices : list Z
}.

(** The position a slice bound stands for in a sequence of length [len]:
    a negative bound counts from the end, and every bound is clipped to
    the sequence. *)
Definition clip_index (len i : Z) : Z :=
  if (i <? 0)%Z then Z.max 0 (len + i) else Z.min i len.

(** [a[lo:hi]]; a bound that is left out is [None]. *)
Definition getslice {A : Type} (a : list A) (lo hi : option Z) : list A :=
  let len := Z.of_nat (length a) in
  let lo := match lo with Some i => clip_index len i | None => 0%Z end in
  let hi := match hi with Some i => clip_index len i | None => len end in
  firstn (Z.to_nat (hi - lo)) (skipn (Z.to_nat lo) a).

(** [jnp.arange(lo, hi)] *)
Definition arange (lo hi : Z) : list Z :=
  map (fun k => (lo + Z.of_nat k)%Z) (seq 0 (Z.to_nat (hi - lo))).

Section WithJax.
Context {J : JaxLib}.

(** The four arrays an assignment function returns. *)
Definition assignment : Type := (list Z * list Z * list Z * list Z)%type.

Definition assignment_fn_t : Type := Z -> Z -> Z -> Z -> Z -> Key -> assignment.

(** [contiguous_assignment] *)
Definition contiguous_assignment : assignment_fn_t :=
  fun hidden_size n_input_only n_readout_only n_recurrent_only n_input_readout key =>
    let input_only_indices := arange 0 n_input_only in
    let readout_only_indices :=
      arange n_input_only (n_input_only + n_readout_only) in
    let recurrent_only_indices :=
      arange (n_input_only + n_readout_only)
             (n_input_only + n_readout_only + n_recurrent_only) in
    let input_readout_indices :=
      arange (n_input_only + n_readout_only + n_recurrent_only) hidden_size in
    (input_only_indices, readout_only_indices, recurrent_only_indices,
     input_readout_indices).

(** [PopulationStructure.create].  [jr.permutation(key, n)] shuffles
    [jnp.arange(n)], which is empty for a negative [n]. *)
Definition create (hidden_size n_input_only n_readout_only n_recurrent_only
    n_input_readout : Z) (assignment_fn : option assignment_fn_t) (key : Key)
    : result t :=
  let total :=
    (n_input_only + n_readout_only + n_recurrent_only + n_input_readout)%Z in
  if negb (total =? hidden_size)%Z then Raise ValueError
  else
    let '(input_only_indices, readout_only_indices, recurrent_only_indices,
          input_readout_indices) :=
      match assignment_fn with
      | None =>
          let all_indices :=
            map Z.of_nat (jr_permutation key (Z.to_nat hidden_size)) in
          (getslice all_indices None (Some n_input_only),
           getslice all_indices (Some n_input_only)
                    (Some (n_input_only + n_readout_only)%Z),
           getslice all_indices (Some (n_input_only + n_readout_only)%Z)
                    (Some (n_input_only + n_readout_only + n_recurrent_only)%Z),
           getslice all_indices
                    (Some (n_input_only + n_readout_only + n_recurrent_only)%Z)
                    None)
      | Some f =>
          f hidden_size n_input_only n_readout_only n_recurrent_only
            n_input_readout key
      end in
    let input_indices := (input_only_indices ++ input_readout_indices)%list in
    let readout_indices := (readout_only_indices ++ input_readout_indices)%list in
    Ok (mk n_input_only n_readout_only n_recurrent_only n_input_readout
           input_indices readout_indices input_only_indices readout_only_indices
           recurrent_only_indices input_readout_indices).

End WithJax.

(** The four populations, one after the other. *)
Definition populations (p : t) : list Z :=
  (input_only_indices p ++ readout_only_indices p ++
   recurrent_only_indices p ++ input_readout_indices p)%list.

Definition disjoint (a b : list Z) : Prop := forall i, In i a -> ~ In i b.

(** No two of the four populations share a unit. *)
Definition pairwise_disjoint (p : t) : Prop :=
  disjoint (input_only_indices p) (readout_only_indices p) /\
  disjoint (input_only_indices p) (recurrent_only_indices p) /\
  disjoint (input_only_indices p) (input_readout_indices p) /\
  disjoint (readout_only_indices p) (recurrent_only_indices p) /\
  disjoint (readout_only_indices p) (input_readout_indices p) /\
  disjoint (recurrent_only_indices p) (input_readout_indices p).

(** The union of the four populations is [{0 .. hidden_size-1}]. *)
Definition covers (hidden_size : Z) (p : t) : Prop :=
  forall i, In i (populations p) <-> (0 <= i < hidden_size)%Z.

Definition is_partition (hidden_size : Z) (p : t) : Prop :=
  pairwise_disjoint p /\ covers hidden_size p.

(** A structure whose sizes and indices are not negative. *)
Definition of_nat (p : PopulationStructure.t) : t :=
  mk (Z.of_nat (PopulationStructure.n_input_only p))
     (Z.of_nat (PopulationStructure.n_readout_only p))
     (Z.of_nat (PopulationStructure.n_recurrent_only p))
     (Z.of_nat (PopulationStructure.n_input_readout p))
     (map Z.of_nat (PopulationStructure.input_indices p))
     (map Z.of_nat (PopulationStructure.readout_indices p))
     (map Z.of_nat (PopulationStructure.input_only_indices p))
     (map Z.of_nat (PopulationStructure.readout_only_indices p))
     (map Z.of_nat (PopulationStructure.recurrent_only_indices p))
     (map Z.of_nat (PopulationStructure.input_readout_indices p)).

End PopulationStructureZ.

(** ** LeakyRNNCell *)

(** A method as [functools.cached_property] meets it: the property calls
    the function with the instance alone, so a function that asks for a
    further positional argument fails with [TypeError]. *)
Inductive method (Self A : Type) : Type :=
| Method0 (body : Self -> result A)
| Method1 (body : Self -> R -> result A).

Definition cached_property {Self A : Type} (m : method Self A) (self : Self)
    : result A :=
  match m with
  | Method0 body => body self
  | Method1 _ => Raise TypeError
  end.

Module LeakyRNNCell.

Record t : Type := mk {
  weight_hh : matrix;
  weight_ih : matrix;
  bias : option vec;
  input_size : nat;
  hidden_size : nat;
  use_bias : bool;
  use_noise : bool;
  noise_strength : R;
  dt : R;
  tau : R;
  nonlinearity : vec -> vec
}.

(** [x / y] on Python floats. *)
Definition float_div (x y : R) : result R :=
  if Req_dec_T y 0 then Raise ZeroDivisionError else Ok (x / y)%R.

(** [math.sqrt] *)
Definition math_sqrt (x : R) : result R :=
  if Rlt_dec x 0 then Raise ValueError else Ok (sqrt x).

(** [def alpha(self)] *)
Definition alpha_def : method t R :=
  Method0 (fun self => float_div (dt self) (tau self)).

Definition alpha (self : t) : result R := cached_property alpha_def self.

(** [def noise_std(self, noise_strength)] *)
Definition noise_std_def : method t (option R) :=
  Method1 (fun self noise_strength =>
    if use_noise self then
      a <- alpha self ;;
      q <- float_div 2 a ;;
      s <- math_sqrt q ;;
      Ok (Some (s * noise_strength)%R)
    else Ok None).

Definition noise_std (self : t) : result (option R) :=
  cached_property noise_std_def self.

Section WithJax.
Context {J : JaxLib}.

(** [LeakyRNNCell.__call__] *)
Definition __call__ (self : t) (input state : vec) (key : Key) : result vec :=
  let bias :=
    if use_bias self
    then match bias self with Some b => Jnp.Arr b | None => Jnp.NoneVal end
    else Jnp.Scalar 0 in
  noise <-
    (if use_noise self then
       s <- noise_std self ;;
       match s with
       | Some s => Ok (Jnp.Arr (Jnp.scale s (jr_normal key (length state))))
       | None => Raise TypeError
       end
     else Ok (Jnp.Scalar 0)) ;;
  a <- alpha self ;;
  let decay := Jnp.scale (1 - a) state in
  ih <- Jnp.dot (weight_ih self) input ;;
  hh <- Jnp.dot (weight_hh self) state ;;
  s1 <- Jnp.add ih hh ;;
  s2 <- Jnp.add_operand s1 bias ;;
  s3 <- Jnp.add_operand s2 noise ;;
  Jnp.add decay (Jnp.scale a (nonlinearity self s3)).

End WithJax.

(** The update as the specification words it,
    [(1-a)*state + a*nonlinearity(W_ih input + W_hh state + bias + noise)]
    with [a = dt / tau], on arrays of fitting shapes. *)
Definition spec_update (self : t) (input state bias noise : vec) : vec :=
  let a := (dt self / tau self)%R in
  let ih := map (fun row => Jnp.vdot row input) (weight_ih self) in
  let hh := map (fun row => Jnp.vdot row state) (weight_hh self) in
  map2 Rplus
    (Jnp.scale (1 - a) state)
    (Jnp.scale a
       (nonlinearity self
          (map2 Rplus (map2 Rplus (map2 Rplus ih hh) bias) noise))).

(** The bias the update adds: the array [self.bias], or zeros for the
    scalar [0] that stands in without bias. *)
Definition bias_term (self : t) (n : nat) : vec :=
  if use_bias self
  then match bias self with Some b => b | None => [] end
  else Jnp.zeros n.

(** The arrays of a cell fit a state and an input. *)
Definition shapes_fit (self : t) (input state : vec) : Prop :=
  length (weight_ih self) = length state /\
  length (weight_hh self) = length state /\
  Forall (fun row => length row = length input) (weight_ih self) /\
  Forall (fun row => length row = length state) (weight_hh self) /\
  (use_bias self = true -> exists b, bias self = Some b /\ length b = length state) /\
  (forall v, length (nonlinearity self v) = length v).

(** [eqx.tree_at(lambda c: c.weight_ih, self, w)] *)
Definition with_weight_ih (self : t) (w : matrix) : t :=
  mk (weight_hh self) w (bias self) (input_size self) (hidden_size self)
     (use_bias self) (use_noise self) (noise_strength self) (dt self) (tau self)
     (nonlinearity self).

(** [eqx.tree_at(lambda c: c.bias, self, b)] *)
Definition with_bias (self : t) (b : vec) : t :=
  mk (weight_hh self) (weight_ih self) (Some b) (input_size self)
     (hidden_size self) (use_bias self) (use_noise self) (noise_strength self)
     (dt self) (tau self) (nonlinearity self).

End LeakyRNNCell.


(** ** Layers *)

(** The layer types a network is assembled from.  [hasattr], [getattr],
    [isinstance] and [n_positional_args] are read off the constructor. *)
Module Layer.

Inductive t : Type :=
| Linear (l : Linear.t)
| Masked (m : MaskedLinear.t)
| Leaky (c : LeakyRNNCell.t)
| GRU (g : GRUCell.t).

(** [layer.weight_ih] when [hasattr(layer, 'weight_ih')]. *)
Definition get_weight_ih (layer : t) : option matrix :=
  match layer with
  | Leaky c => Some (LeakyRNNCell.weight_ih c)
  | GRU g => Some (GRUCell.weight_ih g)
  | Linear _ | Masked _ => None
  end.

(** [eqx.tree_at(lambda h: h.weight_ih, layer, w)] *)
Definition set_weight_ih (layer : t) (w : matrix) : result t :=
  match layer with
  | Leaky c => Ok (Leaky (LeakyRNNCell.with_weight_ih c w))
  | GRU g =>
      Ok (GRU (GRUCell.mk w (GRUCell.weight_hh g) (GRUCell.bias g)
                          (GRUCell.bias_n g)))
  | Linear _ | Masked _ => Raise AttributeError
  end.

(** [getattr(layer, "bias", None)]: a [MaskedLinear] has the fields
    [linear] and [mask] and no attribute [bias]. *)
Definition getattr_bias (layer : t) : option vec :=
  match layer with
  | Linear l => Linear.bias l
  | Masked _ => None
  | Leaky c => LeakyRNNCell.bias c
  | GRU g => GRUCell.bias g
  end.

(** [eqx.tree_at(lambda layer: layer.bias, layer, b)] *)
Definition set_bias (layer : t) (b : vec) : result t :=
  match layer with
  | Linear l => Ok (Linear (Linear.mk (Linear.weight l) (Some b)))
  | Leaky c => Ok (Leaky (LeakyRNNCell.with_bias c b))
  | GRU g =>
      Ok (GRU (GRUCell.mk (GRUCell.weight_ih g) (GRUCell.weight_hh g) (Some b)
                          (GRUCell.bias_n g)))
  | Masked _ => Raise AttributeError
  end.

(** [readout.linear = eqx.tree_at(lambda layer: layer.bias, readout.linear, b)] *)
Definition set_linear_bias (layer : t) (b : vec) : result t :=
  match layer with
  | Masked m =>
      Ok (Masked (MaskedLinear.mk
                    (Linear.mk (Linear.weight (MaskedLinear.linear m)) (Some b))
                    (MaskedLinear.mask m)))
  | _ => Raise AttributeError
  end.

Definition is_MaskedLinear (layer : t) : bool :=
  match layer with Masked _ => true | _ => false end.

(** Modelled from the spec: [n_positional_args] of [feedbax.misc] is not
    part of the sources; the arity of a step function found by inspection
    of its [__call__], one positional argument for a stateless layer. *)
Definition n_positional_args (layer : t) : nat :=
  match layer with
  | Linear _ | Masked _ => 1
  | GRU _ => 2
  | Leaky _ => 3
  end.

Section WithJax.
Context {J : JaxLib}.

(** [layer(input, key=key)] *)
Definition call1 (layer : t) (input : pytree) (key : Key) : result pytree :=
  match input with
  | None => Raise TypeError
  | Some x =>
      match layer with
      | Linear l => y <- eqx_nn_Linear_call l x ;; Ok (Some y)
      | Masked m => y <- MaskedLinear.__call__ m x ;; Ok (Some y)
      | Leaky _ | GRU _ => Raise TypeError
      end
  end.

(** [layer(input, state, key=key)] *)
Definition call2 (layer : t) (input state : pytree) (key : Key) : result pytree :=
  match layer with
  | Linear _ | Masked _ => Raise TypeError
  | Leaky c =>
      match input, state with
      | Some x, Some h => y <- LeakyRNNCell.__call__ c x h key ;; Ok (Some y)
      | _, _ => Raise TypeError
      end
  | GRU g =>
      match input, state with
      | Some x, Some h => y <- eqx_nn_GRUCell_call g x h ;; Ok (Some y)
      | _, _ => Raise TypeError
      end
  end.

End WithJax.

End Layer.

(** ** NetworkState *)

Module NetworkState.

Record t : Type := mk {
  input : vec;
  hidden : vec;
  output : pytree;
  encoding : pytree
}.

End NetworkState.

(** ** SimpleStagedNetwork *)

(** A function applied to a sub-tree of the state. *)
Definition nonlinearity_t : Type := pytree -> result pytree.

(** [identity_func] of [feedbax.misc]. *)
Definition identity_func : nonlinearity_t := fun x => Ok x.

(** A unitwise function such as [jnp.tanh]; it rejects [None]. *)
Definition unitwise (f : R -> R) : nonlinearity_t :=
  fun x =>
    match x with
    | Some v => Ok (Some (map f v))
    | None => Raise TypeError
    end.

Module SimpleStagedNetwork.

Section WithJax.
Context {J : JaxLib}.

(** The fields of the class.  [out_size] is what [init] compares with
    [None].  The field [intervenors] and the hooks it registers are left
    out. *)
Record t : Type := mk {
  input_size : nat;
  hidden : Layer.t;
  hidden_size : nat;
  hidden_noise_std : option R;
  hidden_nonlinearity : nonlinearity_t;
  out_size : option nat;
  out_nonlinearity : nonlinearity_t;
  readout : option Layer.t;
  encoding_size : option nat;
  encoder : option Layer.t;
  population_structure : option PopulationStructure.t
}.

Definition hidden_type_t : Type := nat -> nat -> bool -> Key -> result Layer.t.
Definition layer_type_t : Type := nat -> nat -> Key -> result Layer.t.

(** The block under [if hasattr(hidden, 'weight_ih')], which [__init__]
    has once for the encoder branch and once for the branch without. *)
Definition mask_weight_ih (hidden : Layer.t) (hidden_size in_size : nat)
    (population_structure : PopulationStructure.t) : result Layer.t :=
  match Layer.get_weight_ih hidden with
  | Some weight_ih =>
      let hidden_input_mask :=
        if length weight_ih =? 3 * hidden_size then
          Jnp.tile3
            (Jnp.ones_at_rows hidden_size in_size
               (PopulationStructure.input_indices population_structure))
        else
          Jnp.ones_at_rows hidden_size in_size
            (PopulationStructure.input_indices population_structure) in
      masked_weight_ih <- Jnp.mul weight_ih hidden_input_mask ;;
      Layer.set_weight_ih hidden masked_weight_ih
  | None => Ok hidden
  end.

(** The statements of [__init__] that build the hidden layer, for the
    size [in_size] of what feeds it. *)
Definition make_hidden (hidden_type : hidden_type_t) (in_size hidden_size : nat)
    (use_bias : bool) (population_structure : option PopulationStructure.t)
    (key1 : Key) : result Layer.t :=
  match population_structure with
  | Some ps =>
      hidden <- hidden_type in_size hidden_size use_bias key1 ;;
      mask_weight_ih hidden hidden_size in_size ps
  | None => hidden_type in_size hidden_size use_bias key1
  end.

(** The statements of [__init__] under [if out_size is not None]. *)
Definition make_readout (readout_type : layer_type_t) (hidden_size out_size : nat)
    (use_bias : bool) (population_structure : option PopulationStructure.t)
    (key3 : Key) : result Layer.t :=
  readout <-
    match population_structure with
    | Some ps =>
        let readout_mask :=
          Jnp.ones_at_cols out_size hidden_size
            (PopulationStructure.readout_indices ps) in
        m <- MaskedLinear.__init__ hidden_size out_size readout_mask use_bias key3 ;;
        Ok (Layer.Masked m)
    | None => readout_type hidden_size out_size key3
    end ;;
  match Layer.getattr_bias readout with
  | Some bias =>
      if Layer.is_MaskedLinear readout
      then Layer.set_linear_bias readout (Jnp.zeros_like bias)
      else Layer.set_bias readout (Jnp.zeros_like bias)
  | None => Ok readout
  end.

(** [SimpleStagedNetwork.__init__].  The field [out_nonlinearity] is
    declared without a default and is assigned under
    [if out_size is not None] only; the [else] branch assigns [out_size]
    alone.  An [equinox.Module] whose [__init__] returns with a field
    unassigned is refused with [ValueError], after the body has run. *)
Definition __init__ (input_size hidden_size : nat) (out_size encoding_size : option nat)
    (hidden_type : hidden_type_t) (encoder_type readout_type : layer_type_t)
    (use_bias : bool) (hidden_nonlinearity out_nonlinearity : nonlinearity_t)
    (hidden_noise_std : option R)
    (population_structure : option PopulationStructure.t) (key : Key) : result t :=
  let '(key1, key2, key3) := jr_split3 key in
  enc <-
    match encoding_size with
    | Some encoding_size =>
        encoder <-
          match population_structure with
          | Some _ =>
              let encoder_mask := Jnp.ones2 encoding_size input_size in
              m <- MaskedLinear.__init__ input_size encoding_size encoder_mask
                     use_bias key2 ;;
              Ok (Layer.Masked m)
          | None => encoder_type input_size encoding_size key2
          end ;;
        hidden <- make_hidden hidden_type encoding_size hidden_size use_bias
                    population_structure key1 ;;
        Ok (Some encoder, hidden)
    | None =>
        hidden <- make_hidden hidden_type input_size hidden_size use_bias
                    population_structure key1 ;;
        Ok (None, hidden)
    end ;;
  let '(encoder, hidden) := enc in
  out <-
    match out_size with
    | Some out_size =>
        readout <- make_readout readout_type hidden_size out_size use_bias
                     population_structure key3 ;;
        Ok (Some readout, out_nonlinearity, Some out_size)
    | None => Raise ValueError
    end ;;
  let '(readout, out_nonlinearity_field, out_size_field) := out in
  Ok (mk input_size hidden hidden_size hidden_noise_std hidden_nonlinearity
         out_size_field out_nonlinearity_field readout encoding_size encoder
         population_structure).

(** The size of what feeds the hidden layer: the encoding when there is
    an encoder, the input otherwise. *)
Definition hidden_in_size (input_size : nat) (encoding_size : option nat) : nat :=
  match encoding_size with
  | Some e => e
  | None => input_size
  end.

(** [SimpleStagedNetwork._add_hidden_noise] *)
Definition _add_hidden_noise (self : t) (input state : pytree) (key : Key)
    : result pytree :=
  match hidden_noise_std self with
  | None => Ok state
  | Some std =>
      match state with
      | Some s =>
          r <- Jnp.add s (Jnp.scale std (jr_normal key (length s))) ;;
          Ok (Some r)
      | None => Raise AttributeError
      end
  end.

(** [ModelStage]: the three fields a stage is built from. *)
Record ModelStage : Type := Stage {
  callable : t -> pytree -> pytree -> Key -> result pytree;
  where_input : list vec -> NetworkState.t -> pytree;
  where_state : NetworkState.t -> pytree
}.

(** [ravel_pytree(input)[0]]: the leaves of the input, concatenated. *)
Definition ravel_pytree (input : list vec) : vec := concat input.

(** Modelled from the spec: [wrap_stateless_callable] and
    [wrap_stateless_keyless_callable] of [feedbax._model] are not part of
    the sources; a stateless callable ignores the sub-state, and the
    keyless one the random key as well. *)
Definition wrap_stateless_callable (f : pytree -> Key -> result pytree)
    : pytree -> pytree -> Key -> result pytree :=
  fun input _ key => f input key.

Definition wrap_stateless_keyless_callable (f : pytree -> result pytree)
    : pytree -> pytree -> Key -> result pytree :=
  fun input _ _ => f input.

(** [SimpleStagedNetwork.model_spec] *)
Definition model_spec (self : t) : list (string * ModelStage) :=
  let hidden_module : t -> pytree -> pytree -> Key -> result pytree :=
    if Layer.n_positional_args (hidden self) =? 1
    then fun self => wrap_stateless_callable (Layer.call1 (hidden self))
    else fun self => Layer.call2 (hidden self) in
  let spec :=
    [("input"%string,
      Stage (fun self => fun input state key => Ok input)
            (fun input _ => Some (ravel_pytree input))
            (fun state => Some (NetworkState.input state)))] in
  let spec :=
    match encoder self with
    | None =>
        Dict.update spec
          [("hidden"%string,
            Stage hidden_module
                  (fun input state => Some (NetworkState.input state))
                  (fun state => Some (NetworkState.hidden state)))]
    | Some _ =>
        [("encoder"%string,
          Stage (fun self => fun input state key =>
                   match encoder self with
                   | Some e => Layer.call1 e input key
                   | None => Raise TypeError
                   end)
                (fun input state => Some (NetworkState.input state))
                (fun state => NetworkState.encoding state));
         ("hidden"%string,
          Stage hidden_module
                (fun input state => NetworkState.encoding state)
                (fun state => Some (NetworkState.hidden state)))]
    end in
  let spec :=
    Dict.update spec
      [("hidden_nonlinearity"%string,
        Stage (fun self => wrap_stateless_keyless_callable (hidden_nonlinearity self))
              (fun input state => Some (NetworkState.hidden state))
              (fun state => Some (NetworkState.hidden state)))] in
  let spec :=
    match hidden_noise_std self with
    | Some _ =>
        Dict.update spec
          [("hidden_noise"%string,
            Stage (fun self => _add_hidden_noise self)
                  (fun input state => Some (NetworkState.hidden state))
                  (fun state => Some (NetworkState.hidden state)))]
    | None => spec
    end in
  let spec :=
    match readout self with
    | Some _ =>
        Dict.update spec
          [("readout"%string,
            Stage (fun self =>
                     wrap_stateless_callable
                       (match readout self with
                        | Some r => Layer.call1 r
                        | None => fun _ _ => Raise TypeError
                        end))
                  (fun input state => Some (NetworkState.hidden state))
                  (fun state => NetworkState.output state))]
    | None => spec
    end in
  Dict.update spec
    [("out_nonlinearity"%string,
      Stage (fun self => wrap_stateless_keyless_callable (out_nonlinearity self))
            (fun input state => NetworkState.output state)
            (fun state => NetworkState.output state))].

(** The labels of the stages, in order. *)
Definition stage_labels (self : t) : list string := map fst (model_spec self).

(** [SimpleStagedNetwork.init] *)
Definition init (self : t) (key : Key) : NetworkState.t :=
  let output :=
    match out_size self with
    | None => None
    | Some n => Some (Jnp.zeros n)
    end in
  let encoding :=
    match encoding_size self with
    | None => None
    | Some n => Some (Jnp.zeros n)
    end in
  NetworkState.mk (Jnp.zeros (input_size self)) (Jnp.zeros (hidden_size self))
                  output encoding.

(** Modelled from the spec: the staged execution engine of
    [feedbax._staged] is not part of the sources; what a stage computes
    in one step, by (a), (c) and (e) of its contract, with no intervention
    hook registered: the callable of the stage on the selected input and
    the selected sub-state. *)
Definition stage_result (stage : ModelStage) (model : t) (input : list vec)
    (state : NetworkState.t) (key : Key) : result pytree :=
  callable stage model (where_input stage input state) (where_state stage state) key.

(** [eqx.tree_at(lambda m: m.hidden.weight_ih, model, w)]: what a training
    update does to the input weights of the hidden layer. *)
Definition with_weight_ih (self : t) (w : matrix) : result t :=
  h <- Layer.set_weight_ih (hidden self) w ;;
  Ok (mk (input_size self) h (hidden_size self) (hidden_noise_std self)
         (hidden_nonlinearity self) (out_size self) (out_nonlinearity self)
         (readout self) (encoding_size self) (encoder self)
         (population_structure self)).

End WithJax.

End SimpleStagedNetwork.


(** ** CompositeLoss *)

Module Loss.

(** A loss is a simple term, of which the constructor of [CompositeLoss]
    reads the label only, or a [CompositeLoss]. *)
Inductive t : Type :=
| Simple (label : string)
| Composite (terms : list (string * t)) (weights : list (string * R))
            (label : string).

Definition label (l : t) : string :=
  match l with
  | Simple s => s
  | Composite _ _ s => s
  end.

(** [isinstance(l, CompositeLoss)] *)
Definition is_composite (l : t) : bool :=
  match l with
  | Simple _ => false
  | Composite _ _ _ => true
  end.

Definition terms (l : t) : list (string * t) :=
  match l with
  | Simple _ => []
  | Composite ts _ _ => ts
  end.

Definition weights (l : t) : list (string * R) :=
  match l with
  | Simple _ => []
  | Composite _ ws _ => ws
  end.

(** The argument [terms]: a mapping or a sequence. *)
Inductive terms_arg : Type :=
| TermsMapping (d : list (string * t))
| TermsSequence (s : list t).

(** The argument [weights]: a mapping, a sequence or [None]. *)
Inductive weights_arg : Type :=
| WeightsMapping (d : list (string * R))
| WeightsSequence (s : list R)
| WeightsNone.

(** The losses passed in. *)
Definition terms_of_arg (a : terms_arg) : list t :=
  match a with
  | TermsMapping d => Dict.values d
  | TermsSequence s => s
  end.

(** A label, a term and its weight. *)
Definition term_tuple : Type := (string * (t * R))%type.

Definition tuple_label (x : term_tuple) : string := fst x.
Definition tuple_term (x : term_tuple) : t := fst (snd x).
Definition tuple_weight (x : term_tuple) : R := snd (snd x).

Section WithLabels.

(** [get_unique_label] of [feedbax.misc], which is not part of the
    sources: a label built from the first argument that avoids the labels
    of the second. *)
Variable get_unique_label : string -> list string -> string.

(** The loop that makes the labels of the simple terms unique: the label
    at position [i] is renamed against the renamed labels before it. *)
Fixpoint uniquify (done rest : list string) : list string :=
  match rest with
  | [] => done
  | l :: rest' => uniquify (done ++ [get_unique_label l done]) rest'
  end.

(** The inner loop over the labels of one composite term. *)
Fixpoint append_unique (all_labels labels : list string) : list string :=
  match labels with
  | [] => all_labels
  | l :: labels' => append_unique (all_labels ++ [get_unique_label l all_labels]) labels'
  end.

(** [f"{prefix}_{label}"] *)
Definition prefixed (prefix l : string) : string :=
  (prefix ++ "_" ++ l)%string.

(** The labels one composite term contributes, before they are made
    unique: the keys of its [terms], prefixed with the group label when
    there is one, else with the label of the composite when there is one. *)
Definition component_labels (x : term_tuple) : list string :=
  let group_label := tuple_label x in
  let composite_term := tuple_term x in
  let labels := Dict.keys (terms composite_term) in
  if negb (String.eqb group_label EmptyString) then map (prefixed group_label) labels
  else if negb (String.eqb (label composite_term) EmptyString)
       then map (prefixed (label composite_term)) labels
       else labels.

(** [tuple(composite_term.terms.values())] *)
Definition component_terms (x : term_tuple) : list t :=
  Dict.values (terms (tuple_term x)).

(** [[group_weight * weight for weight in composite_term.weights.values()]] *)
Definition component_weights (x : term_tuple) : list R :=
  map (fun weight => (tuple_weight x * weight)%R)
      (Dict.values (weights (tuple_term x))).

(** The body of the loop over the composite terms. *)
Definition flatten_step
    (acc : list string * list t * list R) (x : term_tuple)
    : list string * list t * list R :=
  let '(all_labels, all_terms, all_weights) := acc in
  (append_unique all_labels (component_labels x),
   all_terms ++ component_terms x,
   all_weights ++ component_weights x).

(** The labels and the terms read off the argument [terms]. *)
Definition labels_and_terms (terms_a : terms_arg) (user_labels : bool)
    : result (list string * list t) :=
  match terms_a with
  | TermsMapping d =>
      if user_labels then
        match d with
        | [] => Raise ValueError
        | _ => Ok (Dict.keys d, Dict.values d)
        end
      else Ok (map label (Dict.values d), Dict.values d)
  | TermsSequence s => Ok (map label s, s)
  end.

(** The weights read off the argument [weights]. *)
Definition weight_values (weights_a : weights_arg) (terms_l : list t) : list R :=
  match weights_a with
  | WeightsMapping d => Dict.values d
  | WeightsSequence s => s
  | WeightsNone => map (fun _ => 1%R) terms_l
  end.

(** [list(zip(labels, terms, weight_values))] *)
Definition term_tuples (labels : list string) (terms_l : list t)
    (weight_values : list R) : list term_tuple :=
  combine labels (combine terms_l weight_values).

(** The two halves of [eqx.partition] once the [None] are dropped. *)
Definition simple_tuples (tuples : list term_tuple) : list term_tuple :=
  filter (fun x => negb (is_composite (tuple_term x))) tuples.

Definition composite_tuples (tuples : list term_tuple) : list term_tuple :=
  filter (fun x => is_composite (tuple_term x)) tuples.

(** [CompositeLoss.__init__] *)
Definition __init__ (terms_a : terms_arg) (weights_a : weights_arg) (label_a : string)
    (user_labels : bool) : result t :=
  lt <- labels_and_terms terms_a user_labels ;;
  let '(labels, terms_l) := lt in
  let weight_values := weight_values weights_a terms_l in
  if negb (length terms_l =? length weight_values) then Raise ValueError
  else
    let tuples := term_tuples labels terms_l weight_values in
    let simple := simple_tuples tuples in
    let composite := composite_tuples tuples in
    let all_labels := uniquify [] (map tuple_label simple) in
    let all_terms := map tuple_term simple in
    let all_weights := map tuple_weight simple in
    let '(all_labels, all_terms, all_weights) :=
      fold_left flatten_step composite (all_labels, all_terms, all_weights) in
    Ok (Composite (Dict.of_zip all_labels all_terms)
                  (Dict.of_zip all_labels all_weights) label_a).

(** The flattening as the claim words it: the simple terms, then the
    components of each composite term, and for the weights the weight of
    each component multiplied by the weight of its composite. *)
Definition flattened_terms (tuples : list term_tuple) : list t :=
  map tuple_term (simple_tuples tuples) ++
  flat_map component_terms (composite_tuples tuples).

Definition flattened_weights (tuples : list term_tuple) : list R :=
  map tuple_weight (simple_tuples tuples) ++
  flat_map component_weights (composite_tuples tuples).

(** The labels the two loops arrive at. *)
Definition flattened_labels (tuples : list term_tuple) : list string :=
  fold_left (fun all_labels x => append_unique all_labels (component_labels x))
            (composite_tuples tuples)
            (uniquify [] (map tuple_label (simple_tuples tuples))).

(** [AbstractLoss.__add__], [__radd__], [__sub__], [__rsub__], [__neg__],
    [__mul__] and [__rmul__] for a scalar, and [CompositeLoss.__or__]. *)
Definition __add__ (self other : t) : result t :=
  __init__ (TermsSequence [self; other]) (WeightsSequence [1%R; 1%R]) EmptyString true.

Definition __radd__ (self other : t) : result t := __add__ self other.

Definition __sub__ (self other : t) : result t :=
  __init__ (TermsSequence [self; other]) (WeightsSequence [1%R; (-1)%R]) EmptyString true.

Definition __rsub__ (self other : t) : result t :=
  __init__ (TermsSequence [self; other]) (WeightsSequence [(-1)%R; 1%R]) EmptyString true.

Definition __neg__ (self : t) : result t :=
  __init__ (TermsSequence [self]) (WeightsSequence [(-1)%R]) EmptyString true.

Definition __mul__ (self : t) (other : R) : result t :=
  __init__ (TermsSequence [self]) (WeightsSequence [other]) EmptyString true.

Definition __rmul__ (self : t) (other : R) : result t := __mul__ self other.

Definition __or__ (self other : t) : result t :=
  __init__ (TermsMapping (Dict.update (terms self) (terms other)))
       (WeightsMapping (Dict.update (weights self) (weights other)))
       (label other) true.

(** The composite losses the constructor produces, when every composite
    loss it is given was itself produced by the constructor. *)
Inductive produced : t -> Prop :=
| produced_init (terms_a : terms_arg) (weights_a : weights_arg)
    (label_a : string) (user_labels : bool) (l : t) :
    (forall c, In c (terms_of_arg terms_a) -> is_composite c = true -> produced c) ->
    __init__ terms_a weights_a label_a user_labels = Ok l ->
    produced l.

(** What keeps the labels distinct: the label [get_unique_label] returns
    is none of the labels to avoid. *)
Definition unique_label_law : Prop :=
  forall (l : string) (invalid : list string),
    ~ In (get_unique_label l invalid) invalid.

End WithLabels.

(** No value of the dictionary [terms] is a [CompositeLoss]. *)
Definition flat (l : t) : Prop :=
  Forall (fun v => is_composite v = false) (Dict.values (terms l)).

End Loss.


(** ** Concrete data

    A deterministic stand-in for jax and equinox, and the inputs the
    examples below are evaluated at. *)

Module Example.

Definition half : R := (1 / 2)%R.

(** A linear layer of the asked shape, with every weight and every bias
    entry one half. *)
Definition linear_layer (in_features out_features : nat) (use_bias : bool)
    : Linear.t :=
  Linear.mk (repeat (repeat half in_features) out_features)
            (if use_bias then Some (repeat half out_features) else None).

Definition linear_call (l : Linear.t) (x : vec) : result vec :=
  y <- Jnp.dot (Linear.weight l) x ;;
  match Linear.bias l with
  | Some b => Jnp.add y b
  | None => Ok y
  end.

Definition jax : JaxLib := {|
  Key := nat;
  jr_split3 := fun k => (3 * k + 1, 3 * k + 2, 3 * k + 3);
  jr_permutation := fun _ n => rev (seq 0 n);
  jr_normal := fun _ n => Jnp.zeros n;
  eqx_nn_Linear := fun i o b _ => linear_layer i o b;
  eqx_nn_GRUCell_call := fun _ _ h => Ok h;
  eqx_nn_Linear_call := linear_call
|}.

(** The same assignment function on Python ints. *)
Definition overlapping_assignment_int
    : PopulationStructureZ.assignment_fn_t (J := jax) :=
  fun _ _ _ _ _ _ => ([0%Z], [0%Z], [], []).

(** A hidden layer type that builds a leaky cell without bias and without
    noise, with unit time constants and the identity as nonlinearity; every
    input weight is one and every recurrent weight zero. *)
Definition leaky_cell (input_size hidden_size : nat) : LeakyRNNCell.t :=
  LeakyRNNCell.mk (Jnp.zeros2 hidden_size hidden_size)
                  (Jnp.ones2 hidden_size input_size) None input_size hidden_size
                  false false 0 1 1 (fun v => v).

Definition leaky_type : SimpleStagedNetwork.hidden_type_t (J := jax) :=
  fun i h _ _ => Ok (Layer.Leaky (leaky_cell i h)).

(** A hidden layer type that builds a gated cell: three blocks of
    [hidden_size] rows, every weight one. *)
Definition gru_type : SimpleStagedNetwork.hidden_type_t (J := jax) :=
  fun i h _ _ =>
    Ok (Layer.GRU (GRUCell.mk (Jnp.ones2 (3 * h) i) (Jnp.ones2 (3 * h) h)
                              None None)).

(** A layer type for encoder and readout: a linear layer with a bias. *)
Definition linear_type : SimpleStagedNetwork.layer_type_t (J := jax) :=
  fun i o _ => Ok (Layer.Linear (linear_layer i o true)).

(** Two hidden units, the first input-only and the second readout-only. *)
Definition two_populations : PopulationStructure.t :=
  PopulationStructure.mk 1 1 0 0 [0] [1] [0] [1] [] [].

(** A state with the input [x] and resting hidden units. *)
Definition state_with_input (x : R) : NetworkState.t :=
  NetworkState.mk [x] [0%R; 0%R] (Some [0%R; 0%R]) None.

(** The literal test of the specification on two units: unit time
    constants, the identity, no bias, input weights zero; the recurrent
    weights swap the two units. *)
Definition swap_cell (use_noise : bool) (noise_strength : R) : LeakyRNNCell.t :=
  LeakyRNNCell.mk [[0%R; 1%R]; [1%R; 0%R]] (Jnp.zeros2 2 1) None 1 2
                  false use_noise noise_strength 1 1 (fun v => v).

(** A function for [get_unique_label]: the label followed by every label
    to avoid, hence longer than each of them. *)
Definition longer_label (l : string) (invalid : list string) : string :=
  (l ++ "_" ++ fold_right String.append EmptyString invalid)%string.

(** A function for [get_unique_label]: the label itself unless it is to be
    avoided. *)
Definition unique_label (l : string) (invalid : list string) : string :=
  if existsb (String.eqb l) invalid then longer_label l invalid else l.

Definition loss_a : Loss.t := Loss.Simple "a".
Definition loss_b : Loss.t := Loss.Simple "b".

(** [loss_a + loss_b] *)
Definition loss_ab : Loss.t :=
  Loss.Composite [("a", loss_a); ("b", loss_b)]%string
                 [("a", 1%R); ("b", 1%R)]%string EmptyString.

(** A masked layer on floating point arrays, one output and two inputs,
    that lets the first input through only. *)
Definition fp_layer : FpMaskedLinear.t :=
  FpMaskedLinear.mk
    (FpMaskedLinear.mk_linear [[Fp.Num 1; Fp.Num 0]] None)
    [[Fp.Num 1; Fp.Num 0]].

End Example.

(** ** Slices of gated weights *)

Module GruWeights.

(** The three labels [gru_weight_idxs_func] accepts. *)
Inductive label : Type :=
| candidate
| update
| reset.

(** A Python [slice(start, stop)]; [stop] may be [None]. *)
Record pyslice : Type := Slice { start : nat; stop : option nat }.

(** [gru_weight_idxs_func(label)(weights)], with [weights.shape[-2]] the
    number of rows of a two-dimensional array. *)
Definition gru_weight_idxs_func (l : label) (weights : matrix) : pyslice :=
  let len_by_3 := length weights / 3 in
  match l with
  | reset => Slice 0 (Some len_by_3)
  | update => Slice len_by_3 (Some (2 * len_by_3))
  | candidate => Slice (2 * len_by_3) None
  end.

(** [a[s]] for a slice [s]. *)
Definition getitem {A : Type} (a : list A) (s : pyslice) : list A :=
  match stop s with
  | Some hi => PopulationStructure.slice a (start s) hi
  | None => PopulationStructure.slice_from a (start s)
  end.

End GruWeights.

(** ** Laws of the samplers and initialisers *)

(** [jr.normal(key, (n,))] has [n] entries. *)
Definition normal_law (J : JaxLib) : Prop :=
  forall (k : Key) (n : nat), length (jr_normal k n) = n.

(** ** Loss functions of [feedbax/loss.py] *)

Module LossFunctions.

(** An array entry that may be NaN, which [None] stands for. *)
Definition nan_array : Type := list (option R).

(** [jnp.linspace(start, stop, num)]: [num] evenly spaced samples, the
    first [start] and the last [stop]. *)
Definition linspace (start stop : R) (num : nat) : vec :=
  match num with
  | 1 => [start]
  | _ =>
      map (fun i => (start + INR i * ((stop - start) / INR (num - 1)))%R)
          (seq 0 num)
  end.

(** [power_discount].  Both arguments are Python ints.  [1.0 / n_steps]
    raises [ZeroDivisionError] for no step; [jnp.linspace] refuses a
    negative number of samples with [ValueError]; an array to a negative
    integer power holds the inverses of the positive powers. *)
Definition power_discount (n_steps discount_exp : Z) : result Jnp.operand :=
  if (discount_exp =? 0)%Z then Ok (Jnp.Scalar 1)
  else
    first <- LeakyRNNCell.float_div 1 (IZR n_steps) ;;
    if (n_steps <? 0)%Z then Raise ValueError
    else
      Ok (Jnp.Arr (map (fun x => powerRZ x discount_exp)
                       (linspace first 1 (Z.to_nat n_steps)))).




(** [jnp.sum] of an array that may hold NaN. *)
Definition nansum (v : nan_array) : option R :=
  fold_right (fun x acc =>
                match x, acc with
                | Some a, Some b => Some (a + b)%R
                | _, _ => None
                end) (Some 0%R) v.

(** [nan_safe_mse] *)
Definition nan_safe_mse (preds targets : nan_array) : result (option R) :=
  if negb (length preds =? length targets) then Raise ShapeError
  else
    let valid_mask :=
      map (fun t => match t with Some _ => true | None => false end) targets in
    let targets_cleaned :=
      map (fun t => match t with Some r => r | None => 0%R end) targets in
    let squared_errors :=
      map2 (fun p t => match p with
                       | Some p => Some ((p - t) ^ 2)%R
                       | None => None
                       end) preds targets_cleaned in
    let masked_squared_errors :=
      map2 (fun (valid : bool) e => if valid then e else Some 0%R)
           valid_mask squared_errors in
    let sum_of_squared_errors := nansum masked_squared_errors in
    let num_valid_elements :=
      INR (length (filter (fun b => b) valid_mask)) in
    Ok (match sum_of_squared_errors with
        | Some s => Some (s / Rmax num_valid_elements 1)%R
        | None => None
        end).



End LossFunctions.

(** ** Counting the terms of a composite loss *)

Module LossCount.

(** The number of terms a loss contributes to a composite: its components
    when it is a composite itself, one otherwise. *)
Definition contribution (l : Loss.t) : nat :=
  if Loss.is_composite l then length (Loss.terms l) else 1.

End LossCount.

(** ** Further concrete data *)

Module Sample.

(** A leaky cell with a bias on two units and one input. *)
Definition biased_cell (dt tau : R) : LeakyRNNCell.t :=
  LeakyRNNCell.mk [[0%R; 1%R]; [1%R; 0%R]] [[1%R]; [1%R]] (Some [1%R; 1%R]) 1 2
                  true false 0 dt tau (fun v => v).

(** A nonlinearity that clips every entry to the interval from 0 to 1. *)
Definition clip (v : vec) : vec := map (fun x => Rmax 0 (Rmin 1 x)) v.

(** A leaky cell on two units and one input whose nonlinearity clips. *)
Definition clipped_cell (dt tau : R) : LeakyRNNCell.t :=
  LeakyRNNCell.mk [[0%R; 1%R]; [1%R; 0%R]] [[1%R]; [1%R]] None 1 2
                  false false 0 dt tau clip.

(** A network of two leaky units with a linear readout, without encoder,
    hidden noise and population structure. *)
Definition plain_net : SimpleStagedNetwork.t :=
  SimpleStagedNetwork.mk 1 (Layer.Leaky (Example.leaky_cell 1 2)) 2 None
    identity_func (Some 1) identity_func
    (Some (Layer.Linear (Linear.mk [[Example.half; Example.half]] (Some [0%R]))))
    None None None.

End Sample.

(** * Properties *)

(** ** Arrays *)

Lemma bind_Ok {A B : Type} (r : result A) (k : A -> result B) (b : B) :
  bind r k = Ok b -> exists a, r = Ok a /\ k a = Ok b.
Proof.
  destruct r as [a|e]; simpl; intros H; [exists a; split; [reflexivity|exact H] | discriminate].
Qed.

Lemma same_shape_length (a b : matrix) :
  Jnp.same_shape a b = true -> length a = length b.
Proof.
  revert b; induction a as [|r a IH]; intros [|r' b]; simpl; try discriminate; auto.
  intros H; apply andb_prop in H; destruct H as [_ H]; f_equal; auto.
Qed.

Lemma same_shape_row (a b : matrix) (i : nat) :
  Jnp.same_shape a b = true -> length (nth i a []) = length (nth i b []).
Proof.
  revert b i; induction a as [|r a IH]; intros [|r' b] i; simpl; try discriminate.
  - destruct i; reflexivity.
  - intros H; apply andb_prop in H; destruct H as [Hr H].
    destruct i; [apply Nat.eqb_eq; exact Hr | apply IH; exact H].
Qed.

Lemma map2_length {A B C : Type} (f : A -> B -> C) (l1 : list A) (l2 : list B) :
  length l1 = length l2 -> length (map2 f l1 l2) = length l1.
Proof.
  revert l2; induction l1 as [|a l1 IH]; intros [|b l2]; simpl; try discriminate; auto.
Qed.

Lemma nth_map2_Rmult (u v : vec) (j : nat) :
  length u = length v ->
  nth j (map2 Rmult u v) 0%R = (nth j u 0 * nth j v 0)%R.
Proof.
  revert v j; induction u as [|a u IH]; intros [|b v] j; simpl; try discriminate.
  - intros _; destruct j; ring.
  - intros H; destruct j; [reflexivity | apply IH; lia].
Qed.

(** An entry of a product of two arrays of one shape is the product of the
    entries. *)
Lemma entry_mul (a b : matrix) (i j : nat) :
  Jnp.same_shape a b = true ->
  Jnp.entry (map2 (map2 Rmult) a b) i j = (Jnp.entry a i j * Jnp.entry b i j)%R.
Proof.
  unfold Jnp.entry.
  revert b i; induction a as [|r a IH]; intros [|r' b] i; simpl; try discriminate.
  - intros _; destruct i, j; simpl; ring.
  - intros H; apply andb_prop in H; destruct H as [Hr H].
    destruct i; [apply nth_map2_Rmult, Nat.eqb_eq, Hr | apply IH, H].
Qed.

Lemma mul_same_shape (a b : matrix) :
  Jnp.same_shape a b = true -> Jnp.mul a b = Ok (map2 (map2 Rmult) a b).
Proof. unfold Jnp.mul; intros ->; reflexivity. Qed.

Lemma mul_Ok (a b c : matrix) :
  Jnp.mul a b = Ok c -> Jnp.same_shape a b = true /\ c = map2 (map2 Rmult) a b.
Proof.
  unfold Jnp.mul; destruct (Jnp.same_shape a b); [|discriminate].
  intros H; injection H as <-; split; reflexivity.
Qed.

(** ** MaskedLinear *)

Lemma fp_mul_zero (a : Fp.t) :
  Fp.finite a = true -> Fp.mul a (Fp.Num 0) = Fp.Num 0.
Proof.
  destruct a; try discriminate. intros _. simpl. f_equal. ring.
Qed.

Lemma fp_zero_dec (m : Fp.t) : m = Fp.Num 0 \/ m <> Fp.Num 0.
Proof.
  destruct m as [r| |]; try (right; discriminate).
  destruct (Req_dec_T r 0) as [->|H]; [left; reflexivity|].
  right; intros E; injection E; exact H.
Qed.

Lemma fp_nth_map2_mul (u v : Fp.vec) (j : nat) :
  length u = length v ->
  nth j (map2 Fp.mul u v) (Fp.Num 0) =
    Fp.mul (nth j u (Fp.Num 0)) (nth j v (Fp.Num 0)).
Proof.
  revert v j; induction u as [|a u IH]; intros [|b v] j; simpl; try discriminate.
  - intros _; destruct j; simpl; f_equal; ring.
  - intros H; destruct j; [reflexivity | apply IH; lia].
Qed.

Lemma fp_same_shape_length (a b : Fp.matrix) :
  Fp.same_shape a b = true -> length a = length b.
Proof.
  unfold Fp.same_shape.
  revert b; induction a as [|r a IH]; intros [|r' b]; simpl; try discriminate;
    [reflexivity|].
  intros H; apply andb_prop in H; destruct H as [_ H]. f_equal; apply IH, H.
Qed.

Lemma fp_entry_mul (a b : Fp.matrix) (i j : nat) :
  Fp.same_shape a b = true ->
  Fp.entry (map2 (map2 Fp.mul) a b) i j =
    Fp.mul (Fp.entry a i j) (Fp.entry b i j).
Proof.
  unfold Fp.entry, Fp.same_shape.
  revert b i; induction a as [|r a IH]; intros [|r' b] i; simpl; try discriminate.
  - intros _; destruct i, j; simpl; f_equal; ring.
  - intros H; apply andb_prop in H; destruct H as [Hr H].
    destruct i; [apply fp_nth_map2_mul, Nat.eqb_eq, Hr | apply IH, H].
Qed.

Lemma fp_nth_finite (v : Fp.vec) (j : nat) :
  Fp.finite_vec v -> Fp.finite (nth j v (Fp.Num 0)) = true.
Proof.
  intros H; revert j; induction H as [|a v Ha _ IH]; intros [|j]; simpl;
    try reflexivity; [exact Ha | apply IH].
Qed.

Lemma fp_entry_finite (m : Fp.matrix) (i j : nat) :
  Fp.finite_matrix m -> Fp.finite (Fp.entry m i j) = true.
Proof.
  unfold Fp.entry. intros H; revert i; induction H as [|r m Hr _ IH]; intros [|i];
    simpl; try (destruct j; reflexivity);
    [apply fp_nth_finite, Hr | apply IH].
Qed.

Lemma fp_mul2_same_shape (a b : Fp.matrix) :
  Fp.same_shape a b = true -> Fp.mul2 a b = Ok (map2 (map2 Fp.mul) a b).
Proof. intros H; unfold Fp.mul2; rewrite H; reflexivity. Qed.

(** Two finite rows that agree where the mask is not zero are one row
    once masked. *)
Lemma fp_masked_row_agree (r r' m : Fp.vec) :
  length r = length m -> length r' = length m ->
  Fp.finite_vec r -> Fp.finite_vec r' ->
  (forall j, nth j m (Fp.Num 0) <> Fp.Num 0 ->
             nth j r (Fp.Num 0) = nth j r' (Fp.Num 0)) ->
  map2 Fp.mul r m = map2 Fp.mul r' m.
Proof.
  revert r r'; induction m as [|x m IH]; intros [|a r] [|a' r']; simpl;
    try discriminate; auto.
  intros Hl Hl' Hf Hf' H.
  inversion Hf as [|? ? Ha Hr]; subst. inversion Hf' as [|? ? Ha' Hr']; subst.
  f_equal.
  - destruct (fp_zero_dec x) as [->|Hx].
    + rewrite !fp_mul_zero by assumption. reflexivity.
    + specialize (H 0%nat); simpl in H; rewrite (H Hx); reflexivity.
  - apply IH; try lia; try assumption. intros j Hj; exact (H (S j) Hj).
Qed.

Lemma fp_masked_weight_agree (w w' m : Fp.matrix) :
  Fp.same_shape w m = true -> Fp.same_shape w' m = true ->
  Fp.finite_matrix w -> Fp.finite_matrix w' ->
  (forall i j, Fp.entry m i j <> Fp.Num 0 -> Fp.entry w i j = Fp.entry w' i j) ->
  map2 (map2 Fp.mul) w m = map2 (map2 Fp.mul) w' m.
Proof.
  revert w w'; induction m as [|x m IH]; intros [|a w] [|a' w']; simpl;
    try discriminate; auto.
  intros H1 H2 Hf Hf' H.
  apply andb_prop in H1; destruct H1 as [Ha H1].
  apply andb_prop in H2; destruct H2 as [Ha' H2].
  inversion Hf as [|? ? Hfa Hfw]; subst. inversion Hf' as [|? ? Hfa' Hfw']; subst.
  f_equal.
  - apply fp_masked_row_agree;
      [apply Nat.eqb_eq, Ha | apply Nat.eqb_eq, Ha' | assumption | assumption |].
    intros j Hj; exact (H 0%nat j Hj).
  - apply IH; auto. intros i j Hij; exact (H (S i) j Hij).
Qed.

(** On arrays of numbers the floating point operations are those on
    reals. *)
Lemma fp_same_shape_of (a b : matrix) :
  Fp.same_shape (Fp.of_matrix a) (Fp.of_matrix b) = Jnp.same_shape a b.
Proof.
  unfold Fp.same_shape, Jnp.same_shape, Fp.of_matrix, Fp.of_vec.
  revert b; induction a as [|r a IH]; intros [|r' b]; simpl; try reflexivity.
  rewrite !length_map, IH. reflexivity.
Qed.

Lemma fp_mul_of_row (u v : vec) :
  map2 Fp.mul (Fp.of_vec u) (Fp.of_vec v) = Fp.of_vec (map2 Rmult u v).
Proof.
  unfold Fp.of_vec.
  revert v; induction u as [|a u IH]; intros [|b v]; simpl; try reflexivity.
  rewrite IH. reflexivity.
Qed.

Lemma fp_mul_of (a b : matrix) :
  map2 (map2 Fp.mul) (Fp.of_matrix a) (Fp.of_matrix b) =
    Fp.of_matrix (map2 (map2 Rmult) a b).
Proof.
  unfold Fp.of_matrix.
  revert b; induction a as [|r a IH]; intros [|r' b]; simpl; try reflexivity.
  rewrite IH, fp_mul_of_row. reflexivity.
Qed.

Lemma fp_vdot_of (u v : vec) :
  Fp.vdot (Fp.of_vec u) (Fp.of_vec v) = Fp.Num (Jnp.vdot u v).
Proof.
  unfold Fp.vdot, Jnp.vdot. rewrite fp_mul_of_row.
  unfold Fp.of_vec.
  induction (map2 Rmult u v) as [|a l IH]; simpl; [reflexivity|].
  rewrite IH. reflexivity.
Qed.

Lemma fp_dot_T_of (x : vec) (w : matrix) :
  Fp.dot_T (Fp.of_vec x) (Fp.of_matrix w) =
    (y <- Jnp.dot_T x w ;; Ok (Fp.of_vec y)).
Proof.
  unfold Fp.dot_T, Jnp.dot_T.
  assert (E : forallb (fun row => length (Fp.of_vec x) =? length row)
                (Fp.of_matrix w) =
              forallb (fun row => length x =? length row) w).
  { unfold Fp.of_matrix, Fp.of_vec. rewrite length_map.
    induction w as [|r w IH]; simpl; [reflexivity|].
    rewrite length_map, IH. reflexivity. }
  rewrite E. destruct (forallb _ w); [|reflexivity].
  cbn [bind]. unfold Fp.of_matrix.
  rewrite map_map. unfold Fp.of_vec at 3. rewrite map_map.
  apply f_equal, map_ext. intros row. apply fp_vdot_of.
Qed.

Lemma fp_add_of (u v : vec) :
  Fp.add_vec (Fp.of_vec u) (Fp.of_vec v) = (y <- Jnp.add u v ;; Ok (Fp.of_vec y)).
Proof.
  unfold Fp.add_vec, Jnp.add, Fp.of_vec. rewrite !length_map.
  destruct (length u =? length v); [|reflexivity].
  cbn [bind]. apply f_equal.
  revert v; induction u as [|a u IH]; intros [|b v]; simpl; try reflexivity.
  rewrite IH. reflexivity.
Qed.

(** The call on arrays of numbers is [MaskedLinear.__call__] on reals. *)
Lemma fp_call_of_real (ml : MaskedLinear.t) (x : vec) :
  FpMaskedLinear.__call__ (FpMaskedLinear.of_real ml) (Fp.of_vec x) =
    (y <- MaskedLinear.__call__ ml x ;; Ok (Fp.of_vec y)).
Proof.
  unfold FpMaskedLinear.__call__, FpMaskedLinear.masked_weight,
    MaskedLinear.__call__, MaskedLinear.masked_weight, FpMaskedLinear.of_real,
    Fp.mul2, Jnp.mul.
  cbn [FpMaskedLinear.weight FpMaskedLinear.linear FpMaskedLinear.mask
       FpMaskedLinear.bias].
  rewrite fp_same_shape_of.
  destruct (Jnp.same_shape _ _); [|reflexivity].
  cbn [bind]. rewrite fp_mul_of, fp_dot_T_of.
  destruct (Jnp.dot_T x _) as [y|e]; [|reflexivity].
  cbn [bind].
  destruct (Linear.bias (MaskedLinear.linear ml)) as [b|]; simpl;
    [apply fp_add_of | reflexivity].
Qed.

(** C2, as amended.  The forward call of a [MaskedLinear] works on the
    raw weight multiplied entry by entry with the mask.  Whatever array of
    numbers of the shape of the mask replaces the raw weight, the weight
    the call uses is zero wherever the mask is zero, and the output does
    not depend on the entries of the raw weight at those positions; the
    input may hold any floating point value. *)
Theorem masked_linear_mask_survives_weight_update :
  forall (ml : FpMaskedLinear.t) (w w' : Fp.matrix) (x : Fp.vec),
    Fp.same_shape w (FpMaskedLinear.mask ml) = true ->
    Fp.same_shape w' (FpMaskedLinear.mask ml) = true ->
    Fp.finite_matrix w -> Fp.finite_matrix w' ->
    (forall i j, Fp.entry (FpMaskedLinear.mask ml) i j <> Fp.Num 0 ->
                 Fp.entry w i j = Fp.entry w' i j) ->
    (exists mw,
        FpMaskedLinear.masked_weight (FpMaskedLinear.with_weight ml w) = Ok mw /\
        FpMaskedLinear.__call__ (FpMaskedLinear.with_weight ml w) x =
          (r <- Fp.dot_T x mw ;;
           match FpMaskedLinear.bias (FpMaskedLinear.linear ml) with
           | Some b => Fp.add_vec r b
           | None => Ok r
           end) /\
        (forall i j, Fp.entry mw i j =
                       Fp.mul (Fp.entry w i j)
                              (Fp.entry (FpMaskedLinear.mask ml) i j)) /\
        (forall i j, Fp.entry (FpMaskedLinear.mask ml) i j = Fp.Num 0 ->
                     Fp.entry mw i j = Fp.Num 0)) /\
    FpMaskedLinear.__call__ (FpMaskedLinear.with_weight ml w) x =
      FpMaskedLinear.__call__ (FpMaskedLinear.with_weight ml w') x.
Proof.
  intros ml w w' x Hw Hw' Hf Hf' Hagree.
  split.
  - exists (map2 (map2 Fp.mul) w (FpMaskedLinear.mask ml)).
    assert (Hmw : FpMaskedLinear.masked_weight (FpMaskedLinear.with_weight ml w) =
                  Ok (map2 (map2 Fp.mul) w (FpMaskedLinear.mask ml))).
    { unfold FpMaskedLinear.masked_weight; simpl; apply fp_mul2_same_shape, Hw. }
    split; [exact Hmw|].
    split; [unfold FpMaskedLinear.__call__; rewrite Hmw; reflexivity|].
    split.
    + intros i j; apply fp_entry_mul, Hw.
    + intros i j Hz; rewrite fp_entry_mul by exact Hw; rewrite Hz.
      apply fp_mul_zero, fp_entry_finite, Hf.
  - unfold FpMaskedLinear.__call__, FpMaskedLinear.masked_weight; simpl.
    rewrite (fp_mul2_same_shape _ _ Hw), (fp_mul2_same_shape _ _ Hw'); simpl.
    rewrite (@fp_masked_weight_agree _ _ _ Hw Hw' Hf Hf' Hagree); reflexivity.
Qed.

(** C2, as stated, fails: a raw weight that is infinite at a position
    where the mask is zero makes the weight the call uses NaN there, and
    the output NaN, where the weight zero at that position gives a
    number. *)
Lemma masked_linear_infinite_weight_reaches_output :
  Fp.same_shape [[Fp.Num 1; Fp.Inf false]]
    (FpMaskedLinear.mask Example.fp_layer) = true /\
  Fp.entry (FpMaskedLinear.mask Example.fp_layer) 0 1 = Fp.Num 0 /\
  FpMaskedLinear.masked_weight
    (FpMaskedLinear.with_weight Example.fp_layer [[Fp.Num 1; Fp.Inf false]]) =
    Ok [[Fp.Num (1 * 1); Fp.NaN]] /\
  FpMaskedLinear.__call__
    (FpMaskedLinear.with_weight Example.fp_layer [[Fp.Num 1; Fp.Inf false]])
    [Fp.Num 1; Fp.Num 1] = Ok [Fp.NaN] /\
  FpMaskedLinear.__call__
    (FpMaskedLinear.with_weight Example.fp_layer [[Fp.Num 1; Fp.Num 0]])
    [Fp.Num 1; Fp.Num 1] = Ok [Fp.Num (1 * (1 * 1) + (1 * (0 * 0) + 0))] /\
  Fp.NaN <> Fp.Num 0 /\
  Fp.NaN <> Fp.Num (1 * (1 * 1) + (1 * (0 * 0) + 0)).
Proof.
  assert (E : Fp.mul (Fp.Inf false) (Fp.Num 0) = Fp.NaN).
  { simpl. destruct (Req_dec_T 0 0) as [_|H]; [reflexivity | contradiction]. }
  split; [reflexivity|]. split; [reflexivity|].
  unfold FpMaskedLinear.__call__, FpMaskedLinear.masked_weight, Fp.mul2.
  cbn [FpMaskedLinear.with_weight FpMaskedLinear.weight FpMaskedLinear.linear
       FpMaskedLinear.mask Example.fp_layer Fp.same_shape forallb2 length
       Nat.eqb andb map2 FpMaskedLinear.bias bind].
  rewrite E.
  split; [reflexivity|]. split; [reflexivity|]. split; [reflexivity|].
  split; discriminate.
Qed.

(** ** PopulationStructure *)

Lemma NoDup_app_disjoint (a b : list nat) :
  NoDup (a ++ b) -> PopulationStructure.disjoint a b.
Proof.
  induction a as [|x a IH]; simpl; intros H i Hi; [destruct Hi|].
  inversion H as [|? ? Hx Hnd]; subst.
  destruct Hi as [<-|Hi].
  - intros Hb; apply Hx, in_or_app; right; exact Hb.
  - apply IH; assumption.
Qed.

Lemma NoDup_app_tail (a b : list nat) : NoDup (a ++ b) -> NoDup b.
Proof.
  induction a as [|x a IH]; simpl; intros H; [exact H|].
  inversion H; subst; auto.
Qed.

Lemma disjoint_weaken_r (a b c : list nat) :
  PopulationStructure.disjoint a (b ++ c) ->
  PopulationStructure.disjoint a b /\ PopulationStructure.disjoint a c.
Proof.
  intros H; split; intros i Hi Hb; apply (H i Hi), in_or_app; auto.
Qed.

(** Four lists that form a duplicate-free enumeration of [0 .. h-1] when
    put one after the other are a partition of the units. *)
Lemma partition_of_enumeration (h : nat) (p : PopulationStructure.t) :
  Permutation (PopulationStructure.populations p) (seq 0 h) ->
  PopulationStructure.is_partition h p.
Proof.
  intros Hp.
  assert (Hnd : NoDup (PopulationStructure.populations p)).
  { apply (Permutation_NoDup (Permutation_sym Hp)), seq_NoDup. }
  unfold PopulationStructure.populations in *.
  split.
  - pose proof (NoDup_app_disjoint _ _ Hnd) as H1.
    pose proof (NoDup_app_tail _ _ Hnd) as Hnd2.
    pose proof (NoDup_app_disjoint _ _ Hnd2) as H2.
    pose proof (NoDup_app_tail _ _ Hnd2) as Hnd3.
    pose proof (NoDup_app_disjoint _ _ Hnd3) as H3.
    apply disjoint_weaken_r in H1; destruct H1 as [H12 H1].
    apply disjoint_weaken_r in H1; destruct H1 as [H13 H14].
    apply disjoint_weaken_r in H2; destruct H2 as [H23 H24].
    repeat split; assumption.
  - intros i; split; intros Hi.
    + apply (Permutation_in _ Hp) in Hi; apply in_seq in Hi; lia.
    + apply (Permutation_in _ (Permutation_sym Hp)), in_seq; lia.
Qed.

Lemma slices_reassemble {A : Type} (l : list A) (a b c : nat) :
  PopulationStructure.slice_to l a ++
  PopulationStructure.slice l a (a + b) ++
  PopulationStructure.slice l (a + b) (a + b + c) ++
  PopulationStructure.slice_from l (a + b + c) = l.
Proof.
  unfold PopulationStructure.slice_to, PopulationStructure.slice,
    PopulationStructure.slice_from.
  replace (a + b - a) with b by lia.
  replace (a + b + c - (a + b)) with c by lia.
  assert (E : forall n m, skipn (n + m) l = skipn m (skipn n l)).
  { intros n m; rewrite skipn_skipn; f_equal; lia. }
  rewrite (E (a + b) c), firstn_skipn, (E a b), firstn_skipn, firstn_skipn.
  reflexivity.
Qed.

Lemma aranges_reassemble (a b c d : nat) :
  PopulationStructure.arange 0 a ++
  PopulationStructure.arange a (a + b) ++
  PopulationStructure.arange (a + b) (a + b + c) ++
  PopulationStructure.arange (a + b + c) (a + b + c + d) = seq 0 (a + b + c + d).
Proof.
  unfold PopulationStructure.arange.
  replace (a - 0) with a by lia.
  replace (a + b - a) with b by lia.
  replace (a + b + c - (a + b)) with c by lia.
  replace (a + b + c + d - (a + b + c)) with d by lia.
  rewrite !seq_app; simpl. rewrite <- !app_assoc. reflexivity.
Qed.

(** [create] on sizes that are not negative: [ValueError] when the four
    sizes do not sum to [hidden_size]; a partition of the units when they
    do and the assignment is the default one or [contiguous_assignment]. *)
Lemma create_partition_of_nat_sizes :
  forall (J : JaxLib), permutation_law J ->
  forall (hidden_size n_input_only n_readout_only n_recurrent_only
          n_input_readout : nat)
         (assignment_fn : option PopulationStructure.assignment_fn_t) (key : Key),
    (n_input_only + n_readout_only + n_recurrent_only + n_input_readout
       <> hidden_size ->
     PopulationStructure.create hidden_size n_input_only n_readout_only
       n_recurrent_only n_input_readout assignment_fn key = Raise ValueError) /\
    (n_input_only + n_readout_only + n_recurrent_only + n_input_readout
       = hidden_size ->
     assignment_fn = None \/
     assignment_fn = Some PopulationStructure.contiguous_assignment ->
     exists p,
       PopulationStructure.create hidden_size n_input_only n_readout_only
         n_recurrent_only n_input_readout assignment_fn key = Ok p /\
       PopulationStructure.is_partition hidden_size p).
Proof.
  intros J law h n1 n2 n3 n4 f key; split.
  - intros Hne; unfold PopulationStructure.create.
    destruct (Nat.eqb_spec (n1 + n2 + n3 + n4) h) as [E|_]; [contradiction|].
    reflexivity.
  - intros Heq Hf; unfold PopulationStructure.create.
    destruct (Nat.eqb_spec (n1 + n2 + n3 + n4) h) as [_|E]; [|contradiction].
    simpl negb; cbv iota.
    destruct Hf as [-> | ->].
    + eexists; split; [reflexivity|].
      apply partition_of_enumeration.
      unfold PopulationStructure.populations; simpl.
      rewrite slices_reassemble; apply law.
    + eexists; split; [reflexivity|].
      apply partition_of_enumeration.
      unfold PopulationStructure.populations; simpl.
      rewrite <- Heq, aranges_reassemble; apply Permutation_refl.
Qed.

Lemma example_permutation_law : permutation_law Example.jax.
Proof.
  intros k n; simpl; apply Permutation_sym, Permutation_rev.
Qed.

(** *** Python ints *)

Lemma firstn_min {A : Type} (l : list A) (n : nat) :
  firstn (Nat.min n (length l)) l = firstn n l.
Proof.
  destruct (Nat.le_gt_cases n (length l)) as [H|H].
  - rewrite Nat.min_l by exact H. reflexivity.
  - rewrite Nat.min_r by lia. rewrite firstn_all, firstn_all2 by lia.
    reflexivity.
Qed.

Lemma clip_index_of_nat (len i : nat) :
  PopulationStructureZ.clip_index (Z.of_nat len) (Z.of_nat i) =
    Z.of_nat (Nat.min i len).
Proof.
  unfold PopulationStructureZ.clip_index.
  destruct (Z.ltb_spec (Z.of_nat i) 0); lia.
Qed.

(** A slice with bounds that are not negative. *)
Lemma getslice_of_nat {A : Type} (a : list A) (lo hi : nat) :
  PopulationStructureZ.getslice a (Some (Z.of_nat lo)) (Some (Z.of_nat hi)) =
    PopulationStructure.slice a lo hi.
Proof.
  unfold PopulationStructureZ.getslice, PopulationStructure.slice.
  rewrite !clip_index_of_nat.
  replace (Z.to_nat (Z.of_nat (Nat.min hi (length a)) -
                     Z.of_nat (Nat.min lo (length a))))
    with (Nat.min hi (length a) - Nat.min lo (length a)) by lia.
  rewrite Nat2Z.id.
  destruct (Nat.le_gt_cases (length a) lo) as [H|H].
  - rewrite (Nat.min_r lo (length a)) by exact H.
    rewrite skipn_all, (skipn_all2 a) by exact H.
    rewrite !firstn_nil. reflexivity.
  - rewrite (Nat.min_l lo) by lia.
    rewrite <- (firstn_min (skipn lo a) (hi - lo)).
    f_equal. rewrite length_skipn. lia.
Qed.

Lemma getslice_to_of_nat {A : Type} (a : list A) (hi : nat) :
  PopulationStructureZ.getslice a None (Some (Z.of_nat hi)) =
    PopulationStructure.slice_to a hi.
Proof.
  unfold PopulationStructureZ.getslice, PopulationStructure.slice_to.
  rewrite <- (firstn_min a hi).
  rewrite clip_index_of_nat. simpl skipn.
  f_equal. lia.
Qed.

Lemma getslice_from_of_nat {A : Type} (a : list A) (lo : nat) :
  PopulationStructureZ.getslice a (Some (Z.of_nat lo)) None =
    PopulationStructure.slice_from a lo.
Proof.
  unfold PopulationStructureZ.getslice, PopulationStructure.slice_from.
  rewrite clip_index_of_nat, Nat2Z.id.
  destruct (Nat.le_gt_cases (length a) lo) as [H|H].
  - rewrite Nat.min_r by exact H.
    rewrite skipn_all, (skipn_all2 a) by exact H. apply firstn_nil.
  - rewrite (Nat.min_l lo) by lia.
    apply firstn_all2. rewrite length_skipn. lia.
Qed.

Lemma getslice_map {A B : Type} (f : A -> B) (a : list A) (lo hi : option Z) :
  PopulationStructureZ.getslice (map f a) lo hi =
    map f (PopulationStructureZ.getslice a lo hi).
Proof.
  unfold PopulationStructureZ.getslice.
  rewrite length_map, skipn_map, firstn_map. reflexivity.
Qed.

Lemma arange_of_nat (lo hi : nat) :
  PopulationStructureZ.arange (Z.of_nat lo) (Z.of_nat hi) =
    map Z.of_nat (PopulationStructure.arange lo hi).
Proof.
  unfold PopulationStructureZ.arange, PopulationStructure.arange.
  replace (Z.to_nat (Z.of_nat hi - Z.of_nat lo)) with (hi - lo) by lia.
  assert (E : forall n k,
             map (fun j => (Z.of_nat lo + Z.of_nat j)%Z) (seq k n) =
             map Z.of_nat (seq (lo + k) n)).
  { induction n as [|n IH]; intros k; simpl; [reflexivity|].
    f_equal; [lia|]. rewrite IH. rewrite Nat.add_succ_r. reflexivity. }
  rewrite E, Nat.add_0_r. reflexivity.
Qed.

(** On sizes that are not negative the two embeddings of [create]
    agree, for the default assignment and for [contiguous_assignment]. *)
Lemma create_default_of_nat {J : JaxLib} (h n1 n2 n3 n4 : nat) (key : Key) :
  PopulationStructureZ.create (Z.of_nat h) (Z.of_nat n1) (Z.of_nat n2)
    (Z.of_nat n3) (Z.of_nat n4) None key =
    (p <- PopulationStructure.create h n1 n2 n3 n4 None key ;;
     Ok (PopulationStructureZ.of_nat p)).
Proof.
  unfold PopulationStructureZ.create, PopulationStructure.create.
  replace (Z.of_nat n1 + Z.of_nat n2 + Z.of_nat n3 + Z.of_nat n4 =? Z.of_nat h)%Z
    with (n1 + n2 + n3 + n4 =? h).
  2:{ destruct (Nat.eqb_spec (n1 + n2 + n3 + n4) h);
      destruct (Z.eqb_spec (Z.of_nat n1 + Z.of_nat n2 + Z.of_nat n3 + Z.of_nat n4)
                  (Z.of_nat h)); try reflexivity; lia. }
  destruct (n1 + n2 + n3 + n4 =? h); [|reflexivity].
  cbn [negb bind]. rewrite Nat2Z.id.
  rewrite <- !Nat2Z.inj_add.
  rewrite !getslice_map, getslice_to_of_nat, !getslice_of_nat, getslice_from_of_nat.
  unfold PopulationStructureZ.of_nat. cbn. rewrite !map_app. reflexivity.
Qed.

Lemma create_contiguous_of_nat {J : JaxLib} (h n1 n2 n3 n4 : nat) (key : Key) :
  PopulationStructureZ.create (Z.of_nat h) (Z.of_nat n1) (Z.of_nat n2)
    (Z.of_nat n3) (Z.of_nat n4)
    (Some PopulationStructureZ.contiguous_assignment) key =
    (p <- PopulationStructure.create h n1 n2 n3 n4
            (Some PopulationStructure.contiguous_assignment) key ;;
     Ok (PopulationStructureZ.of_nat p)).
Proof.
  unfold PopulationStructureZ.create, PopulationStructure.create.
  replace (Z.of_nat n1 + Z.of_nat n2 + Z.of_nat n3 + Z.of_nat n4 =? Z.of_nat h)%Z
    with (n1 + n2 + n3 + n4 =? h).
  2:{ destruct (Nat.eqb_spec (n1 + n2 + n3 + n4) h);
      destruct (Z.eqb_spec (Z.of_nat n1 + Z.of_nat n2 + Z.of_nat n3 + Z.of_nat n4)
                  (Z.of_nat h)); try reflexivity; lia. }
  destruct (n1 + n2 + n3 + n4 =? h); [|reflexivity].
  cbn [negb bind].
  unfold PopulationStructureZ.contiguous_assignment,
    PopulationStructure.contiguous_assignment.
  rewrite <- !Nat2Z.inj_add.
  change 0%Z with (Z.of_nat 0).
  rewrite !arange_of_nat.
  unfold PopulationStructureZ.of_nat. cbn. rewrite !map_app. reflexivity.
Qed.

Lemma disjoint_of_nat (a b : list nat) :
  PopulationStructure.disjoint a b ->
  PopulationStructureZ.disjoint (map Z.of_nat a) (map Z.of_nat b).
Proof.
  intros H i Ha Hb.
  apply in_map_iff in Ha. destruct Ha as [x [<- Ha]].
  apply in_map_iff in Hb. destruct Hb as [y [E Hb]].
  apply Nat2Z.inj in E. subst y. exact (H x Ha Hb).
Qed.

Lemma is_partition_of_nat (h : nat) (p : PopulationStructure.t) :
  PopulationStructure.is_partition h p ->
  PopulationStructureZ.is_partition (Z.of_nat h) (PopulationStructureZ.of_nat p).
Proof.
  intros [(D12 & D13 & D14 & D23 & D24 & D34) Hc]. split.
  - unfold PopulationStructureZ.pairwise_disjoint. simpl.
    repeat split; apply disjoint_of_nat; assumption.
  - intros i. unfold PopulationStructureZ.populations. simpl.
    rewrite <- !map_app.
    change (PopulationStructure.input_only_indices p ++
            PopulationStructure.readout_only_indices p ++
            PopulationStructure.recurrent_only_indices p ++
            PopulationStructure.input_readout_indices p)
      with (PopulationStructure.populations p).
    rewrite in_map_iff. split.
    + intros [x [<- Hx]]. apply Hc in Hx. lia.
    + intros Hi. exists (Z.to_nat i). split; [lia|]. apply Hc. lia.
Qed.

(** C3, as amended.  [create] raises [ValueError] when the four sizes do
    not sum to [hidden_size], whatever the assignment function.  When they
    do, none of them is negative, and the assignment is the default random
    one or [contiguous_assignment], the four index sets are pairwise
    disjoint and their union is [{0 .. hidden_size-1}]. *)
Theorem create_rejects_bad_total_and_partitions :
  forall (J : JaxLib), permutation_law J ->
  forall (hidden_size n_input_only n_readout_only n_recurrent_only
          n_input_readout : Z)
         (assignment_fn : option PopulationStructureZ.assignment_fn_t)
         (key : Key),
    ((n_input_only + n_readout_only + n_recurrent_only + n_input_readout
        <> hidden_size)%Z ->
     PopulationStructureZ.create hidden_size n_input_only n_readout_only
       n_recurrent_only n_input_readout assignment_fn key = Raise ValueError) /\
    ((n_input_only + n_readout_only + n_recurrent_only + n_input_readout
        = hidden_size)%Z ->
     (0 <= n_input_only)%Z -> (0 <= n_readout_only)%Z ->
     (0 <= n_recurrent_only)%Z -> (0 <= n_input_readout)%Z ->
     assignment_fn = None \/
     assignment_fn = Some PopulationStructureZ.contiguous_assignment ->
     exists p,
       PopulationStructureZ.create hidden_size n_input_only n_readout_only
         n_recurrent_only n_input_readout assignment_fn key = Ok p /\
       PopulationStructureZ.is_partition hidden_size p).
Proof.
  intros J law h n1 n2 n3 n4 f key; split.
  - intros Hne; unfold PopulationStructureZ.create.
    destruct (Z.eqb_spec (n1 + n2 + n3 + n4) h) as [E|_]; [contradiction|].
    reflexivity.
  - intros Heq H1 H2 H3 H4 Hf.
    assert (Hh : (0 <= h)%Z) by lia.
    rewrite <- (Z2Nat.id h Hh), <- (Z2Nat.id n1 H1), <- (Z2Nat.id n2 H2),
      <- (Z2Nat.id n3 H3), <- (Z2Nat.id n4 H4).
    assert (Hsum : Z.to_nat n1 + Z.to_nat n2 + Z.to_nat n3 + Z.to_nat n4 =
                   Z.to_nat h) by lia.
    destruct Hf as [-> | ->].
    + destruct (proj2 (create_partition_of_nat_sizes law (Z.to_nat h)
                         (Z.to_nat n1) (Z.to_nat n2) (Z.to_nat n3) (Z.to_nat n4)
                         None key) Hsum (or_introl eq_refl)) as [p [Hp Hpart]].
      exists (PopulationStructureZ.of_nat p).
      rewrite create_default_of_nat, Hp. split; [reflexivity|].
      apply is_partition_of_nat, Hpart.
    + destruct (proj2 (create_partition_of_nat_sizes law (Z.to_nat h)
                         (Z.to_nat n1) (Z.to_nat n2) (Z.to_nat n3) (Z.to_nat n4)
                         (Some PopulationStructure.contiguous_assignment) key)
                  Hsum (or_intror eq_refl)) as [p [Hp Hpart]].
      exists (PopulationStructureZ.of_nat p).
      rewrite create_contiguous_of_nat, Hp. split; [reflexivity|].
      apply is_partition_of_nat, Hpart.
Qed.

Lemma create_rejects_bad_total_and_partitions_witness :
  PopulationStructureZ.create (J := Example.jax) 6 2 2 1 2 None 0 =
    Raise ValueError /\
  exists p,
    PopulationStructureZ.create (J := Example.jax) 6 2 2 1 1 None 0 = Ok p /\
    PopulationStructureZ.is_partition 6 p.
Proof.
  split.
  - apply (create_rejects_bad_total_and_partitions example_permutation_law
             6 2 2 1 2 None 0); lia.
  - apply (create_rejects_bad_total_and_partitions example_permutation_law
             6 2 2 1 1 None 0); try lia. left; reflexivity.
Defined.

(** C3, as stated, fails twice.  A custom assignment function is not
    checked: with sizes that sum to [hidden_size], [create] returns the
    overlapping populations it was handed.  Nor are the sizes: with the
    sizes -1, 1, 1, 1 for two units the default assignment puts the first
    unit of the permutation among the input-only and among the
    recurrent-only units. *)
Lemma create_accepts_overlapping_populations :
  (exists p,
      PopulationStructureZ.create (J := Example.jax) 2 1 1 0 0
        (Some Example.overlapping_assignment_int) 0 = Ok p /\
      ~ PopulationStructureZ.is_partition 2 p) /\
  (exists p,
      PopulationStructureZ.create (J := Example.jax) 2 (-1) 1 1 1 None 0 = Ok p /\
      PopulationStructureZ.input_only_indices p = [1%Z] /\
      PopulationStructureZ.readout_only_indices p = [] /\
      PopulationStructureZ.recurrent_only_indices p = [1%Z] /\
      PopulationStructureZ.input_readout_indices p = [0%Z] /\
      ~ PopulationStructureZ.is_partition 2 p).
Proof.
  split.
  - eexists; split; [reflexivity|].
    intros [[H _] _]; simpl in H.
    apply (H 0%Z); left; reflexivity.
  - eexists; split; [reflexivity|].
    split; [reflexivity|]. split; [reflexivity|].
    split; [reflexivity|]. split; [reflexivity|].
    intros [(_ & H & _) _]; simpl in H.
    apply (H 1%Z); left; reflexivity.
Qed.

(** The scenario of the specification: six units, contiguous blocks. *)
Example contiguous_scenario :
  exists p,
    PopulationStructure.create (J := Example.jax) 6 2 2 1 1
      (Some PopulationStructure.contiguous_assignment) 0 = Ok p /\
    PopulationStructure.input_indices p = [0; 1; 5] /\
    PopulationStructure.readout_indices p = [2; 3; 5].
Proof. eexists; repeat split. Qed.

(** ** SimpleStagedNetwork: stages and initial state *)

Section Network.
Context {J : JaxLib}.

Import SimpleStagedNetwork.
Local Open Scope string_scope.

(** Without [out_size] the constructor returns no network: once the
    encoder and the hidden layer are built, the instance is refused. *)
Lemma init_without_out_size
    (input_size hidden_size : nat) (encoding_size : option nat)
    (hidden_type : hidden_type_t)
    (encoder_type readout_type : layer_type_t) (use_bias : bool)
    (hidden_nonlinearity out_nonlinearity : nonlinearity_t)
    (hidden_noise_std : option R)
    (population_structure : option PopulationStructure.t) (key : Key) :
  exists e,
    __init__ input_size hidden_size None encoding_size hidden_type encoder_type
      readout_type use_bias hidden_nonlinearity out_nonlinearity hidden_noise_std
      population_structure key = Raise e.
Proof.
  unfold __init__. destruct (jr_split3 key) as [[key1 key2] key3].
  match goal with
  | |- exists e, bind ?r _ = _ => destruct r as [[enc h]|e]
  end.
  - exists ValueError. reflexivity.
  - exists e. reflexivity.
Qed.

(** What [__init__] stores when it returns a network built without
    encoder: the network has a readout. *)
Lemma init_without_encoder_fields
    (input_size hidden_size : nat) (out_size : option nat)
    (hidden_type : hidden_type_t)
    (encoder_type readout_type : layer_type_t) (use_bias : bool)
    (hidden_nonlinearity out_nonlinearity : nonlinearity_t)
    (hidden_noise_std : option R)
    (population_structure : option PopulationStructure.t) (key : Key) (net : t) :
  __init__ input_size hidden_size out_size None hidden_type encoder_type readout_type
       use_bias hidden_nonlinearity out_nonlinearity hidden_noise_std
       population_structure key = Ok net ->
  exists o r,
    out_size = Some o /\
    SimpleStagedNetwork.out_size net = Some o /\
    SimpleStagedNetwork.readout net = Some r /\
    SimpleStagedNetwork.out_nonlinearity net = out_nonlinearity /\
    SimpleStagedNetwork.encoding_size net = None /\
    SimpleStagedNetwork.encoder net = None /\
    SimpleStagedNetwork.hidden_noise_std net = hidden_noise_std /\
    SimpleStagedNetwork.hidden_size net = hidden_size /\
    SimpleStagedNetwork.input_size net = input_size.
Proof.
  unfold __init__. destruct (jr_split3 key) as [[key1 key2] key3].
  intros H. apply bind_Ok in H. destruct H as [[e h] [He H]].
  apply bind_Ok in He. destruct He as [h' [_ He]].
  injection He as <- <-.
  destruct out_size as [o|]; [|discriminate].
  apply bind_Ok in H. destruct H as [[[r f] o'] [Hr H]].
  apply bind_Ok in Hr. destruct Hr as [r' [_ Hr]].
  injection Hr as <- <- <-. injection H as <-.
  exists o, r'. simpl. repeat split; reflexivity.
Qed.

(** The last stage, for every network: its label is [out_nonlinearity],
    no earlier stage has this label, it selects [state.output] both as
    its input and as the sub-state it replaces, and it applies
    [out_nonlinearity] to what it selected. *)
Lemma model_spec_last (net : t) :
  exists front stage,
    model_spec net = (front ++ [("out_nonlinearity", stage)])%list /\
    ~ In "out_nonlinearity" (map fst front) /\
    (forall input state, where_input stage input state = NetworkState.output state) /\
    (forall state, where_state stage state = NetworkState.output state) /\
    (forall model x s k,
        callable stage model x s k =
          SimpleStagedNetwork.out_nonlinearity model x).
Proof.
  unfold model_spec.
  destruct (encoder net), (SimpleStagedNetwork.hidden_noise_std net), (readout net);
    cbn [Dict.update Dict.set_item fold_left fst snd String.eqb Ascii.eqb
         Bool.eqb];
    (eexists; eexists; split;
     [ match goal with
       | |- ?a :: ?b :: ?c :: ?d :: ?e :: ?f :: [?x] = _ =>
           change (a :: b :: c :: d :: e :: f :: [x]) with (([a; b; c; d; e; f] ++ [x])%list)
       | |- ?a :: ?b :: ?c :: ?d :: ?e :: [?x] = _ =>
           change (a :: b :: c :: d :: e :: [x]) with (([a; b; c; d; e] ++ [x])%list)
       | |- ?a :: ?b :: ?c :: ?d :: [?x] = _ =>
           change (a :: b :: c :: d :: [x]) with (([a; b; c; d] ++ [x])%list)
       | |- ?a :: ?b :: ?c :: [?x] = _ =>
           change (a :: b :: c :: [x]) with (([a; b; c] ++ [x])%list)
       | |- ?a :: ?b :: [?x] = _ =>
           change (a :: b :: [x]) with (([a; b] ++ [x])%list)
       end; reflexivity
     | split;
       [ simpl; intuition discriminate
       | split; [reflexivity | split; [reflexivity|]];
         intros model x s k; reflexivity ] ]).
Qed.

End Network.

(** C4, the code at a failing input.  Called without [out_size] and
    without [encoding_size], the constructor raises [ValueError] and
    returns no network, whatever the other arguments are: there is no
    state with [output = None] and no sequence of four stages.  Every
    network the constructor does return without encoder has a readout;
    its initial state has [out_size] zeros as [output] and [None] as
    [encoding], and its stages are [input], [hidden],
    [hidden_nonlinearity], [hidden_noise] when [hidden_noise_std] is
    given, [readout] and [out_nonlinearity]. *)
Theorem construction_without_readout_raises :
  SimpleStagedNetwork.__init__ (J := Example.jax) 1 2 None None
    Example.leaky_type Example.linear_type Example.linear_type false
    identity_func identity_func None None 0 = Raise ValueError /\
  (forall (J : JaxLib) (input_size hidden_size : nat)
          (encoding_size : option nat)
          (hidden_type : SimpleStagedNetwork.hidden_type_t)
          (encoder_type readout_type : SimpleStagedNetwork.layer_type_t)
          (use_bias : bool)
          (hidden_nonlinearity out_nonlinearity : nonlinearity_t)
          (hidden_noise_std : option R)
          (population_structure : option PopulationStructure.t) (key : Key)
          (net : SimpleStagedNetwork.t),
      SimpleStagedNetwork.__init__ input_size hidden_size None encoding_size
        hidden_type encoder_type readout_type use_bias hidden_nonlinearity
        out_nonlinearity hidden_noise_std population_structure key <> Ok net) /\
  (forall (J : JaxLib) (input_size hidden_size : nat) (out_size : option nat)
          (hidden_type : SimpleStagedNetwork.hidden_type_t)
          (encoder_type readout_type : SimpleStagedNetwork.layer_type_t)
          (use_bias : bool)
          (hidden_nonlinearity out_nonlinearity : nonlinearity_t)
          (hidden_noise_std : option R)
          (population_structure : option PopulationStructure.t) (key : Key)
          (net : SimpleStagedNetwork.t),
      SimpleStagedNetwork.__init__ input_size hidden_size out_size None
        hidden_type encoder_type readout_type use_bias hidden_nonlinearity
        out_nonlinearity hidden_noise_std population_structure key = Ok net ->
      exists o,
        out_size = Some o /\
        (forall k,
            NetworkState.output (SimpleStagedNetwork.init net k) =
              Some (Jnp.zeros o) /\
            NetworkState.encoding (SimpleStagedNetwork.init net k) = None) /\
        SimpleStagedNetwork.stage_labels net =
          (["input"; "hidden"; "hidden_nonlinearity"] ++
           match hidden_noise_std with
           | Some _ => ["hidden_noise"]
           | None => []
           end ++ ["readout"; "out_nonlinearity"])%list%string).
Proof.
  split; [reflexivity|]. split.
  - intros J input_size hidden_size encoding_size hidden_type encoder_type
      readout_type use_bias hnl onl noise ps key net H.
    destruct (init_without_out_size input_size hidden_size encoding_size
                hidden_type encoder_type readout_type use_bias hnl onl noise
                ps key) as [e He].
    rewrite He in H. discriminate.
  - intros J input_size hidden_size out_size hidden_type encoder_type
      readout_type use_bias hnl onl noise ps key net H.
    apply init_without_encoder_fields in H.
    destruct H as (o & r & -> & Hout & Hr & _ & Henc & Hencoder & Hnoise & _ & _).
    exists o. split; [reflexivity|]. split.
    + intros k. unfold SimpleStagedNetwork.init. rewrite Hout, Henc.
      split; reflexivity.
    + unfold SimpleStagedNetwork.stage_labels, SimpleStagedNetwork.model_spec.
      rewrite Hencoder, Hr, Hnoise.
      destruct noise; reflexivity.
Qed.

(** C7, the code at a failing input.  In every network [out_nonlinearity]
    is the last stage; it reads [state.output], writes [state.output] and
    computes the nonlinearity of [state.output]: no path of [model_spec]
    hands it [state.hidden].  The network without readout that it would
    have to serve is never built: the constructor called without
    [out_size] raises [ValueError]. *)
Theorem out_nonlinearity_is_last_and_reads_output :
  (forall (J : JaxLib) (net : SimpleStagedNetwork.t),
    exists front stage,
      SimpleStagedNetwork.model_spec net =
        (front ++ [("out_nonlinearity"%string, stage)])%list /\
      ~ In "out_nonlinearity"%string (map fst front) /\
      (forall input state,
          SimpleStagedNetwork.where_input stage input state =
            NetworkState.output state /\
          SimpleStagedNetwork.where_state stage state =
            NetworkState.output state) /\
      (forall input state key,
          SimpleStagedNetwork.stage_result stage net input state key =
            SimpleStagedNetwork.out_nonlinearity net (NetworkState.output state))) /\
  SimpleStagedNetwork.__init__ (J := Example.jax) 2 3 None None
    Example.leaky_type Example.linear_type Example.linear_type true
    (unitwise (fun x => x)) (unitwise (fun x => x)) (Some 1%R) None 0 =
    Raise ValueError.
Proof.
  split; [|reflexivity].
  intros J net.
  destruct (model_spec_last net) as (front & stage & Hs & Hf & Hin & Hst & Hcall).
  exists front, stage.
  split; [exact Hs|]. split; [exact Hf|]. split.
  - intros input state; split; [apply Hin | apply Hst].
  - intros input state key.
    unfold SimpleStagedNetwork.stage_result. rewrite Hcall, Hin. reflexivity.
Qed.

(** ** SimpleStagedNetwork: construction *)

Lemma mem_false_iff (i : nat) (idx : list nat) :
  Jnp.mem i idx = false <-> ~ In i idx.
Proof.
  unfold Jnp.mem; split.
  - intros H Hin.
    assert (E : existsb (Nat.eqb i) idx = true).
    { apply existsb_exists; exists i; split; [exact Hin | apply Nat.eqb_refl]. }
    congruence.
  - intros Hn; destruct (existsb (Nat.eqb i) idx) eqn:E; [|reflexivity].
    apply existsb_exists in E; destruct E as [x [Hx Hix]].
    apply Nat.eqb_eq in Hix; subst x; contradiction.
Qed.

Lemma ones_at_rows_length (r c : nat) (idx : list nat) :
  length (Jnp.ones_at_rows r c idx) = r.
Proof. unfold Jnp.ones_at_rows; rewrite length_map, length_seq; reflexivity. Qed.

Lemma ones_at_rows_nth_error (r c : nat) (idx : list nat) (i : nat) :
  i < r ->
  nth_error (Jnp.ones_at_rows r c idx) i =
    Some (repeat (if Jnp.mem i idx then 1%R else 0%R) c).
Proof.
  intros Hi; unfold Jnp.ones_at_rows.
  rewrite nth_error_map, nth_error_nth' with (d := 0) by (rewrite length_seq; exact Hi).
  rewrite seq_nth by exact Hi; reflexivity.
Qed.

(** Row [i + g * h] of a mask of [h] rows tiled three times is row [i]. *)
Lemma tile3_nth_error (m : matrix) (h i g : nat) :
  length m = h -> i < h -> g < 3 ->
  nth_error (Jnp.tile3 m) (i + g * h) = nth_error m i.
Proof.
  intros Hl Hi Hg; unfold Jnp.tile3.
  destruct g as [|[|[|g]]]; try lia.
  - rewrite nth_error_app1 by lia; f_equal; lia.
  - rewrite nth_error_app2 by lia; rewrite nth_error_app1 by lia; f_equal; lia.
  - rewrite nth_error_app2 by lia; rewrite nth_error_app2 by lia; f_equal; lia.
Qed.

Lemma map2_nth_error {A B C : Type} (f : A -> B -> C) (l1 : list A) (l2 : list B)
    (k : nat) (x : A) (y : B) :
  nth_error l1 k = Some x -> nth_error l2 k = Some y ->
  nth_error (map2 f l1 l2) k = Some (f x y).
Proof.
  revert l2 k; induction l1 as [|a l1 IH]; intros [|b l2] [|k]; simpl;
    try discriminate.
  - intros H1 H2; injection H1 as ->; injection H2 as ->; reflexivity.
  - apply IH.
Qed.

Lemma map2_zero_row (r : vec) (n : nat) :
  Forall (fun x => x = 0%R) (map2 Rmult r (repeat 0%R n)).
Proof.
  revert n; induction r as [|a r IH]; intros [|n]; simpl; constructor.
  - ring.
  - apply IH.
Qed.

Lemma nth_error_in_range {A : Type} (l : list A) (k : nat) :
  k < length l -> exists x, nth_error l k = Some x.
Proof.
  intros H; destruct (nth_error l k) eqn:E; [eauto|].
  apply nth_error_None in E; lia.
Qed.

Section Construction.
Context {J : JaxLib}.

Import SimpleStagedNetwork.

(** [__init__] read backwards: where the layers of a constructed network
    come from. *)
Lemma init_inv
    (input_size hidden_size : nat) (out_size encoding_size : option nat)
    (hidden_type : hidden_type_t) (encoder_type readout_type : layer_type_t)
    (use_bias : bool) (hnl onl : nonlinearity_t) (noise : option R)
    (ps : option PopulationStructure.t) (key : Key) (net : t) :
  __init__ input_size hidden_size out_size encoding_size hidden_type encoder_type
       readout_type use_bias hnl onl noise ps key = Ok net ->
  exists key1 key2 key3,
    jr_split3 key = (key1, key2, key3) /\
    make_hidden hidden_type (hidden_in_size input_size encoding_size) hidden_size
                use_bias ps key1 = Ok (hidden net) /\
    match out_size with
    | Some o =>
        exists r, make_readout readout_type hidden_size o use_bias ps key3 = Ok r /\
                  readout net = Some r
    | None => readout net = None
    end.
Proof.
  unfold __init__. destruct (jr_split3 key) as [[key1 key2] key3].
  intros H. exists key1, key2, key3. split; [reflexivity|].
  apply bind_Ok in H. destruct H as [[e h] [He H]].
  assert (Hh : make_hidden hidden_type (hidden_in_size input_size encoding_size)
                 hidden_size use_bias ps key1 = Ok h).
  { destruct encoding_size as [es|]; simpl.
    - apply bind_Ok in He. destruct He as [enc [_ He]].
      apply bind_Ok in He. destruct He as [h' [Hh' He]].
      injection He as _ <-. exact Hh'.
    - apply bind_Ok in He. destruct He as [h' [Hh' He]].
      injection He as _ <-. exact Hh'. }
  apply bind_Ok in H. destruct H as [[[r nl] os] [Hr H]].
  injection H as <-. simpl. split; [exact Hh|].
  destruct out_size as [o|].
  - apply bind_Ok in Hr. destruct Hr as [r' [Hr' Hr]].
    injection Hr as <- _ _. exists r'. split; [exact Hr' | reflexivity].
  - discriminate Hr.
Qed.

(** The hidden layer of a network built with a population structure: its
    input weights are the weights the hidden type drew, multiplied by the
    mask, which is tiled when the weights have [3 * hidden_size] rows. *)
Lemma make_hidden_masked (hidden_type : hidden_type_t) (in_size hidden_size : nat)
    (use_bias : bool) (ps : PopulationStructure.t) (key1 : Key)
    (layer : Layer.t) (w : matrix) :
  make_hidden hidden_type in_size hidden_size use_bias (Some ps) key1 = Ok layer ->
  Layer.get_weight_ih layer = Some w ->
  exists layer0 raw,
    hidden_type in_size hidden_size use_bias key1 = Ok layer0 /\
    Layer.get_weight_ih layer0 = Some raw /\
    Layer.set_weight_ih layer0 w = Ok layer /\
    Jnp.mul raw
      (if length raw =? 3 * hidden_size
       then Jnp.tile3 (Jnp.ones_at_rows hidden_size in_size
                         (PopulationStructure.input_indices ps))
       else Jnp.ones_at_rows hidden_size in_size
              (PopulationStructure.input_indices ps)) = Ok w.
Proof.
  unfold make_hidden, mask_weight_ih. intros H Hw.
  apply bind_Ok in H. destruct H as [layer0 [H0 H]].
  destruct (Layer.get_weight_ih layer0) as [raw|] eqn:Hraw.
  - apply bind_Ok in H. destruct H as [masked [Hm Hset]].
    exists layer0, raw. split; [exact H0|]. split; [exact Hraw|].
    assert (E : masked = w).
    { destruct layer0; simpl in Hset; try discriminate;
        injection Hset as <-; simpl in Hw; injection Hw as <-; reflexivity. }
    subst masked. split; [exact Hset | exact Hm].
  - injection H as <-. congruence.
Qed.

(** C5.  In a network built with a population structure whose hidden
    layer has input weights of [3 * hidden_size] rows, the weights are
    those the hidden type drew under the first sub-key, of
    [3 * hidden_size] rows as well, multiplied by the mask tiled three
    times along the rows, and for every hidden unit [i] outside
    [input_indices] the rows [i], [i + hidden_size] and
    [i + 2 * hidden_size] hold zeros only. *)
Theorem gated_cell_mask_is_tiled :
  forall (input_size hidden_size : nat) (out_size encoding_size : option nat)
         (hidden_type : hidden_type_t) (encoder_type readout_type : layer_type_t)
         (use_bias : bool) (hnl onl : nonlinearity_t) (noise : option R)
         (ps : PopulationStructure.t) (key : Key) (net : t) (w : matrix),
    __init__ input_size hidden_size out_size encoding_size hidden_type encoder_type
         readout_type use_bias hnl onl noise (Some ps) key = Ok net ->
    Layer.get_weight_ih (hidden net) = Some w ->
    length w = 3 * hidden_size ->
    (exists layer0 raw,
        hidden_type (hidden_in_size input_size encoding_size) hidden_size
          use_bias (fst (fst (jr_split3 key))) = Ok layer0 /\
        Layer.get_weight_ih layer0 = Some raw /\
        length raw = 3 * hidden_size /\
        Jnp.mul raw
          (Jnp.tile3
             (Jnp.ones_at_rows hidden_size
                (hidden_in_size input_size encoding_size)
                (PopulationStructure.input_indices ps))) = Ok w) /\
    (forall i g,
        i < hidden_size -> ~ In i (PopulationStructure.input_indices ps) ->
        g < 3 ->
        exists row,
          nth_error w (i + g * hidden_size) = Some row /\
          Forall (fun x => x = 0%R) row).
Proof.
  intros input_size hidden_size out_size encoding_size hidden_type encoder_type
    readout_type use_bias hnl onl noise ps key net w Hinit Hw Hlen.
  apply init_inv in Hinit.
  destruct Hinit as (key1 & key2 & key3 & Hkey & Hh & _).
  destruct (make_hidden_masked _ _ _ _ _ _ Hh Hw)
    as (layer0 & raw & Hdrawn & Hraw0 & _ & Hmul).
  set (n := hidden_in_size input_size encoding_size) in *.
  set (idx := PopulationStructure.input_indices ps) in *.
  assert (Hraw : length raw = 3 * hidden_size).
  { apply mul_Ok in Hmul. destruct Hmul as [Hs ->].
    rewrite map2_length in Hlen by (apply same_shape_length, Hs). exact Hlen. }
  rewrite Hraw, Nat.eqb_refl in Hmul.
  split.
  { exists layer0, raw. rewrite Hkey. simpl.
    split; [exact Hdrawn|]. split; [exact Hraw0|].
    split; [exact Hraw | exact Hmul]. }
  intros i g Hi Hni Hg.
  apply mul_Ok in Hmul. destruct Hmul as [_ ->].
  destruct (@nth_error_in_range _ raw (i + g * hidden_size)) as [r Hr]; [nia|].
  exists (map2 Rmult r (repeat 0%R n)). split; [|apply map2_zero_row].
  apply map2_nth_error; [exact Hr|].
  rewrite tile3_nth_error by (try apply ones_at_rows_length; assumption).
  rewrite ones_at_rows_nth_error by exact Hi.
  apply mem_false_iff in Hni. rewrite Hni. reflexivity.
Qed.

End Construction.

(** ** SimpleStagedNetwork: the readout bias *)

Section Readout.
Context {J : JaxLib}.

Import SimpleStagedNetwork.

(** Without a population structure the bias of the readout is set to
    zero, whatever the layer type drew. *)
Lemma make_readout_plain_zero_bias (readout_type : layer_type_t)
    (hidden_size out_size : nat) (use_bias : bool) (key3 : Key)
    (r0 r : Layer.t) (b : vec) :
  readout_type hidden_size out_size key3 = Ok r0 ->
  Layer.getattr_bias r0 = Some b ->
  make_readout readout_type hidden_size out_size use_bias None key3 = Ok r ->
  Layer.getattr_bias r = Some (Jnp.zeros (length b)).
Proof.
  unfold make_readout. intros -> Hb; simpl. rewrite Hb.
  destruct r0; simpl in *; try discriminate;
    intros H; injection H as <-; reflexivity.
Qed.

(** With a population structure the readout is a [MaskedLinear];
    [getattr(readout, "bias", None)] finds no attribute and the bias that
    [eqx.nn.Linear] drew stays. *)
Lemma make_readout_masked_keeps_bias (readout_type : layer_type_t)
    (hidden_size out_size : nat) (use_bias : bool) (ps : PopulationStructure.t)
    (key3 : Key) (r : Layer.t) :
  make_readout readout_type hidden_size out_size use_bias (Some ps) key3 = Ok r ->
  exists m,
    r = Layer.Masked m /\
    Linear.bias (MaskedLinear.linear m) =
      Linear.bias (eqx_nn_Linear hidden_size out_size use_bias key3).
Proof.
  unfold make_readout. intros H.
  apply bind_Ok in H. destruct H as [r0 [H0 H]].
  apply bind_Ok in H0. destruct H0 as [m [Hm H0]]. injection H0 as <-.
  simpl in H. injection H as <-.
  exists m; split; [reflexivity|].
  unfold MaskedLinear.__init__ in Hm.
  apply bind_Ok in Hm. destruct Hm as [w [_ Hm]]. injection Hm as <-.
  reflexivity.
Qed.

(** The branch [isinstance(readout, MaskedLinear)] under
    [if bias is not None] is never taken. *)
Lemma masked_branch_unreachable (layer : Layer.t) (b : vec) :
  Layer.getattr_bias layer = Some b -> Layer.is_MaskedLinear layer = false.
Proof. destruct layer; simpl; intros H; [reflexivity|discriminate|reflexivity..]. Qed.

End Readout.

(** A replacement of the input weights of the hidden layer is stored as
    it is: the network keeps no mask for them. *)
Lemma with_weight_ih_stores_raw_weight {J : JaxLib}
    (net net' : SimpleStagedNetwork.t) (w : matrix) :
  SimpleStagedNetwork.with_weight_ih net w = Ok net' ->
  Layer.get_weight_ih (SimpleStagedNetwork.hidden net') = Some w.
Proof.
  unfold SimpleStagedNetwork.with_weight_ih. intros H.
  apply bind_Ok in H. destruct H as [h [Hh H]]. injection H as <-. simpl.
  destruct (SimpleStagedNetwork.hidden net); simpl in Hh; try discriminate;
    injection Hh as <-; reflexivity.
Qed.

(** ** Evaluations *)

Section Evaluations.

#[local] Existing Instance Example.jax.
Import SimpleStagedNetwork.
Local Open Scope string_scope.

(** C1, the code at a failing input.  A network with one readout unit
    and two hidden units, unit 0 input-only and unit 1 readout-only; the
    hidden layer is a leaky cell.
    After construction row 1 of [weight_ih] is masked.  Once a training
    update has replaced [weight_ih], the hidden stage calls the cell on
    the new array as it is: row 1 stays [1], and for every input [x] the
    readout-only unit 1 receives [x]. *)
Theorem hidden_stage_uses_unmasked_weight_ih :
  exists net net' stage,
    __init__ 1 2 (Some 1) None Example.leaky_type Example.linear_type
      Example.linear_type false identity_func identity_func None
      (Some Example.two_populations) 0 = Ok net /\
    ~ In 1 (PopulationStructure.input_indices Example.two_populations) /\
    Layer.get_weight_ih (hidden net) = Some [[(1 * 1)%R]; [(1 * 0)%R]] /\
    with_weight_ih net [[1%R]; [1%R]] = Ok net' /\
    Layer.get_weight_ih (hidden net') = Some [[1%R]; [1%R]] /\
    In ("hidden", stage) (model_spec net') /\
    forall (x : R) (key : Key),
      stage_result stage net' [] (Example.state_with_input x) key =
        Ok (Some [x; x]).
Proof.
  eexists; eexists; eexists.
  split; [reflexivity|].
  split; [simpl; intros [E|[]]; discriminate|].
  split; [reflexivity|].
  split; [reflexivity|].
  split; [reflexivity|].
  split; [right; left; reflexivity|].
  intros x key. unfold stage_result. cbn.
  unfold LeakyRNNCell.__call__. cbn.
  unfold LeakyRNNCell.alpha, cached_property, LeakyRNNCell.alpha_def. cbn.
  unfold LeakyRNNCell.float_div.
  destruct (Req_dec_T 1 0) as [E|_]; [lra|].
  cbn. unfold Jnp.vdot. cbn.
  repeat f_equal; lra.
Qed.

(** C6, the code at a failing input.  With a population structure and
    [use_bias = True] the readout is a [MaskedLinear] whose bias is the
    one [eqx.nn.Linear] drew, here one half; the same call without the
    population structure sets the bias to zero. *)
Theorem readout_bias_kept_under_population_structure :
  (exists net m,
      __init__ 1 2 (Some 1) None Example.leaky_type Example.linear_type
        Example.linear_type true identity_func identity_func None
        (Some Example.two_populations) 0 = Ok net /\
      readout net = Some (Layer.Masked m) /\
      Linear.bias (MaskedLinear.linear m) = Some [Example.half] /\
      Example.half <> 0%R) /\
  (exists net r,
      __init__ 1 2 (Some 1) None Example.leaky_type Example.linear_type
        Example.linear_type true identity_func identity_func None None 0 = Ok net /\
      readout net = Some r /\
      Layer.getattr_bias r = Some [0%R]).
Proof.
  split.
  - eexists; eexists.
    split; [reflexivity|]. split; [reflexivity|]. split; [reflexivity|].
    unfold Example.half; lra.
  - eexists; eexists.
    split; [reflexivity|]. split; reflexivity.
Qed.

End Evaluations.

(** ** LeakyRNNCell *)

Lemma float_div_ok (x y : R) :
  y <> 0%R -> LeakyRNNCell.float_div x y = Ok (x / y)%R.
Proof.
  intros Hy; unfold LeakyRNNCell.float_div.
  destruct (Req_dec_T y 0); [contradiction | reflexivity].
Qed.

Lemma forallb_lengths (w : matrix) (n : nat) :
  Forall (fun row => length row = n) w ->
  forallb (fun row => length row =? n) w = true.
Proof.
  induction 1 as [|row w Hrow _ IH]; simpl; [reflexivity|].
  rewrite IH, andb_true_r; apply Nat.eqb_eq, Hrow.
Qed.

Lemma dot_fit (w : matrix) (x : vec) :
  Forall (fun row => length row = length x) w ->
  Jnp.dot w x = Ok (map (fun row => Jnp.vdot row x) w).
Proof. intros H; unfold Jnp.dot; rewrite (forallb_lengths H); reflexivity. Qed.

Lemma add_fit (u v : vec) :
  length u = length v -> Jnp.add u v = Ok (map2 Rplus u v).
Proof. intros H; unfold Jnp.add; rewrite H, Nat.eqb_refl; reflexivity. Qed.

Lemma add_scalar_zero (v : vec) :
  map (fun x => (x + 0)%R) v = map2 Rplus v (Jnp.zeros (length v)).
Proof.
  induction v as [|a v IH]; simpl; [reflexivity|].
  unfold Jnp.zeros in *; simpl; rewrite IH; reflexivity.
Qed.

Lemma zeros_length (n : nat) : length (Jnp.zeros n) = n.
Proof. apply repeat_length. Qed.

Section Leaky.
Context {J : JaxLib}.

Lemma add_operand_zero (v : vec) (n : nat) :
  length v = n ->
  Jnp.add_operand v (Jnp.Scalar 0) = Ok (map2 Rplus v (Jnp.zeros n)).
Proof. intros <-; simpl; rewrite add_scalar_zero; reflexivity. Qed.

(** With noise disabled, a time constant that is not zero and arrays that
    fit, the call returns the update of the specification, the noise being
    zero. *)
Lemma call_without_noise (self : LeakyRNNCell.t) (input state : vec) (key : Key) :
  LeakyRNNCell.use_noise self = false ->
  LeakyRNNCell.tau self <> 0%R ->
  LeakyRNNCell.shapes_fit self input state ->
  LeakyRNNCell.__call__ self input state key =
    Ok (LeakyRNNCell.spec_update self input state
          (LeakyRNNCell.bias_term self (length state))
          (Jnp.zeros (length state))).
Proof.
  intros Hnoise Htau (Lih & Lhh & Fih & Fhh & Hbias & Hnl).
  unfold LeakyRNNCell.__call__, LeakyRNNCell.spec_update, LeakyRNNCell.bias_term.
  rewrite Hnoise; cbn [bind].
  unfold LeakyRNNCell.alpha, LeakyRNNCell.alpha_def, cached_property.
  rewrite (float_div_ok _ Htau); cbn [bind].
  rewrite (dot_fit _ Fih), (dot_fit _ Fhh); cbn [bind].
  set (ih := map (fun row => Jnp.vdot row input) (LeakyRNNCell.weight_ih self)).
  set (hh := map (fun row => Jnp.vdot row state) (LeakyRNNCell.weight_hh self)).
  set (a := (LeakyRNNCell.dt self / LeakyRNNCell.tau self)%R).
  assert (Eih : length ih = length state) by (unfold ih; rewrite length_map; exact Lih).
  assert (Ehh : length hh = length state) by (unfold hh; rewrite length_map; exact Lhh).
  rewrite add_fit by congruence; cbn [bind].
  assert (E1 : length (map2 Rplus ih hh) = length state).
  { rewrite map2_length by congruence; exact Eih. }
  assert (Hfinal : forall pre : vec, length pre = length state ->
            Jnp.add (Jnp.scale (1 - a) state)
              (Jnp.scale a (LeakyRNNCell.nonlinearity self pre)) =
            Ok (map2 Rplus (Jnp.scale (1 - a) state)
                  (Jnp.scale a (LeakyRNNCell.nonlinearity self pre)))).
  { intros pre Hpre; apply add_fit.
    unfold Jnp.scale; rewrite !length_map, Hnl; congruence. }
  destruct (LeakyRNNCell.use_bias self) eqn:Hub.
  - destruct (Hbias eq_refl) as [b [Hb Lb]]; rewrite Hb.
    assert (E2 : length (map2 Rplus (map2 Rplus ih hh) b) = length state).
    { rewrite map2_length by congruence; exact E1. }
    unfold Jnp.add_operand at 1. rewrite add_fit by congruence; cbn [bind].
    rewrite (add_operand_zero _ E2); cbn [bind].
    apply Hfinal.
    rewrite map2_length by (rewrite zeros_length; exact E2). exact E2.
  - rewrite (add_operand_zero _ E1); cbn [bind].
    assert (E2 : length (map2 Rplus (map2 Rplus ih hh) (Jnp.zeros (length state)))
                 = length state).
    { rewrite map2_length by (rewrite zeros_length; exact E1). exact E1. }
    rewrite (add_operand_zero _ E2); cbn [bind].
    apply Hfinal.
    rewrite map2_length by (rewrite zeros_length; exact E2). exact E2.
Qed.

(** A cell with noise enabled reads [self.noise_std] first, and the read
    raises. *)
Lemma noisy_call_raises (self : LeakyRNNCell.t) (input state : vec) (key : Key) :
  LeakyRNNCell.use_noise self = true ->
  LeakyRNNCell.__call__ self input state key = Raise TypeError.
Proof.
  intros H; unfold LeakyRNNCell.__call__; rewrite H; reflexivity.
Qed.

(** C9.  The property [noise_std] wraps a function that asks for a second
    positional argument; read as [self.noise_std] it raises [TypeError].
    A cell with [use_noise = True] reads it on every call, so the call
    raises and no noise is added. *)
Theorem call_with_noise_raises :
  forall (self : LeakyRNNCell.t) (input state : vec) (key : Key),
    LeakyRNNCell.use_noise self = true ->
    LeakyRNNCell.noise_std self = Raise TypeError /\
    LeakyRNNCell.__call__ self input state key = Raise TypeError.
Proof.
  intros self input state key H; split; [reflexivity|].
  apply noisy_call_raises, H.
Qed.

End Leaky.

(** The function under the property, had it been handed
    [self.noise_strength]: the standard deviation of the specification,
    [sqrt(2 / a) * noise_strength]. *)
Lemma noise_std_body_formula (self : LeakyRNNCell.t) (body : LeakyRNNCell.t -> R -> result (option R)) :
  LeakyRNNCell.noise_std_def = Method1 body ->
  LeakyRNNCell.use_noise self = true ->
  (0 < LeakyRNNCell.dt self)%R -> (0 < LeakyRNNCell.tau self)%R ->
  body self (LeakyRNNCell.noise_strength self) =
    Ok (Some (sqrt (2 / (LeakyRNNCell.dt self / LeakyRNNCell.tau self)) *
              LeakyRNNCell.noise_strength self)%R).
Proof.
  intros Hdef Hn Hdt Htau.
  unfold LeakyRNNCell.noise_std_def in Hdef. injection Hdef as <-.
  rewrite Hn.
  unfold LeakyRNNCell.alpha, LeakyRNNCell.alpha_def, cached_property.
  rewrite float_div_ok by lra. simpl bind.
  assert (Ha : (0 < LeakyRNNCell.dt self / LeakyRNNCell.tau self)%R).
  { apply Rdiv_lt_0_compat; assumption. }
  rewrite float_div_ok by lra. simpl bind.
  unfold LeakyRNNCell.math_sqrt.
  destruct (Rlt_dec (2 / (LeakyRNNCell.dt self / LeakyRNNCell.tau self)) 0) as [Hneg|_].
  - exfalso.
    assert (0 < 2 / (LeakyRNNCell.dt self / LeakyRNNCell.tau self))%R
      by (apply Rdiv_lt_0_compat; lra).
    lra.
  - reflexivity.
Qed.

Lemma vdot_zeros (n : nat) (x : vec) : Jnp.vdot (Jnp.zeros n) x = 0%R.
Proof.
  unfold Jnp.vdot, Jnp.zeros.
  revert x; induction n as [|n IH]; intros [|a x]; simpl; try reflexivity.
  rewrite IH; ring.
Qed.

Lemma dot_zeros2 (h n : nat) (x : vec) :
  map (fun row => Jnp.vdot row x) (Jnp.zeros2 h n) = Jnp.zeros h.
Proof.
  unfold Jnp.zeros2.
  induction h as [|h IH]; simpl; [reflexivity|].
  rewrite vdot_zeros; unfold Jnp.zeros in *; simpl; rewrite IH; reflexivity.
Qed.

Lemma unit_alpha_collapse (s hh : vec) :
  length s = length hh ->
  map2 Rplus
    (Jnp.scale (1 - 1 / 1) s)
    (Jnp.scale (1 / 1)
       (map2 Rplus
          (map2 Rplus (map2 Rplus (Jnp.zeros (length hh)) hh)
                      (Jnp.zeros (length hh)))
          (Jnp.zeros (length hh)))) = hh.
Proof.
  unfold Jnp.scale, Jnp.zeros.
  revert s; induction hh as [|y hh IH]; intros [|x s]; simpl; try discriminate;
    try reflexivity.
  intros H; f_equal; [field | apply IH; lia].
Qed.

Section LeakyLiteral.
Context {J : JaxLib}.

(** The literal test of the specification: with [dt = 1], [tau = 1], the
    identity as nonlinearity, no bias, no noise and input weights zero,
    the call returns [jnp.dot(weight_hh, state)]. *)
Lemma call_unit_alpha (self : LeakyRNNCell.t) (input state : vec) (key : Key) :
  LeakyRNNCell.dt self = 1%R ->
  LeakyRNNCell.tau self = 1%R ->
  (forall v, LeakyRNNCell.nonlinearity self v = v) ->
  LeakyRNNCell.use_bias self = false ->
  LeakyRNNCell.use_noise self = false ->
  LeakyRNNCell.weight_ih self = Jnp.zeros2 (length state) (length input) ->
  length (LeakyRNNCell.weight_hh self) = length state ->
  Forall (fun row => length row = length state) (LeakyRNNCell.weight_hh self) ->
  LeakyRNNCell.__call__ self input state key =
    Jnp.dot (LeakyRNNCell.weight_hh self) state /\
  LeakyRNNCell.__call__ self input state key =
    Ok (map (fun row => Jnp.vdot row state) (LeakyRNNCell.weight_hh self)).
Proof.
  intros Hdt Htau Hid Hub Hn Hih Lhh Fhh.
  rewrite (dot_fit _ Fhh).
  assert (E : LeakyRNNCell.__call__ self input state key =
              Ok (map (fun row => Jnp.vdot row state) (LeakyRNNCell.weight_hh self))).
  { rewrite call_without_noise.
    - unfold LeakyRNNCell.spec_update, LeakyRNNCell.bias_term.
      rewrite Hdt, Htau, Hub, Hid, Hih, dot_zeros2.
      set (hh := map (fun row => Jnp.vdot row state) (LeakyRNNCell.weight_hh self)).
      assert (Ehh : length hh = length state)
        by (unfold hh; rewrite length_map; exact Lhh).
      rewrite <- Ehh. rewrite unit_alpha_collapse by congruence. reflexivity.
    - exact Hn.
    - rewrite Htau; lra.
    - repeat split.
      + rewrite Hih; unfold Jnp.zeros2; apply repeat_length.
      + exact Lhh.
      + rewrite Hih; unfold Jnp.zeros2.
        apply Forall_forall; intros row Hrow.
        apply repeat_spec in Hrow; subst row; apply zeros_length.
      + exact Fhh.
      + rewrite Hub; discriminate.
      + intros v; rewrite Hid; reflexivity. }
  split; exact E.
Qed.

End LeakyLiteral.

(** C8, the code at a failing input.  The literal test of the
    specification on two units whose recurrent weights swap them: with
    noise disabled the call returns [jnp.dot(weight_hh, state)], the
    swapped state; with [use_noise = True] the same call raises
    [TypeError] and returns no state. *)
Theorem leaky_update_fails_with_noise :
  forall (x a b noise_strength : R) (key : Key (JaxLib := Example.jax)),
    LeakyRNNCell.__call__ (J := Example.jax) (Example.swap_cell false noise_strength)
      [x] [a; b] key = Ok [b; a] /\
    Jnp.dot (LeakyRNNCell.weight_hh (Example.swap_cell false noise_strength))
      [a; b] = Ok [b; a] /\
    LeakyRNNCell.__call__ (J := Example.jax) (Example.swap_cell true noise_strength)
      [x] [a; b] key = Raise TypeError.
Proof.
  intros x a b ns key.
  assert (Hdot : Jnp.dot (LeakyRNNCell.weight_hh (Example.swap_cell false ns))
                   [a; b] = Ok [b; a]).
  { unfold Jnp.dot, Jnp.vdot; simpl. repeat f_equal; ring. }
  split; [|split].
  - rewrite <- Hdot.
    apply (call_unit_alpha (J := Example.jax) (Example.swap_cell false ns)
             [x] [a; b] key); try reflexivity.
    repeat constructor.
  - exact Hdot.
  - apply (noisy_call_raises (J := Example.jax)); reflexivity.
Qed.

Lemma call_with_noise_raises_witness :
  LeakyRNNCell.use_noise (Example.swap_cell true 1) = true /\
  LeakyRNNCell.noise_std (Example.swap_cell true 1) = Raise TypeError /\
  LeakyRNNCell.__call__ (J := Example.jax) (Example.swap_cell true 1)
    [0%R] [0%R; 0%R] 0 = Raise TypeError.
Proof.
  split; [reflexivity|].
  apply (call_with_noise_raises (J := Example.jax) (Example.swap_cell true 1)
           [0%R] [0%R; 0%R] 0).
  reflexivity.
Defined.

(** ** CompositeLoss *)

Lemma set_item_values_in {V : Type} (d : list (string * V)) (k : string) (v x : V) :
  In x (Dict.values (Dict.set_item d k v)) -> x = v \/ In x (Dict.values d).
Proof.
  unfold Dict.values.
  induction d as [|[k' v'] d IH]; simpl.
  - intros [H|[]]; left; symmetry; exact H.
  - destruct (String.eqb k' k); simpl.
    + intros [H|H]; [left; symmetry; exact H | right; right; exact H].
    + intros [H|H]; [right; left; exact H|].
      destruct (IH H) as [E|E]; [left; exact E | right; right; exact E].
Qed.

Lemma update_values_in {V : Type} (l d : list (string * V)) (x : V) :
  In x (Dict.values (Dict.update d l)) ->
  In x (Dict.values d) \/ In x (map snd l).
Proof.
  unfold Dict.update.
  revert d; induction l as [|[k v] l IH]; simpl; intros d H; [left; exact H|].
  destruct (IH _ H) as [E|E]; [|right; right; exact E].
  apply set_item_values_in in E. destruct E as [->|E]; [right; left; reflexivity|].
  left; exact E.
Qed.

Lemma of_zip_values_in {V : Type} (ks : list string) (vs : list V) (x : V) :
  In x (Dict.values (Dict.of_zip ks vs)) -> In x vs.
Proof.
  unfold Dict.of_zip; intros H.
  apply update_values_in in H. destruct H as [[]|H].
  apply in_map_iff in H. destruct H as [[k v] [<- H]].
  apply in_combine_r in H. exact H.
Qed.

Section CompositeLoss.

Variable get_unique_label : string -> list string -> string.

Lemma fold_flatten_step (cs : list Loss.term_tuple)
    (L : list string) (T : list Loss.t) (W : list R) :
  fold_left (Loss.flatten_step get_unique_label) cs (L, T, W) =
    (fold_left (fun all_labels x =>
                  Loss.append_unique get_unique_label all_labels
                    (Loss.component_labels x)) cs L,
     T ++ flat_map Loss.component_terms cs,
     W ++ flat_map Loss.component_weights cs).
Proof.
  revert L T W; induction cs as [|c cs IH]; intros L T W; simpl.
  - rewrite !app_nil_r; reflexivity.
  - rewrite IH, <- !app_assoc; reflexivity.
Qed.

Lemma labels_and_terms_Ok (terms_a : Loss.terms_arg) (user_labels : bool)
    (labels : list string) (terms_l : list Loss.t) :
  Loss.labels_and_terms terms_a user_labels = Ok (labels, terms_l) ->
  terms_l = Loss.terms_of_arg terms_a /\ length labels = length terms_l.
Proof.
  unfold Loss.labels_and_terms, Loss.terms_of_arg, Dict.keys, Dict.values.
  destruct terms_a as [d|s_]; [destruct user_labels; [destruct d|]|];
    intros H; try discriminate; injection H as <- <-;
    simpl; rewrite ?length_map; split; reflexivity.
Qed.

(** The constructor read backwards. *)
Lemma init_Ok (terms_a : Loss.terms_arg) (weights_a : Loss.weights_arg)
    (label_a : string) (user_labels : bool) (l : Loss.t) :
  Loss.__init__ get_unique_label terms_a weights_a label_a user_labels = Ok l ->
  exists labels terms_l,
    Loss.labels_and_terms terms_a user_labels = Ok (labels, terms_l) /\
    length terms_l = length (Loss.weight_values weights_a terms_l) /\
    let tuples :=
      Loss.term_tuples labels terms_l (Loss.weight_values weights_a terms_l) in
    l = Loss.Composite
          (Dict.of_zip (Loss.flattened_labels get_unique_label tuples)
                       (Loss.flattened_terms tuples))
          (Dict.of_zip (Loss.flattened_labels get_unique_label tuples)
                       (Loss.flattened_weights tuples))
          label_a.
Proof.
  unfold Loss.__init__. intros H.
  apply bind_Ok in H. destruct H as [[labels terms_l] [Hlt H]].
  exists labels, terms_l. split; [exact Hlt|].
  destruct (Nat.eqb_spec (length terms_l)
              (length (Loss.weight_values weights_a terms_l))) as [E|E];
    simpl in H; [|discriminate].
  split; [exact E|].
  rewrite fold_flatten_step in H. injection H as <-. reflexivity.
Qed.

Lemma tuple_term_in (labels : list string) (terms_l : list Loss.t)
    (ws : list R) (x : Loss.term_tuple) :
  In x (Loss.term_tuples labels terms_l ws) -> In (Loss.tuple_term x) terms_l.
Proof.
  unfold Loss.term_tuples, Loss.tuple_term. destruct x as [k [c w]]. simpl.
  intros H. apply in_combine_r in H. apply in_combine_l in H. exact H.
Qed.

(** One call: when the composite terms passed in are flat, so is the
    result. *)
Lemma init_flat (terms_a : Loss.terms_arg) (weights_a : Loss.weights_arg)
    (label_a : string) (user_labels : bool) (l : Loss.t) :
  (forall c, In c (Loss.terms_of_arg terms_a) -> Loss.is_composite c = true ->
             Loss.flat c) ->
  Loss.__init__ get_unique_label terms_a weights_a label_a user_labels = Ok l ->
  Loss.flat l.
Proof.
  intros Hflat H. apply init_Ok in H.
  destruct H as (labels & terms_l & Hlt & _ & ->).
  apply labels_and_terms_Ok in Hlt. destruct Hlt as [-> _].
  unfold Loss.flat. simpl. apply Forall_forall. intros v Hv.
  apply of_zip_values_in in Hv. unfold Loss.flattened_terms in Hv.
  apply in_app_or in Hv. destruct Hv as [Hv|Hv].
  - apply in_map_iff in Hv. destruct Hv as [x [<- Hx]].
    apply filter_In in Hx. destruct Hx as [_ Hx].
    apply negb_true_iff in Hx. exact Hx.
  - apply in_flat_map in Hv. destruct Hv as [x [Hx Hv]].
    apply filter_In in Hx. destruct Hx as [Hin Hc].
    apply tuple_term_in in Hin.
    pose proof (Hflat _ Hin Hc) as Hf.
    unfold Loss.flat in Hf. rewrite Forall_forall in Hf. apply Hf. exact Hv.
Qed.

(** Every loss the constructor produces is a [CompositeLoss] without a
    [CompositeLoss] among its terms. *)
Lemma produced_flat (l : Loss.t) :
  Loss.produced get_unique_label l -> Loss.is_composite l = true /\ Loss.flat l.
Proof.
  induction 1 as [terms_a weights_a label_a user_labels l _ IH Hinit].
  split.
  - apply init_Ok in Hinit. destruct Hinit as (? & ? & _ & _ & ->). reflexivity.
  - apply (@init_flat terms_a weights_a label_a user_labels); [|exact Hinit].
    intros c Hc Hcomp. apply (IH c Hc Hcomp).
Qed.

End CompositeLoss.

Lemma set_item_fresh {V : Type} (d : list (string * V)) (k : string) (v : V) :
  ~ In k (Dict.keys d) -> Dict.set_item d k v = d ++ [(k, v)].
Proof.
  unfold Dict.keys.
  induction d as [|[k' v'] d IH]; simpl; intros H; [reflexivity|].
  destruct (String.eqb_spec k' k) as [E|_]; [contradiction H; left; exact E|].
  rewrite IH; [reflexivity|]. intros Hin; apply H; right; exact Hin.
Qed.

Lemma update_fresh {V : Type} (l d : list (string * V)) :
  NoDup (Dict.keys d ++ map fst l) -> Dict.update d l = d ++ l.
Proof.
  unfold Dict.update, Dict.keys.
  revert d; induction l as [|[k v] l IH]; simpl; intros d H.
  - rewrite app_nil_r; reflexivity.
  - assert (Hk : ~ In k (map fst d)).
    { apply NoDup_remove_2 in H. intros Hin; apply H, in_or_app; left; exact Hin. }
    rewrite (@set_item_fresh _ d k v Hk).
    rewrite IH; [rewrite <- app_assoc; reflexivity|].
    rewrite map_app, <- app_assoc; simpl. exact H.
Qed.

Lemma combine_fst {A B : Type} (ks : list A) (vs : list B) :
  length ks = length vs -> map fst (combine ks vs) = ks.
Proof.
  revert vs; induction ks as [|k ks IH]; intros [|v vs]; simpl; try discriminate;
    [reflexivity|].
  intros H; f_equal; apply IH; lia.
Qed.

Lemma combine_snd {A B : Type} (ks : list A) (vs : list B) :
  length ks = length vs -> map snd (combine ks vs) = vs.
Proof.
  revert vs; induction ks as [|k ks IH]; intros [|v vs]; simpl; try discriminate;
    [reflexivity|].
  intros H; f_equal; apply IH; lia.
Qed.

(** [dict(zip(keys, values))] keeps every value, in order, when the keys
    are distinct and as many as the values. *)
Lemma of_zip_values {V : Type} (ks : list string) (vs : list V) :
  NoDup ks -> length ks = length vs ->
  Dict.values (Dict.of_zip ks vs) = vs /\ Dict.keys (Dict.of_zip ks vs) = ks.
Proof.
  intros Hnd Hlen. unfold Dict.of_zip.
  rewrite update_fresh by (simpl; rewrite combine_fst by exact Hlen; exact Hnd).
  simpl. unfold Dict.values, Dict.keys.
  rewrite combine_snd, combine_fst by exact Hlen. split; reflexivity.
Qed.

Lemma NoDup_snoc {A : Type} (l : list A) (x : A) :
  NoDup l -> ~ In x l -> NoDup (l ++ [x]).
Proof.
  intros Hnd Hx. apply NoDup_rev in Hnd.
  assert (H : NoDup (x :: rev l)).
  { constructor; [rewrite <- in_rev; exact Hx | exact Hnd]. }
  apply NoDup_rev in H. simpl in H. rewrite rev_involutive in H. exact H.
Qed.

Section CompositeLossWeights.

Variable get_unique_label : string -> list string -> string.
Hypothesis law : Loss.unique_label_law get_unique_label.

Lemma uniquify_NoDup (rest done : list string) :
  NoDup done -> NoDup (Loss.uniquify get_unique_label done rest).
Proof.
  revert done; induction rest as [|l rest IH]; simpl; intros done H; [exact H|].
  apply IH, NoDup_snoc; [exact H | apply law].
Qed.

Lemma uniquify_length (rest done : list string) :
  length (Loss.uniquify get_unique_label done rest) = length done + length rest.
Proof.
  revert done; induction rest as [|l rest IH]; simpl; intros done; [lia|].
  rewrite IH, length_app; simpl; lia.
Qed.

Lemma append_unique_NoDup (labels all_labels : list string) :
  NoDup all_labels ->
  NoDup (Loss.append_unique get_unique_label all_labels labels).
Proof.
  revert all_labels; induction labels as [|l labels IH]; simpl; intros all H;
    [exact H|].
  apply IH, NoDup_snoc; [exact H | apply law].
Qed.

Lemma append_unique_length (labels all_labels : list string) :
  length (Loss.append_unique get_unique_label all_labels labels) =
    length all_labels + length labels.
Proof.
  revert all_labels; induction labels as [|l labels IH]; simpl; intros all; [lia|].
  rewrite IH, length_app; simpl; lia.
Qed.

Lemma fold_labels_NoDup (cs : list Loss.term_tuple) (L : list string) :
  NoDup L ->
  NoDup (fold_left (fun all_labels x =>
                      Loss.append_unique get_unique_label all_labels
                        (Loss.component_labels x)) cs L).
Proof.
  revert L; induction cs as [|c cs IH]; simpl; intros L H; [exact H|].
  apply IH, append_unique_NoDup, H.
Qed.

Lemma fold_labels_length (cs : list Loss.term_tuple) (L : list string) :
  length (fold_left (fun all_labels x =>
                       Loss.append_unique get_unique_label all_labels
                         (Loss.component_labels x)) cs L) =
    length L + length (flat_map Loss.component_labels cs).
Proof.
  revert L; induction cs as [|c cs IH]; simpl; intros L; [lia|].
  rewrite IH, append_unique_length, length_app; lia.
Qed.

Lemma component_labels_length (x : Loss.term_tuple) :
  length (Loss.component_labels x) = length (Loss.terms (Loss.tuple_term x)).
Proof.
  unfold Loss.component_labels, Dict.keys.
  destruct (negb (Loss.tuple_label x =? EmptyString)%string);
    [|destruct (negb (Loss.label (Loss.tuple_term x) =? EmptyString)%string)];
    rewrite ?length_map; reflexivity.
Qed.

Lemma flat_map_lengths {A B C : Type} (f : A -> list B) (g : A -> list C)
    (l : list A) :
  (forall x, In x l -> length (f x) = length (g x)) ->
  length (flat_map f l) = length (flat_map g l).
Proof.
  induction l as [|a l IH]; simpl; intros H; [reflexivity|].
  rewrite !length_app, (H a (or_introl eq_refl)), IH; [reflexivity|].
  intros x Hx; apply H; right; exact Hx.
Qed.

(** One call: when the composite terms passed in have as many weights as
    terms, the values of the two dictionaries of the result are the
    flattened terms and the flattened weights. *)
Lemma init_values (terms_a : Loss.terms_arg) (weights_a : Loss.weights_arg)
    (label_a : string) (user_labels : bool) (l : Loss.t) :
  (forall c, In c (Loss.terms_of_arg terms_a) -> Loss.is_composite c = true ->
             length (Loss.terms c) = length (Loss.weights c)) ->
  Loss.__init__ get_unique_label terms_a weights_a label_a user_labels = Ok l ->
  exists labels terms_l,
    Loss.labels_and_terms terms_a user_labels = Ok (labels, terms_l) /\
    Dict.values (Loss.terms l) =
      Loss.flattened_terms
        (Loss.term_tuples labels terms_l (Loss.weight_values weights_a terms_l)) /\
    Dict.values (Loss.weights l) =
      Loss.flattened_weights
        (Loss.term_tuples labels terms_l (Loss.weight_values weights_a terms_l)) /\
    Dict.keys (Loss.terms l) = Dict.keys (Loss.weights l).
Proof.
  intros Hlen H. apply init_Ok in H.
  destruct H as (labels & terms_l & Hlt & _ & ->).
  exists labels, terms_l. split; [exact Hlt|].
  apply labels_and_terms_Ok in Hlt. destruct Hlt as [Ht _].
  set (tuples := Loss.term_tuples labels terms_l
                   (Loss.weight_values weights_a terms_l)) in *.
  assert (Hnd : NoDup (Loss.flattened_labels get_unique_label tuples)).
  { apply fold_labels_NoDup, uniquify_NoDup; constructor. }
  assert (Lt : length (Loss.flattened_labels get_unique_label tuples) =
               length (Loss.flattened_terms tuples)).
  { unfold Loss.flattened_labels, Loss.flattened_terms.
    rewrite fold_labels_length, uniquify_length, length_app, !length_map; simpl.
    f_equal. apply flat_map_lengths. intros x _.
    rewrite component_labels_length. unfold Loss.component_terms, Dict.values.
    rewrite length_map; reflexivity. }
  assert (Lw : length (Loss.flattened_terms tuples) =
               length (Loss.flattened_weights tuples)).
  { unfold Loss.flattened_terms, Loss.flattened_weights.
    rewrite !length_app, !length_map. f_equal.
    apply flat_map_lengths. intros x Hx.
    apply filter_In in Hx. destruct Hx as [Hin Hc].
    apply tuple_term_in in Hin. rewrite Ht in Hin.
    unfold Loss.component_terms, Loss.component_weights, Dict.values.
    rewrite !length_map. apply Hlen; assumption. }
  simpl.
  destruct (@of_zip_values _ _ (Loss.flattened_terms tuples) Hnd Lt) as [E1 K1].
  destruct (@of_zip_values _ _ (Loss.flattened_weights tuples) Hnd
              (eq_trans Lt Lw)) as [E2 K2].
  rewrite E1, E2, K1, K2. repeat split; reflexivity.
Qed.

Lemma keys_length {V W : Type} (d : list (string * V)) (d' : list (string * W)) :
  Dict.keys d = Dict.keys d' -> length d = length d'.
Proof.
  unfold Dict.keys; intros H.
  rewrite <- (length_map fst d), <- (length_map fst d'), H; reflexivity.
Qed.

(** Every loss the constructor produces has the same keys in [terms] and
    in [weights]. *)
Lemma produced_keys (l : Loss.t) :
  Loss.produced get_unique_label l ->
  Dict.keys (Loss.terms l) = Dict.keys (Loss.weights l).
Proof.
  induction 1 as [terms_a weights_a label_a user_labels l _ IH Hinit].
  destruct (@init_values terms_a weights_a label_a user_labels l) as
    (? & ? & _ & _ & _ & K); [|exact Hinit|exact K].
  intros c Hc Hcomp. apply keys_length, (IH c Hc Hcomp).
Qed.

End CompositeLossWeights.

(** C10.  When the composite terms handed to the constructor were
    produced by the constructor, the result has no [CompositeLoss] among
    the values of [terms].  With labels made unique by
    [get_unique_label], those values are the simple terms followed by the
    components of each composite term, and the values of [weights] are
    the weights of the simple terms followed by the weight of each
    component multiplied by the weight of its composite. *)
Theorem composite_loss_is_flat :
  forall (get_unique_label : string -> list string -> string)
         (terms_a : Loss.terms_arg) (weights_a : Loss.weights_arg)
         (label_a : string) (user_labels : bool) (l : Loss.t),
    (forall c, In c (Loss.terms_of_arg terms_a) -> Loss.is_composite c = true ->
               Loss.produced get_unique_label c) ->
    Loss.__init__ get_unique_label terms_a weights_a label_a user_labels = Ok l ->
    Loss.produced get_unique_label l /\
    Loss.is_composite l = true /\
    Loss.flat l /\
    (Loss.unique_label_law get_unique_label ->
     exists labels terms_l,
       Loss.labels_and_terms terms_a user_labels = Ok (labels, terms_l) /\
       Dict.values (Loss.terms l) =
         Loss.flattened_terms
           (Loss.term_tuples labels terms_l
              (Loss.weight_values weights_a terms_l)) /\
       Dict.values (Loss.weights l) =
         Loss.flattened_weights
           (Loss.term_tuples labels terms_l
              (Loss.weight_values weights_a terms_l))).
Proof.
  intros gul terms_a weights_a label_a user_labels l Hprod Hinit.
  assert (Hp : Loss.produced gul l).
  { exact (@Loss.produced_init gul terms_a weights_a label_a user_labels l
             Hprod Hinit). }
  split; [exact Hp|].
  destruct (produced_flat Hp) as [Hc Hf].
  split; [exact Hc|]. split; [exact Hf|].
  intros law.
  destruct (@init_values gul law terms_a weights_a label_a user_labels l) as
    (labels & terms_l & Hlt & E1 & E2 & _); [|exact Hinit|].
  - intros c Hin Hcomp. apply keys_length, (produced_keys law), Hprod; assumption.
  - exists labels, terms_l. repeat split; assumption.
Qed.

(** The operators on losses are calls of the constructor, so what they
    return is flat as well. *)
Corollary operators_flat
    (get_unique_label : string -> list string -> string)
    (self other l : Loss.t) (c : R) :
  (Loss.is_composite self = true -> Loss.produced get_unique_label self) ->
  (Loss.is_composite other = true -> Loss.produced get_unique_label other) ->
  Loss.__add__ get_unique_label self other = Ok l \/
  Loss.__radd__ get_unique_label self other = Ok l \/
  Loss.__sub__ get_unique_label self other = Ok l \/
  Loss.__rsub__ get_unique_label self other = Ok l \/
  Loss.__neg__ get_unique_label self = Ok l \/
  Loss.__mul__ get_unique_label self c = Ok l \/
  Loss.__rmul__ get_unique_label self c = Ok l ->
  Loss.flat l.
Proof.
  intros Hs Ho H.
  assert (H2 : forall x, In x [self; other] -> Loss.is_composite x = true ->
                         Loss.flat x).
  { intros x [<-|[<-|[]]] Hx;
      [exact (proj2 (produced_flat (Hs Hx))) | exact (proj2 (produced_flat (Ho Hx)))]. }
  assert (H1 : forall x, In x [self] -> Loss.is_composite x = true -> Loss.flat x).
  { intros x [<-|[]] Hx; apply H2; [left; reflexivity | exact Hx]. }
  destruct H as [H|[H|[H|[H|[H|[H|H]]]]]];
    (eapply init_flat; [|exact H]; first [exact H2 | exact H1]).
Qed.

(** [self | other] on two produced losses is flat: the merged dictionary
    holds terms of the one or the other. *)
Corollary or_flat
    (get_unique_label : string -> list string -> string) (self other l : Loss.t) :
  Loss.flat self -> Loss.flat other ->
  Loss.__or__ get_unique_label self other = Ok l -> Loss.flat l.
Proof.
  intros Hs Ho H. unfold Loss.__or__ in H.
  apply init_flat in H; [exact H|].
  intros c Hc Hcomp. simpl in Hc. exfalso.
  apply update_values_in in Hc.
  unfold Loss.flat in Hs, Ho. rewrite Forall_forall in Hs, Ho.
  destruct Hc as [Hc|Hc]; [rewrite (Hs c Hc) in Hcomp | rewrite (Ho c Hc) in Hcomp];
    discriminate.
Qed.

(** ** Instances *)

Lemma string_length_append (s1 s2 : string) :
  String.length (s1 ++ s2) = String.length s1 + String.length s2.
Proof. induction s1 as [|c s1 IH]; simpl; [reflexivity | rewrite IH; reflexivity]. Qed.

Lemma unique_label_law_example : Loss.unique_label_law Example.unique_label.
Proof.
  intros l invalid Hin. unfold Example.unique_label in Hin.
  destruct (existsb (String.eqb l) invalid) eqn:E.
  2:{ assert (E' : existsb (String.eqb l) invalid = true).
      { apply existsb_exists; exists l; split; [exact Hin | apply String.eqb_refl]. }
      congruence. }
  assert (Hle : forall x inv, In x inv ->
            String.length x <= String.length (fold_right String.append EmptyString inv)).
  { intros x inv; induction inv as [|y inv IH]; simpl; intros H; [destruct H|].
    rewrite string_length_append. destruct H as [->|H]; [lia|].
    specialize (IH H); lia. }
  specialize (Hle _ _ Hin). unfold Example.longer_label in Hle.
  rewrite !string_length_append in Hle. simpl in Hle. lia.
Qed.

Section Instances.

#[local] Existing Instance Example.jax.

Lemma masked_linear_mask_survives_weight_update_witness :
  Fp.same_shape [[Fp.Num 2; Fp.Num 3]] (FpMaskedLinear.mask Example.fp_layer) = true /\
  Fp.same_shape [[Fp.Num 2; Fp.Num 7]] (FpMaskedLinear.mask Example.fp_layer) = true /\
  FpMaskedLinear.__call__
    (FpMaskedLinear.with_weight Example.fp_layer [[Fp.Num 2; Fp.Num 3]])
    [Fp.Num 1; Fp.Inf false] =
  FpMaskedLinear.__call__
    (FpMaskedLinear.with_weight Example.fp_layer [[Fp.Num 2; Fp.Num 7]])
    [Fp.Num 1; Fp.Inf false].
Proof.
  split; [reflexivity|]. split; [reflexivity|].
  apply (@masked_linear_mask_survives_weight_update Example.fp_layer
           [[Fp.Num 2; Fp.Num 3]] [[Fp.Num 2; Fp.Num 7]]
           [Fp.Num 1; Fp.Inf false]); try reflexivity;
    try (repeat constructor).
  intros [|[|i]] [|[|[|j]]] H; unfold Fp.entry in *; simpl in *;
    try reflexivity; contradiction H; reflexivity.
Defined.

Lemma construction_without_readout_raises_witness :
  exists net,
    SimpleStagedNetwork.__init__ (J := Example.jax) 1 2 (Some 1) None
      Example.leaky_type Example.linear_type Example.linear_type false
      identity_func identity_func (Some 1%R) None 0 = Ok net /\
    NetworkState.output (SimpleStagedNetwork.init net 0) = Some (Jnp.zeros 1) /\
    SimpleStagedNetwork.stage_labels (J := Example.jax) net =
      ["input"; "hidden"; "hidden_nonlinearity"; "hidden_noise"; "readout";
       "out_nonlinearity"]%string.
Proof.
  eexists. split; [reflexivity|].
  destruct (proj2 (proj2 construction_without_readout_raises) Example.jax 1 2
              (Some 1) Example.leaky_type Example.linear_type
              Example.linear_type false identity_func identity_func
              (Some 1%R) None 0 _ eq_refl) as (o & Ho & Hstate & Hlabels).
  injection Ho as <-.
  split; [apply (Hstate 0) | exact Hlabels].
Defined.

Lemma gated_cell_mask_is_tiled_witness :
  exists net w,
    SimpleStagedNetwork.__init__ (J := Example.jax) 1 2 (Some 1) None
      Example.gru_type Example.linear_type Example.linear_type false
      identity_func identity_func None (Some Example.two_populations) 0 = Ok net /\
    Layer.get_weight_ih (SimpleStagedNetwork.hidden net) = Some w /\
    length w = 3 * 2 /\
    forall g, g < 3 ->
      exists row, nth_error w (1 + g * 2) = Some row /\
                  Forall (fun x => x = 0%R) row.
Proof.
  eexists; eexists. split; [reflexivity|]. split; [reflexivity|].
  split; [reflexivity|].
  intros g Hg.
  refine (proj2 (gated_cell_mask_is_tiled (J := Example.jax) 1 2 (Some 1) None
                   Example.gru_type Example.linear_type Example.linear_type false
                   identity_func identity_func None Example.two_populations 0
                   eq_refl eq_refl eq_refl) 1 g _ _ Hg).
  - lia.
  - simpl; intros [E|[]]; discriminate.
Defined.

Lemma composite_loss_is_flat_witness :
  exists l,
    Loss.__add__ Example.unique_label Example.loss_a Example.loss_b =
      Ok Example.loss_ab /\
    Loss.__init__ Example.unique_label
      (Loss.TermsSequence [Example.loss_ab; Loss.Simple "c"])
      (Loss.WeightsSequence [2%R; 1%R]) EmptyString true = Ok l /\
    Loss.flat l /\
    Dict.keys (Loss.terms l) = ["c"; "a"; "b"]%string /\
    Dict.values (Loss.weights l) = [1%R; (2 * 1)%R; (2 * 1)%R].
Proof.
  eexists. split; [reflexivity|]. split; [reflexivity|].
  split; [|split; reflexivity].
  refine (proj1 (proj2 (proj2 (@composite_loss_is_flat Example.unique_label
            (Loss.TermsSequence [Example.loss_ab; Loss.Simple "c"])
            (Loss.WeightsSequence [2%R; 1%R]) EmptyString true _ _ eq_refl)))).
  intros c [<-|[<-|[]]] Hc; [|discriminate].
  apply (@Loss.produced_init Example.unique_label
           (Loss.TermsSequence [Example.loss_a; Example.loss_b])
           (Loss.WeightsSequence [1%R; 1%R]) EmptyString true); [|reflexivity].
  intros x [<-|[<-|[]]] Hx; discriminate.
Defined.

End Instances.

(** * Further properties *)

(** ** Slices of gated weights *)

Lemma firstn_skipn_three {A : Type} (l : list A) (n : nat) :
  firstn n l ++ firstn (2 * n - n) (skipn n l) ++ skipn (2 * n) l = l.
Proof.
  replace (2 * n - n) with n by lia.
  replace (2 * n) with (n + n) by lia.
  rewrite <- (skipn_skipn n n l), firstn_skipn, firstn_skipn. reflexivity.
Qed.

(** X1.  The slices [gru_weight_idxs_func] returns for [reset], [update]
    and [candidate] cut the rows of any weight array into three
    consecutive blocks that put together give the array back.  The first
    two have a third of the rows, rounded down, and [candidate] the
    rest. *)
Theorem gru_slices_reassemble :
  forall (weights : matrix),
    let block l :=
      GruWeights.getitem weights (GruWeights.gru_weight_idxs_func l weights) in
    block GruWeights.reset ++ block GruWeights.update ++
      block GruWeights.candidate = weights /\
    length (block GruWeights.reset) = length weights / 3 /\
    length (block GruWeights.update) = length weights / 3 /\
    length (block GruWeights.candidate) =
      length weights - 2 * (length weights / 3).
Proof.
  intros weights block. subst block.
  unfold GruWeights.getitem, GruWeights.gru_weight_idxs_func,
    PopulationStructure.slice, PopulationStructure.slice_from.
  cbn [GruWeights.start GruWeights.stop].
  pose proof (Nat.Div0.mul_div_le (length weights) 3) as Hn.
  generalize dependent (length weights / 3). intros n Hn.
  rewrite Nat.sub_0_r. change (skipn 0 weights) with weights.
  split; [apply firstn_skipn_three|].
  repeat split.
  - rewrite length_firstn; lia.
  - rewrite length_firstn, length_skipn; lia.
  - rewrite length_skipn; lia.
Qed.

(** ** The rows of the masked input weights *)

Lemma map2_one_row (r : vec) (n : nat) :
  length r = n -> map2 Rmult r (repeat 1%R n) = r.
Proof.
  revert n; induction r as [|a r IH]; intros [|n]; simpl; try discriminate;
    [reflexivity|].
  intros H; f_equal; [ring | apply IH; lia].
Qed.

Lemma same_shape_nth_error (a b : matrix) (k : nat) (r m : vec) :
  Jnp.same_shape a b = true ->
  nth_error a k = Some r -> nth_error b k = Some m -> length r = length m.
Proof.
  revert b k; induction a as [|x a IH]; intros [|y b] [|k]; simpl;
    try discriminate.
  - intros H Hr Hm. injection Hr as <-. injection Hm as <-.
    apply andb_prop in H. destruct H as [H _]. apply Nat.eqb_eq, H.
  - intros H. apply andb_prop in H. destruct H as [_ H]. apply IH, H.
Qed.

Section MaskedRows.
Context {J : JaxLib}.

Import SimpleStagedNetwork.

(** Every row of the input weights of a hidden layer built with a
    population structure: row [k], which belongs to unit [k mod
    hidden_size], is the drawn row multiplied by ones when the unit is in
    [input_indices] and by zeros when it is not. *)
Lemma make_hidden_rows (hidden_type : hidden_type_t) (in_size hidden_size : nat)
    (use_bias : bool) (ps : PopulationStructure.t) (key1 : Key)
    (layer : Layer.t) (w : matrix) :
  make_hidden hidden_type in_size hidden_size use_bias (Some ps) key1 = Ok layer ->
  Layer.get_weight_ih layer = Some w ->
  exists layer0 raw,
    hidden_type in_size hidden_size use_bias key1 = Ok layer0 /\
    Layer.get_weight_ih layer0 = Some raw /\
    length w = length raw /\
    (length w = 3 * hidden_size \/ length w = hidden_size) /\
    forall k, k < length w ->
      exists r,
        nth_error raw k = Some r /\ length r = in_size /\
        nth_error w k =
          Some (map2 Rmult r
                  (repeat (if Jnp.mem (k mod hidden_size)
                                (PopulationStructure.input_indices ps)
                           then 1%R else 0%R) in_size)).
Proof.
  intros Hh Hw.
  destruct (make_hidden_masked _ _ _ _ _ _ Hh Hw)
    as (layer0 & raw & H0 & Hraw & _ & Hmul).
  exists layer0, raw. split; [exact H0|]. split; [exact Hraw|].
  set (idx := PopulationStructure.input_indices ps) in *.
  set (M := Jnp.ones_at_rows hidden_size in_size idx) in *.
  apply mul_Ok in Hmul. destruct Hmul as [Hs ->].
  pose proof (same_shape_length _ _ Hs) as Hlen.
  assert (Hw_len : length (map2 (map2 Rmult) raw
            (if length raw =? 3 * hidden_size then Jnp.tile3 M else M)) = length raw).
  { apply map2_length, Hlen. }
  split; [exact Hw_len|].
  assert (HM : length M = hidden_size) by apply ones_at_rows_length.
  assert (Hcase : length raw = 3 * hidden_size \/ length raw = hidden_size).
  { destruct (Nat.eqb_spec (length raw) (3 * hidden_size)) as [E|E];
      [left; exact E | right; congruence]. }
  split; [destruct Hcase as [E|E]; [left|right]; exact (eq_trans Hw_len E)|].
  intros k Hk0.
  assert (Hk : k < length raw) by exact (eq_ind _ (fun n => k < n) Hk0 _ Hw_len).
  destruct (@nth_error_in_range _ raw k Hk) as [r Hr].
  exists r. split; [exact Hr|].
  assert (Hpos : 0 < hidden_size) by (destruct Hcase; lia).
  assert (Hmask : nth_error
            (if length raw =? 3 * hidden_size then Jnp.tile3 M else M) k =
          Some (repeat (if Jnp.mem (k mod hidden_size) idx then 1%R else 0%R)
                       in_size)).
  { destruct (Nat.eqb_spec (length raw) (3 * hidden_size)) as [E|E].
    - pose proof (Nat.div_mod_eq k hidden_size) as Hdm.
      assert (Hm : k mod hidden_size < hidden_size)
        by (apply Nat.mod_upper_bound; lia).
      assert (Hq : k / hidden_size < 3)
        by (apply Nat.Div0.div_lt_upper_bound; lia).
      replace k with (k mod hidden_size + (k / hidden_size) * hidden_size) at 1
        by lia.
      rewrite tile3_nth_error by assumption.
      unfold M. apply ones_at_rows_nth_error, Hm.
    - assert (Hkh : k < hidden_size) by lia.
      rewrite Nat.mod_small by exact Hkh.
      unfold M. apply ones_at_rows_nth_error, Hkh. }
  split.
  - rewrite (same_shape_nth_error _ _ _ Hs Hr Hmask). apply repeat_length.
  - apply map2_nth_error; assumption.
Qed.

(** X2.  In a network built with a population structure, when the input
    weights of the hidden layer are not of [3 * hidden_size] rows (a plain
    recurrent cell), the row of every unit outside [input_indices] holds
    zeros only. *)
Theorem plain_cell_rows_masked :
  forall (input_size hidden_size : nat) (out_size encoding_size : option nat)
         (hidden_type : hidden_type_t) (encoder_type readout_type : layer_type_t)
         (use_bias : bool) (hnl onl : nonlinearity_t) (noise : option R)
         (ps : PopulationStructure.t) (key : Key) (net : t) (w : matrix),
    __init__ input_size hidden_size out_size encoding_size hidden_type
      encoder_type readout_type use_bias hnl onl noise (Some ps) key = Ok net ->
    Layer.get_weight_ih (hidden net) = Some w ->
    length w <> 3 * hidden_size ->
    forall i, i < hidden_size ->
      ~ In i (PopulationStructure.input_indices ps) ->
      exists row, nth_error w i = Some row /\ Forall (fun x => x = 0%R) row.
Proof.
  intros input_size hidden_size out_size encoding_size hidden_type encoder_type
    readout_type use_bias hnl onl noise ps key net w Hinit Hw Hne.
  apply init_inv in Hinit. destruct Hinit as (key1 & key2 & key3 & _ & Hh & _).
  destruct (make_hidden_rows _ _ _ _ _ _ Hh Hw)
    as (layer0 & raw & _ & _ & _ & Hcase & Hrows).
  destruct Hcase as [E|E]; [contradiction|].
  intros i Hi Hni.
  destruct (Hrows i) as (r & _ & _ & Hrow); [lia|].
  rewrite Nat.mod_small in Hrow by exact Hi.
  apply mem_false_iff in Hni. rewrite Hni in Hrow.
  eexists. split; [exact Hrow | apply map2_zero_row].
Qed.

(** X3.  In a network built with a population structure, the rows of the
    input weights that belong to units in [input_indices] are the rows
    the hidden layer type drew, unchanged; row [k] belongs to unit
    [k mod hidden_size], in a gated cell as in a plain one. *)
Theorem input_unit_rows_unchanged :
  forall (input_size hidden_size : nat) (out_size encoding_size : option nat)
         (hidden_type : hidden_type_t) (encoder_type readout_type : layer_type_t)
         (use_bias : bool) (hnl onl : nonlinearity_t) (noise : option R)
         (ps : PopulationStructure.t) (key : Key) (net : t) (w : matrix),
    __init__ input_size hidden_size out_size encoding_size hidden_type
      encoder_type readout_type use_bias hnl onl noise (Some ps) key = Ok net ->
    Layer.get_weight_ih (hidden net) = Some w ->
    exists layer0 raw,
      hidden_type (hidden_in_size input_size encoding_size) hidden_size use_bias
        (fst (fst (jr_split3 key))) = Ok layer0 /\
      Layer.get_weight_ih layer0 = Some raw /\
      length w = length raw /\
      forall k, k < length w ->
        In (k mod hidden_size) (PopulationStructure.input_indices ps) ->
        nth_error w k = nth_error raw k.
Proof.
  intros input_size hidden_size out_size encoding_size hidden_type encoder_type
    readout_type use_bias hnl onl noise ps key net w Hinit Hw.
  apply init_inv in Hinit.
  destruct Hinit as (key1 & key2 & key3 & Hsplit & Hh & _).
  destruct (make_hidden_rows _ _ _ _ _ _ Hh Hw)
    as (layer0 & raw & H0 & Hraw & Hlen & _ & Hrows).
  exists layer0, raw. rewrite Hsplit. simpl.
  split; [exact H0|]. split; [exact Hraw|]. split; [exact Hlen|].
  intros k Hk Hin.
  destruct (Hrows k Hk) as (r & Hr & Hlr & Hrow).
  assert (Hmem : Jnp.mem (k mod hidden_size)
                   (PopulationStructure.input_indices ps) = true).
  { destruct (Jnp.mem (k mod hidden_size)
                (PopulationStructure.input_indices ps)) eqn:E; [reflexivity|].
    apply mem_false_iff in E. contradiction. }
  rewrite Hmem in Hrow. rewrite map2_one_row in Hrow by exact Hlr.
  congruence.
Qed.

(** X4.  Without a population structure, or when the layer the hidden
    type builds has no attribute [weight_ih] (a linear layer), the hidden
    layer of the network is the layer the hidden type returned: nothing
    is masked. *)
Theorem hidden_layer_left_as_built :
  forall (input_size hidden_size : nat) (out_size encoding_size : option nat)
         (hidden_type : hidden_type_t) (encoder_type readout_type : layer_type_t)
         (use_bias : bool) (hnl onl : nonlinearity_t) (noise : option R)
         (ps : option PopulationStructure.t) (key : Key) (net : t)
         (layer0 : Layer.t),
    __init__ input_size hidden_size out_size encoding_size hidden_type
      encoder_type readout_type use_bias hnl onl noise ps key = Ok net ->
    hidden_type (hidden_in_size input_size encoding_size) hidden_size use_bias
      (fst (fst (jr_split3 key))) = Ok layer0 ->
    ps = None \/ Layer.get_weight_ih layer0 = None ->
    hidden net = layer0.
Proof.
  intros input_size hidden_size out_size encoding_size hidden_type encoder_type
    readout_type use_bias hnl onl noise ps key net layer0 Hinit H0 Hcase.
  apply init_inv in Hinit.
  destruct Hinit as (key1 & key2 & key3 & Hsplit & Hh & _).
  rewrite Hsplit in H0. simpl in H0.
  unfold make_hidden in Hh.
  destruct ps as [p|].
  - destruct Hcase as [E|E]; [discriminate|].
    rewrite H0 in Hh. simpl in Hh. unfold mask_weight_ih in Hh.
    rewrite E in Hh. congruence.
  - congruence.
Qed.

End MaskedRows.

Section GatedBlocks.
Context {J : JaxLib}.

Import SimpleStagedNetwork.

(** X5.  In a network built with a population structure whose hidden
    layer has input weights of [3 * hidden_size] rows, each of the three
    blocks that [gru_weight_idxs_func] selects ([reset], [update],
    [candidate]) has [hidden_size] rows, one per unit, and in each block
    the row of a unit outside [input_indices] holds zeros only. *)
Theorem gated_blocks_masked :
  forall (input_size hidden_size : nat) (out_size encoding_size : option nat)
         (hidden_type : hidden_type_t) (encoder_type readout_type : layer_type_t)
         (use_bias : bool) (hnl onl : nonlinearity_t) (noise : option R)
         (ps : PopulationStructure.t) (key : Key) (net : t) (w : matrix)
         (l : GruWeights.label),
    __init__ input_size hidden_size out_size encoding_size hidden_type
      encoder_type readout_type use_bias hnl onl noise (Some ps) key = Ok net ->
    Layer.get_weight_ih (hidden net) = Some w ->
    length w = 3 * hidden_size ->
    length (GruWeights.getitem w (GruWeights.gru_weight_idxs_func l w)) =
      hidden_size /\
    forall i, i < hidden_size ->
      ~ In i (PopulationStructure.input_indices ps) ->
      exists row,
        nth_error (GruWeights.getitem w (GruWeights.gru_weight_idxs_func l w)) i =
          Some row /\
        Forall (fun x => x = 0%R) row.
Proof.
  intros input_size hidden_size out_size encoding_size hidden_type encoder_type
    readout_type use_bias hnl onl noise ps key net w l Hinit Hw Hlen.
  apply init_inv in Hinit. destruct Hinit as (key1 & key2 & key3 & _ & Hh & _).
  destruct (make_hidden_rows _ _ _ _ _ _ Hh Hw)
    as (layer0 & raw & _ & _ & _ & _ & Hrows).
  assert (Hdiv : length w / 3 = hidden_size).
  { rewrite Hlen, Nat.mul_comm. apply Nat.div_mul. discriminate. }
  assert (Hzero : forall i g, i < hidden_size -> g < 3 ->
            ~ In i (PopulationStructure.input_indices ps) ->
            exists row, nth_error w (g * hidden_size + i) = Some row /\
                        Forall (fun x => x = 0%R) row).
  { intros i g Hi Hg Hni.
    destruct (Hrows (g * hidden_size + i)) as (r & _ & _ & Hrow); [nia|].
    replace ((g * hidden_size + i) mod hidden_size) with i in Hrow.
    2:{ rewrite Nat.add_comm, Nat.Div0.mod_add, Nat.mod_small; lia. }
    apply mem_false_iff in Hni. rewrite Hni in Hrow.
    eexists. split; [exact Hrow | apply map2_zero_row]. }
  unfold GruWeights.getitem, GruWeights.gru_weight_idxs_func,
    PopulationStructure.slice, PopulationStructure.slice_from.
  rewrite Hdiv.
  destruct l; cbn [GruWeights.start GruWeights.stop].
  - split; [rewrite length_skipn; lia|].
    intros i Hi Hni. rewrite nth_error_skipn.
    destruct (Hzero i 2 Hi ltac:(lia) Hni) as (row & Hrow & Hz).
    exists row. split; [|exact Hz]. rewrite <- Hrow. f_equal; lia.
  - split; [rewrite length_firstn, length_skipn; lia|].
    intros i Hi Hni. rewrite nth_error_firstn, nth_error_skipn.
    replace (i <? 2 * hidden_size - hidden_size) with true
      by (symmetry; apply Nat.ltb_lt; lia).
    destruct (Hzero i 1 Hi ltac:(lia) Hni) as (row & Hrow & Hz).
    exists row. split; [|exact Hz]. rewrite <- Hrow. f_equal; lia.
  - split; [rewrite length_firstn, length_skipn; lia|].
    intros i Hi Hni. rewrite nth_error_firstn, nth_error_skipn.
    replace (i <? hidden_size - 0) with true
      by (symmetry; apply Nat.ltb_lt; lia).
    destruct (Hzero i 0 Hi ltac:(lia) Hni) as (row & Hrow & Hz).
    exists row. split; [|exact Hz]. rewrite <- Hrow. f_equal; lia.
Qed.

End GatedBlocks.

(** ** MaskedLinear *)

Lemma masked_twice_row (r m : vec) :
  Forall (fun x => x = 0%R \/ x = 1%R) m ->
  map2 Rmult (map2 Rmult r m) m = map2 Rmult r m.
Proof.
  intros Hm; revert r; induction Hm as [|x m Hx _ IH]; intros [|a r]; simpl;
    try reflexivity.
  f_equal; [destruct Hx as [->| ->]; ring | apply IH].
Qed.

Lemma masked_twice (w m : matrix) :
  Forall (Forall (fun x => x = 0%R \/ x = 1%R)) m ->
  map2 (map2 Rmult) (map2 (map2 Rmult) w m) m = map2 (map2 Rmult) w m.
Proof.
  intros Hm; revert w; induction Hm as [|x m Hx _ IH]; intros [|a w]; simpl;
    try reflexivity.
  f_equal; [apply masked_twice_row, Hx | apply IH].
Qed.

Lemma same_shape_mul_l (w m : matrix) :
  Jnp.same_shape w m = true ->
  Jnp.same_shape (map2 (map2 Rmult) w m) m = true.
Proof.
  unfold Jnp.same_shape.
  revert m; induction w as [|a w IH]; intros [|x m]; simpl; try discriminate;
    [reflexivity|].
  intros H. apply andb_prop in H. destruct H as [Ha H].
  apply Nat.eqb_eq in Ha.
  apply andb_true_intro; split; [|apply IH, H].
  apply Nat.eqb_eq. rewrite map2_length; assumption.
Qed.

Section MaskedLinearInit.
Context {J : JaxLib}.

(** X6.  A [MaskedLinear] that [__init__] returns keeps the mask it was
    given and the bias [eqx.nn.Linear] drew, and its stored weight is zero
    wherever the mask is zero.  When the mask holds zeros and ones only,
    the weight the first forward call works on is the stored weight
    itself: masking again changes nothing. *)
Theorem masked_linear_init_masks_weight :
  forall (in_features out_features : nat) (mask : matrix) (use_bias : bool)
         (key : Key) (ml : MaskedLinear.t),
    MaskedLinear.__init__ in_features out_features mask use_bias key = Ok ml ->
    MaskedLinear.mask ml = mask /\
    Linear.bias (MaskedLinear.linear ml) =
      Linear.bias (eqx_nn_Linear in_features out_features use_bias key) /\
    (forall i j, Jnp.entry mask i j = 0%R ->
                 Jnp.entry (Linear.weight (MaskedLinear.linear ml)) i j = 0%R) /\
    (Forall (Forall (fun x => x = 0%R \/ x = 1%R)) mask ->
     MaskedLinear.masked_weight ml = Ok (Linear.weight (MaskedLinear.linear ml))).
Proof.
  intros i o mask ub key ml H. unfold MaskedLinear.__init__ in H.
  apply bind_Ok in H. destruct H as [w [Hw H]]. injection H as <-. simpl.
  apply mul_Ok in Hw. destruct Hw as [Hs ->].
  split; [reflexivity|]. split; [reflexivity|]. split.
  - intros r c Hz. rewrite entry_mul by exact Hs. rewrite Hz. ring.
  - intros Hbin. unfold MaskedLinear.masked_weight. simpl.
    rewrite mul_same_shape by (apply same_shape_mul_l, Hs).
    rewrite masked_twice by exact Hbin. reflexivity.
Qed.

End MaskedLinearInit.

Lemma fp_vdot_masked_agree (w m x x' : Fp.vec) :
  length x = length x' ->
  Fp.finite_vec w -> Fp.finite_vec x -> Fp.finite_vec x' ->
  (forall j, nth j m (Fp.Num 0) <> Fp.Num 0 ->
             nth j x (Fp.Num 0) = nth j x' (Fp.Num 0)) ->
  Fp.vdot x (map2 Fp.mul w m) = Fp.vdot x' (map2 Fp.mul w m).
Proof.
  unfold Fp.vdot.
  revert m x x'; induction w as [|a w IH]; intros [|b m] [|c x] [|c' x']; simpl;
    try discriminate; try reflexivity.
  intros Hl Hw Hx Hx' H.
  inversion Hw as [|? ? Ha Hw0]; subst.
  inversion Hx as [|? ? Hc Hx0]; subst.
  inversion Hx' as [|? ? Hc' Hx0']; subst.
  f_equal.
  - destruct (fp_zero_dec b) as [->|Hb].
    + rewrite (fp_mul_zero a Ha), (fp_mul_zero c Hc), (fp_mul_zero c' Hc').
      reflexivity.
    + specialize (H 0%nat Hb). simpl in H. rewrite H. reflexivity.
  - apply IH; try assumption; [lia|]. intros j Hj. exact (H (S j) Hj).
Qed.

Lemma fp_dot_T_masked_agree (w m : Fp.matrix) (x x' : Fp.vec) :
  length x = length x' ->
  Fp.finite_matrix w -> Fp.finite_vec x -> Fp.finite_vec x' ->
  (forall i j, Fp.entry m i j <> Fp.Num 0 ->
               nth j x (Fp.Num 0) = nth j x' (Fp.Num 0)) ->
  Fp.dot_T x (map2 (map2 Fp.mul) w m) = Fp.dot_T x' (map2 (map2 Fp.mul) w m).
Proof.
  intros Hl Hw Hx Hx' H. unfold Fp.dot_T. rewrite Hl.
  destruct (forallb _ _); [|reflexivity]. apply f_equal.
  revert m H; induction Hw as [|a w Ha _ IH]; intros [|b m] H; simpl;
    try reflexivity.
  f_equal.
  - apply fp_vdot_masked_agree; try assumption.
    intros j Hj. exact (H 0%nat j Hj).
  - apply IH. intros i j Hij. exact (H (S i) j Hij).
Qed.

(** X7.  On arrays of numbers, the output of a [MaskedLinear] whose mask
    has the shape of its weight does not depend on the entries of its
    input whose column of the mask is zero in every row: two inputs of
    one length that agree wherever some row of the mask is not zero give
    the same result, whatever numbers the raw weight holds. *)
Theorem masked_linear_ignores_masked_inputs :
  forall (ml : FpMaskedLinear.t) (x x' : Fp.vec),
    Fp.same_shape (FpMaskedLinear.weight (FpMaskedLinear.linear ml))
      (FpMaskedLinear.mask ml) = true ->
    Fp.finite_matrix (FpMaskedLinear.weight (FpMaskedLinear.linear ml)) ->
    Fp.finite_vec x -> Fp.finite_vec x' ->
    length x = length x' ->
    (forall i j, Fp.entry (FpMaskedLinear.mask ml) i j <> Fp.Num 0 ->
                 nth j x (Fp.Num 0) = nth j x' (Fp.Num 0)) ->
    FpMaskedLinear.__call__ ml x = FpMaskedLinear.__call__ ml x'.
Proof.
  intros ml x x' Hs Hw Hx Hx' Hl H.
  unfold FpMaskedLinear.__call__, FpMaskedLinear.masked_weight.
  unfold Fp.mul2. rewrite Hs.
  cbn [bind]. rewrite (@fp_dot_T_masked_agree _ _ _ _ Hl Hw Hx Hx' H).
  reflexivity.
Qed.

Lemma masked_linear_ignores_masked_inputs_witness :
  length [Fp.Num 1; Fp.Num 5] = length [Fp.Num 1; Fp.Num 7] /\
  FpMaskedLinear.__call__ Example.fp_layer [Fp.Num 1; Fp.Num 5] =
    FpMaskedLinear.__call__ Example.fp_layer [Fp.Num 1; Fp.Num 7].
Proof.
  split; [reflexivity|].
  apply (@masked_linear_ignores_masked_inputs Example.fp_layer
           [Fp.Num 1; Fp.Num 5] [Fp.Num 1; Fp.Num 7]); try reflexivity;
    try (repeat constructor).
  intros [|[|i]] [|[|[|j]]] H; unfold Fp.entry in *; simpl in *;
    try reflexivity; contradiction H; reflexivity.
Defined.

Lemma fp_entry_of (m : matrix) (i j : nat) :
  Fp.entry (Fp.of_matrix m) i j = Fp.Num (Jnp.entry m i j).
Proof.
  unfold Fp.entry, Jnp.entry, Fp.of_matrix.
  change (@nil Fp.t) with (Fp.of_vec []).
  rewrite map_nth. unfold Fp.of_vec. apply map_nth.
Qed.

(** ** SimpleStagedNetwork: encoder, readout and fields *)

Lemma map2_ones2 (w : matrix) (r c : nat) :
  Jnp.same_shape w (Jnp.ones2 r c) = true ->
  map2 (map2 Rmult) w (Jnp.ones2 r c) = w.
Proof.
  unfold Jnp.same_shape, Jnp.ones2.
  revert r; induction w as [|a w IH]; intros [|r]; simpl; try discriminate;
    [reflexivity|].
  intros H. apply andb_prop in H. destruct H as [Ha H].
  apply Nat.eqb_eq in Ha. rewrite repeat_length in Ha.
  f_equal; [apply map2_one_row, Ha | apply IH, H].
Qed.

Lemma ones_at_cols_entry (r c : nat) (idx : list nat) (i j : nat) :
  Jnp.entry (Jnp.ones_at_cols r c idx) i j <> 0%R -> In j idx /\ j < c /\ i < r.
Proof.
  unfold Jnp.entry, Jnp.ones_at_cols. intros H.
  destruct (Nat.lt_ge_cases i r) as [Hi|Hi].
  2:{ rewrite (nth_overflow (repeat _ r)) in H by (rewrite repeat_length; exact Hi).
      destruct j; contradiction H; reflexivity. }
  rewrite nth_repeat_lt in H by exact Hi.
  destruct (Nat.lt_ge_cases j c) as [Hj|Hj].
  2:{ rewrite nth_overflow in H by (rewrite length_map, length_seq; exact Hj).
      contradiction H; reflexivity. }
  split; [|split; assumption].
  rewrite (nth_error_nth _ _ 0%R
             (x := if Jnp.mem j idx then 1%R else 0%R)) in H.
  2:{ rewrite nth_error_map, nth_error_seq.
      replace (j <? c) with true by (symmetry; apply Nat.ltb_lt; exact Hj).
      reflexivity. }
  destruct (Jnp.mem j idx) eqn:E; [|contradiction H; reflexivity].
  unfold Jnp.mem in E. apply existsb_exists in E. destruct E as [x [Hx E]].
  apply Nat.eqb_eq in E. subst x. exact Hx.
Qed.

Section Fields.
Context {J : JaxLib}.

Import SimpleStagedNetwork.

(** What [__init__] stores in the fields that are not layers. *)
Lemma init_fields
    (input_size hidden_size : nat) (out_size encoding_size : option nat)
    (hidden_type : hidden_type_t) (encoder_type readout_type : layer_type_t)
    (use_bias : bool) (hnl onl : nonlinearity_t) (noise : option R)
    (ps : option PopulationStructure.t) (key : Key) (net : t) :
  __init__ input_size hidden_size out_size encoding_size hidden_type encoder_type
           readout_type use_bias hnl onl noise ps key = Ok net ->
  SimpleStagedNetwork.input_size net = input_size /\
  SimpleStagedNetwork.hidden_size net = hidden_size /\
  SimpleStagedNetwork.hidden_noise_std net = noise /\
  SimpleStagedNetwork.out_size net =
    Some (match out_size with Some o => o | None => hidden_size end) /\
  SimpleStagedNetwork.encoding_size net = encoding_size /\
  SimpleStagedNetwork.population_structure net = ps /\
  (SimpleStagedNetwork.encoder net = None <-> encoding_size = None) /\
  (SimpleStagedNetwork.readout net = None <-> out_size = None).
Proof.
  unfold __init__. destruct (jr_split3 key) as [[key1 key2] key3].
  intros H. apply bind_Ok in H. destruct H as [[e h] [He H]].
  apply bind_Ok in H. destruct H as [[[r nl] os] [Hr H]].
  injection H as <-. simpl.
  assert (Hos : os = Some (match out_size with Some o => o | None => hidden_size end)
                /\ (r = None <-> out_size = None)).
  { destruct out_size as [o|].
    - apply bind_Ok in Hr. destruct Hr as [r' [_ Hr]]. injection Hr as <- _ <-.
      split; [reflexivity|]. split; discriminate.
    - discriminate Hr. }
  assert (Hen : e = None <-> encoding_size = None).
  { destruct encoding_size as [es|].
    - apply bind_Ok in He. destruct He as [enc [_ He]].
      apply bind_Ok in He. destruct He as [h' [_ He]]. injection He as <- _.
      split; discriminate.
    - apply bind_Ok in He. destruct He as [h' [_ He]]. injection He as <- _.
      split; reflexivity. }
  destruct Hos as [-> Hr']. repeat split; try reflexivity; tauto.
Qed.

(** The encoder of a constructed network. *)
Lemma init_encoder_inv
    (input_size hidden_size : nat) (out_size : option nat) (encoding_size : nat)
    (hidden_type : hidden_type_t) (encoder_type readout_type : layer_type_t)
    (use_bias : bool) (hnl onl : nonlinearity_t) (noise : option R)
    (ps : option PopulationStructure.t) (key : Key) (net : t) :
  __init__ input_size hidden_size out_size (Some encoding_size) hidden_type
           encoder_type readout_type use_bias hnl onl noise ps key = Ok net ->
  exists layer,
    encoder net = Some layer /\
    match ps with
    | Some _ =>
        exists m,
          MaskedLinear.__init__ input_size encoding_size
            (Jnp.ones2 encoding_size input_size) use_bias
            (snd (fst (jr_split3 key))) = Ok m /\
          layer = Layer.Masked m
    | None =>
        encoder_type input_size encoding_size (snd (fst (jr_split3 key))) = Ok layer
    end.
Proof.
  unfold __init__. destruct (jr_split3 key) as [[key1 key2] key3].
  intros H. apply bind_Ok in H. destruct H as [[e h] [He H]].
  apply bind_Ok in H. destruct H as [[[r nl] os] [_ H]].
  injection H as <-. simpl.
  apply bind_Ok in He. destruct He as [enc [Henc He]].
  apply bind_Ok in He. destruct He as [h' [_ He]]. injection He as <- _.
  exists enc. split; [reflexivity|].
  destruct ps as [p|]; [|exact Henc].
  apply bind_Ok in Henc. destruct Henc as [m [Hm Henc]]. injection Henc as <-.
  exists m. split; [exact Hm | reflexivity].
Qed.

(** X8.  In a network built with a population structure and an encoder,
    the encoder is a [MaskedLinear] whose mask holds ones only, and its
    linear layer is the one [eqx.nn.Linear] drew, weights and bias
    unchanged: every encoder unit receives every input. *)
Theorem encoder_mask_is_all_ones :
  forall (input_size hidden_size : nat) (out_size : option nat)
         (encoding_size : nat) (hidden_type : hidden_type_t)
         (encoder_type readout_type : layer_type_t) (use_bias : bool)
         (hnl onl : nonlinearity_t) (noise : option R)
         (ps : PopulationStructure.t) (key : Key) (net : t),
    __init__ input_size hidden_size out_size (Some encoding_size) hidden_type
      encoder_type readout_type use_bias hnl onl noise (Some ps) key = Ok net ->
    exists m,
      encoder net = Some (Layer.Masked m) /\
      MaskedLinear.mask m = Jnp.ones2 encoding_size input_size /\
      MaskedLinear.linear m =
        eqx_nn_Linear input_size encoding_size use_bias
          (snd (fst (jr_split3 key))) /\
      MaskedLinear.masked_weight m =
        Ok (Linear.weight (MaskedLinear.linear m)).
Proof.
  intros input_size hidden_size out_size encoding_size hidden_type encoder_type
    readout_type use_bias hnl onl noise ps key net H.
  apply init_encoder_inv in H. destruct H as (layer & Henc & m & Hm & ->).
  exists m. split; [exact Henc|].
  unfold MaskedLinear.__init__ in Hm.
  apply bind_Ok in Hm. destruct Hm as [w [Hw Hm]]. injection Hm as <-.
  apply mul_Ok in Hw. destruct Hw as [Hs ->].
  rewrite (map2_ones2 _ _ _ Hs). simpl.
  split; [reflexivity|]. split.
  - destruct (eqx_nn_Linear input_size encoding_size use_bias
                (snd (fst (jr_split3 key)))); reflexivity.
  - unfold MaskedLinear.masked_weight. simpl.
    rewrite (mul_same_shape _ _ Hs), (map2_ones2 _ _ _ Hs). reflexivity.
Qed.

(** X9.  [init] returns arrays of zeros sized by the configuration: the
    input and hidden arrays have [input_size] and [hidden_size] entries,
    the output has [out_size] entries, and the encoding has
    [encoding_size] entries, or is [None] without encoder.  (The
    constructor returns no network for [out_size = None]; [hidden_size]
    is what its [else] branch would store as [out_size].) *)
Theorem init_state_sizes :
  forall (input_size hidden_size : nat) (out_size encoding_size : option nat)
         (hidden_type : hidden_type_t) (encoder_type readout_type : layer_type_t)
         (use_bias : bool) (hnl onl : nonlinearity_t) (noise : option R)
         (ps : option PopulationStructure.t) (key : Key) (net : t) (k : Key),
    __init__ input_size hidden_size out_size encoding_size hidden_type
      encoder_type readout_type use_bias hnl onl noise ps key = Ok net ->
    init net k =
      NetworkState.mk
        (Jnp.zeros input_size) (Jnp.zeros hidden_size)
        (Some (Jnp.zeros (match out_size with
                          | Some o => o
                          | None => hidden_size
                          end)))
        (match encoding_size with
         | Some e => Some (Jnp.zeros e)
         | None => None
         end).
Proof.
  intros input_size hidden_size out_size encoding_size hidden_type encoder_type
    readout_type use_bias hnl onl noise ps key net k H.
  apply init_fields in H.
  destruct H as (Hi & Hh & _ & Ho & He & _).
  unfold init. rewrite Hi, Hh, Ho, He. reflexivity.
Qed.

(** X10.  Without a population structure, when the readout type builds a
    layer that has a bias, the readout of the network has a bias of zeros
    of the same length, whatever was drawn; when the layer has no
    attribute [bias], it is the readout as it was built. *)
Theorem plain_readout_bias_zeroed :
  forall (input_size hidden_size out_size : nat) (encoding_size : option nat)
         (hidden_type : hidden_type_t) (encoder_type readout_type : layer_type_t)
         (use_bias : bool) (hnl onl : nonlinearity_t) (noise : option R)
         (key : Key) (net : t) (r0 : Layer.t),
    __init__ input_size hidden_size (Some out_size) encoding_size hidden_type
      encoder_type readout_type use_bias hnl onl noise None key = Ok net ->
    readout_type hidden_size out_size (snd (jr_split3 key)) = Ok r0 ->
    exists r,
      readout net = Some r /\
      match Layer.getattr_bias r0 with
      | Some b => Layer.getattr_bias r = Some (Jnp.zeros (length b))
      | None => r = r0
      end.
Proof.
  intros input_size hidden_size out_size encoding_size hidden_type encoder_type
    readout_type use_bias hnl onl noise key net r0 H H0.
  apply init_inv in H.
  destruct H as (key1 & key2 & key3 & Hsplit & _ & r & Hr & Hnet).
  rewrite Hsplit in H0. simpl in H0.
  exists r. split; [exact Hnet|].
  destruct (Layer.getattr_bias r0) as [b|] eqn:Hb.
  - exact (make_readout_plain_zero_bias _ _ _ _ _ H0 Hb Hr).
  - unfold make_readout in Hr. rewrite H0 in Hr. simpl in Hr.
    rewrite Hb in Hr. congruence.
Qed.

End Fields.

(** ** SimpleStagedNetwork: the stages *)

Section Stages.
Context {J : JaxLib}.

Import SimpleStagedNetwork.
Local Open Scope string_scope.

Ltac stage_cases H :=
  repeat (destruct H as [H|H];
          [ first [ discriminate H | injection H as <- ] | ]);
  try contradiction.

(** X11.  The labels of the stages are decided by three facts alone,
    whether the network has an encoder, a hidden noise and a readout.
    Without encoder the sequence starts with [input] and [hidden]; with an
    encoder it starts with [encoder] and [hidden], and has no stage
    [input].  Then come [hidden_nonlinearity], [hidden_noise] when
    [hidden_noise_std] is given, [readout] when there is a readout, and
    [out_nonlinearity]; no label occurs twice. *)
Theorem stage_labels_by_configuration :
  forall (net : t),
    stage_labels net =
      ((match encoder net with
        | Some _ => ["encoder"; "hidden"]
        | None => ["input"; "hidden"]
        end) ++
       ["hidden_nonlinearity"] ++
       (match hidden_noise_std net with
        | Some _ => ["hidden_noise"]
        | None => []
        end) ++
       (match readout net with
        | Some _ => ["readout"]
        | None => []
        end) ++
       ["out_nonlinearity"])%list /\
    NoDup (stage_labels net).
Proof.
  intros net. unfold stage_labels, model_spec.
  destruct (encoder net), (hidden_noise_std net), (readout net);
    (split; [reflexivity|]);
    cbn; repeat constructor; simpl; intuition discriminate.
Qed.

(** The stage [hidden] of a network. *)
Lemma hidden_stage_inv (net : t) (stage : ModelStage) :
  In ("hidden", stage) (model_spec net) ->
  (forall input state,
      where_state stage state = Some (NetworkState.hidden state) /\
      where_input stage input state =
        match encoder net with
        | Some _ => NetworkState.encoding state
        | None => Some (NetworkState.input state)
        end) /\
  (forall model x s k,
      callable stage model x s k =
        if Nat.eqb (Layer.n_positional_args (hidden net)) 1
        then Layer.call1 (hidden model) x k
        else Layer.call2 (hidden model) x s k).
Proof.
  unfold model_spec. intros H.
  destruct (encoder net), (hidden_noise_std net), (readout net);
    cbn in H; stage_cases H;
    (split; [intros; split; reflexivity|]);
    intros model x s k; cbn;
    destruct (Nat.eqb (Layer.n_positional_args (hidden net)) 1); reflexivity.
Qed.

(** The stage [readout] of a network. *)
Lemma readout_stage_inv (net : t) (stage : ModelStage) :
  In ("readout", stage) (model_spec net) ->
  readout net <> None /\
  (forall input state,
      where_input stage input state = Some (NetworkState.hidden state) /\
      where_state stage state = NetworkState.output state) /\
  (forall model x s k,
      callable stage model x s k =
        match readout model with
        | Some r => Layer.call1 r x k
        | None => Raise TypeError
        end).
Proof.
  unfold model_spec. intros H.
  destruct (encoder net), (hidden_noise_std net), (readout net);
    cbn in H; stage_cases H;
    (split; [discriminate|]);
    (split; [intros; split; reflexivity|]);
    intros model x s k; cbn; destruct (readout model); reflexivity.
Qed.

(** The stage [encoder] of a network. *)
Lemma encoder_stage_inv (net : t) (stage : ModelStage) :
  In ("encoder", stage) (model_spec net) ->
  encoder net <> None /\
  (forall input state,
      where_input stage input state = Some (NetworkState.input state) /\
      where_state stage state = NetworkState.encoding state).
Proof.
  unfold model_spec. intros H.
  destruct (encoder net), (hidden_noise_std net), (readout net);
    cbn in H; stage_cases H;
    (split; [discriminate|]); intros; split; reflexivity.
Qed.

(** The stage [input] of a network. *)
Lemma input_stage_inv (net : t) (stage : ModelStage) :
  In ("input", stage) (model_spec net) ->
  encoder net = None /\
  (forall input state,
      where_input stage input state = Some (ravel_pytree input) /\
      where_state stage state = Some (NetworkState.input state)) /\
  (forall model x s k, callable stage model x s k = Ok x).
Proof.
  unfold model_spec. intros H.
  destruct (encoder net), (hidden_noise_std net), (readout net);
    cbn in H; stage_cases H;
    (split; [reflexivity|]); split; intros; try split; reflexivity.
Qed.

(** X12.  How the state flows through the stages.  The stage [input]
    stores the flattened raw input in [state.input].  The stage [encoder]
    reads [state.input] and writes [state.encoding].  The stage [hidden]
    reads [state.encoding] when the network has an encoder and
    [state.input] when it has none, and writes [state.hidden].  The stage
    [readout] reads [state.hidden] and writes [state.output]. *)
Theorem stage_data_flow :
  forall (net : t) (stage : ModelStage) (input : list vec)
         (state : NetworkState.t),
    (In ("input", stage) (model_spec net) ->
     where_input stage input state = Some (concat input) /\
     where_state stage state = Some (NetworkState.input state) /\
     forall key, stage_result stage net input state key = Ok (Some (concat input))) /\
    (In ("encoder", stage) (model_spec net) ->
     where_input stage input state = Some (NetworkState.input state) /\
     where_state stage state = NetworkState.encoding state) /\
    (In ("hidden", stage) (model_spec net) ->
     where_input stage input state =
       match encoder net with
       | Some _ => NetworkState.encoding state
       | None => Some (NetworkState.input state)
       end /\
     where_state stage state = Some (NetworkState.hidden state)) /\
    (In ("readout", stage) (model_spec net) ->
     where_input stage input state = Some (NetworkState.hidden state) /\
     where_state stage state = NetworkState.output state).
Proof.
  intros net stage input state.
  split; [|split; [|split]]; intros H.
  - apply input_stage_inv in H. destruct H as (_ & Hsel & Hcall).
    destruct (Hsel input state) as [Hi Hs].
    split; [exact Hi|]. split; [exact Hs|].
    intros key. unfold stage_result. rewrite Hcall, Hi. reflexivity.
  - apply encoder_stage_inv in H. destruct H as (_ & Hsel). apply Hsel.
  - apply hidden_stage_inv in H. destruct H as (Hsel & _).
    destruct (Hsel input state) as [Hs Hi]. split; assumption.
  - apply readout_stage_inv in H. destruct H as (_ & Hsel & _). apply Hsel.
Qed.

(** X13.  What the stage [hidden] computes.  For a hidden layer that takes
    one positional argument (a linear layer), the stage calls the layer
    on the selected input and the previous hidden state has no part in
    the result; for any other hidden layer, the stage calls it on the
    selected input and on [state.hidden]. *)
Theorem hidden_stage_result :
  forall (net : t) (stage : ModelStage) (input : list vec)
         (state : NetworkState.t) (key : Key),
    In ("hidden", stage) (model_spec net) ->
    let selected :=
      match encoder net with
      | Some _ => NetworkState.encoding state
      | None => Some (NetworkState.input state)
      end in
    stage_result stage net input state key =
      if Nat.eqb (Layer.n_positional_args (hidden net)) 1
      then Layer.call1 (hidden net) selected key
      else Layer.call2 (hidden net) selected
             (Some (NetworkState.hidden state)) key.
Proof.
  intros net stage input state key H selected. subst selected.
  apply hidden_stage_inv in H. destruct H as (Hsel & Hcall).
  unfold stage_result. rewrite Hcall.
  destruct (Hsel input state) as [-> ->]. reflexivity.
Qed.

(** X14.  In a network built with a population structure and a readout,
    the readout is a [MaskedLinear] whose mask has ones in the columns of
    [readout_indices] and zeros elsewhere, and the stage [readout] is the
    call of this layer on [state.hidden].  A layer with this mask,
    whatever numbers its weights of the shape of the mask have become,
    returns one result on two hidden arrays of numbers that agree on the
    units of [readout_indices]. *)
Theorem readout_ignores_other_units :
  forall (input_size hidden_size out_size : nat) (encoding_size : option nat)
         (hidden_type : hidden_type_t) (encoder_type readout_type : layer_type_t)
         (use_bias : bool) (hnl onl : nonlinearity_t) (noise : option R)
         (ps : PopulationStructure.t) (key : Key) (net : t),
    __init__ input_size hidden_size (Some out_size) encoding_size hidden_type
      encoder_type readout_type use_bias hnl onl noise (Some ps) key = Ok net ->
    exists m,
      readout net = Some (Layer.Masked m) /\
      MaskedLinear.mask m =
        Jnp.ones_at_cols out_size hidden_size
          (PopulationStructure.readout_indices ps) /\
      (forall stage input state k,
          In ("readout", stage) (model_spec net) ->
          stage_result stage net input state k =
            (y <- MaskedLinear.__call__ m (NetworkState.hidden state) ;;
             Ok (Some y))) /\
      (forall (w : Fp.matrix) (b : option Fp.vec) (x x' : Fp.vec),
          Fp.same_shape w (Fp.of_matrix (MaskedLinear.mask m)) = true ->
          Fp.finite_matrix w -> Fp.finite_vec x -> Fp.finite_vec x' ->
          length x = length x' ->
          (forall j, In j (PopulationStructure.readout_indices ps) ->
                     nth j x (Fp.Num 0) = nth j x' (Fp.Num 0)) ->
          FpMaskedLinear.__call__
            (FpMaskedLinear.mk (FpMaskedLinear.mk_linear w b)
                               (Fp.of_matrix (MaskedLinear.mask m))) x =
          FpMaskedLinear.__call__
            (FpMaskedLinear.mk (FpMaskedLinear.mk_linear w b)
                               (Fp.of_matrix (MaskedLinear.mask m))) x').
Proof.
  intros input_size hidden_size out_size encoding_size hidden_type encoder_type
    readout_type use_bias hnl onl noise ps key net H.
  apply init_inv in H.
  destruct H as (key1 & key2 & key3 & _ & _ & r & Hr & Hnet).
  unfold make_readout in Hr.
  apply bind_Ok in Hr. destruct Hr as [r0 [H0 Hr]].
  apply bind_Ok in H0. destruct H0 as [m [Hm H0]]. injection H0 as <-.
  simpl in Hr. injection Hr as <-.
  assert (Hmask : MaskedLinear.mask m =
            Jnp.ones_at_cols out_size hidden_size
              (PopulationStructure.readout_indices ps)).
  { unfold MaskedLinear.__init__ in Hm.
    apply bind_Ok in Hm. destruct Hm as [w [_ Hm]]. injection Hm as <-.
    reflexivity. }
  exists m. split; [exact Hnet|]. split; [exact Hmask|]. split.
  - intros stage input state k Hin.
    apply readout_stage_inv in Hin. destruct Hin as (_ & Hsel & Hcall).
    unfold stage_result. rewrite Hcall, Hnet.
    rewrite (proj1 (Hsel input state)). reflexivity.
  - intros w b x x' Hs Hw Hx Hx' Hl Hagree.
    unfold FpMaskedLinear.__call__, FpMaskedLinear.masked_weight.
    cbn [FpMaskedLinear.weight FpMaskedLinear.linear FpMaskedLinear.mask
         FpMaskedLinear.bias].
    unfold Fp.mul2. rewrite Hs.
    cbn [bind].
    rewrite (@fp_dot_T_masked_agree _ _ x x' Hl Hw Hx Hx'); [reflexivity|].
    intros i j Hij. apply Hagree. rewrite Hmask, fp_entry_of in Hij.
    assert (Hne : Jnp.entry (Jnp.ones_at_cols out_size hidden_size
                    (PopulationStructure.readout_indices ps)) i j <> 0%R).
    { intros E. apply Hij. rewrite E. reflexivity. }
    apply ones_at_cols_entry in Hne. apply Hne.
Qed.

(** X15.  The hidden noise leaves the state as it is when
    [hidden_noise_std] is [None], and also when it is zero, provided
    [jr.normal] returns an array of the asked length. *)
Theorem add_hidden_noise_without_effect :
  forall (net : t) (input : pytree) (s : vec) (key : Key),
    normal_law J ->
    hidden_noise_std net = None \/ hidden_noise_std net = Some 0%R ->
    _add_hidden_noise net input (Some s) key = Ok (Some s).
Proof.
  intros net input s key law [H|H]; unfold _add_hidden_noise; rewrite H;
    [reflexivity|].
  unfold Jnp.add, Jnp.scale. rewrite length_map, law, Nat.eqb_refl. simpl.
  do 2 f_equal.
  specialize (law key (length s)).
  revert law. generalize (jr_normal key (length s)). 
  induction s as [|a s IH]; intros [|n ns]; simpl; try discriminate;
    [reflexivity|].
  intros Hl. f_equal; [ring | apply IH; lia].
Qed.

End Stages.

(** ** LeakyRNNCell: the update *)

Lemma leak_interval (lo hi a : R) (s y : vec) :
  (0 <= a <= 1)%R ->
  Forall (fun x => (lo <= x <= hi)%R) s ->
  Forall (fun x => (lo <= x <= hi)%R) y ->
  Forall (fun x => (lo <= x <= hi)%R)
         (map2 Rplus (Jnp.scale (1 - a) s) (Jnp.scale a y)).
Proof.
  intros Ha Hs; revert y; induction Hs as [|x s Hx _ IH]; intros y Hy;
    [constructor|].
  destruct Hy as [|z y Hz Hy]; simpl; constructor; [nra | apply IH, Hy].
Qed.

Lemma leak_zero (t : R) (s y : vec) :
  length s = length y ->
  map2 Rplus (Jnp.scale (1 - 0 / t) s) (Jnp.scale (0 / t) y) = s.
Proof.
  unfold Jnp.scale.
  revert y; induction s as [|x s IH]; intros [|z y]; simpl; try discriminate;
    [reflexivity|].
  intros H; f_equal; [unfold Rdiv; ring | apply IH; lia].
Qed.

Section LeakyUpdate.
Context {J : JaxLib}.

(** X16.  With noise disabled, a time constant [tau] that is not zero
    and arrays whose shapes fit, the call returns
    [(1-a)*state + a*nonlinearity(W_ih input + W_hh state + bias)] with
    [a = dt / tau], the bias being zero without [use_bias]. *)
Theorem leaky_update_without_noise :
  forall (self : LeakyRNNCell.t) (input state : vec) (key : Key),
    LeakyRNNCell.use_noise self = false ->
    LeakyRNNCell.tau self <> 0%R ->
    LeakyRNNCell.shapes_fit self input state ->
    LeakyRNNCell.__call__ self input state key =
      Ok (LeakyRNNCell.spec_update self input state
            (LeakyRNNCell.bias_term self (length state))
            (Jnp.zeros (length state))).
Proof. intros; apply call_without_noise; assumption. Qed.

(** X17.  The two degenerate time constants of a cell without noise.
    With [tau = 0] every call raises [ZeroDivisionError], whatever the
    arrays are.  With [dt = 0] and a [tau] that is not zero, the call
    returns the state it was given, when the shapes fit. *)
Theorem leaky_degenerate_time_constants :
  forall (self : LeakyRNNCell.t) (input state : vec) (key : Key),
    LeakyRNNCell.use_noise self = false ->
    (LeakyRNNCell.tau self = 0%R ->
     LeakyRNNCell.__call__ self input state key = Raise ZeroDivisionError) /\
    (LeakyRNNCell.dt self = 0%R ->
     LeakyRNNCell.tau self <> 0%R ->
     LeakyRNNCell.shapes_fit self input state ->
     LeakyRNNCell.__call__ self input state key = Ok state).
Proof.
  intros self input state key Hn. split.
  - intros Ht.
    unfold LeakyRNNCell.__call__. rewrite Hn. cbn [bind].
    unfold LeakyRNNCell.alpha, LeakyRNNCell.alpha_def, cached_property,
      LeakyRNNCell.float_div.
    destruct (Req_dec_T (LeakyRNNCell.tau self) 0) as [_|Hne];
      [reflexivity | contradiction].
  - intros Hdt Htau Hfit.
    rewrite call_without_noise by assumption.
    destruct Hfit as (Lih & Lhh & _ & _ & Hbias & Hnl).
    unfold LeakyRNNCell.spec_update. rewrite Hdt.
    rewrite leak_zero; [reflexivity|].
    rewrite Hnl.
    assert (Eih : length (map (fun row => Jnp.vdot row input)
                            (LeakyRNNCell.weight_ih self)) = length state)
      by (rewrite length_map; exact Lih).
    assert (Ehh : length (map (fun row => Jnp.vdot row state)
                            (LeakyRNNCell.weight_hh self)) = length state)
      by (rewrite length_map; exact Lhh).
    assert (Eb : length (LeakyRNNCell.bias_term self (length state)) =
                 length state).
    { unfold LeakyRNNCell.bias_term.
      destruct (LeakyRNNCell.use_bias self) eqn:Hub.
      - destruct (Hbias eq_refl) as [b [-> Lb]]. exact Lb.
      - apply zeros_length. }
    set (ih := map (fun row => Jnp.vdot row input)
                 (LeakyRNNCell.weight_ih self)) in *.
    set (hh := map (fun row => Jnp.vdot row state)
                 (LeakyRNNCell.weight_hh self)) in *.
    assert (E1 : length (map2 Rplus ih hh) = length state)
      by (rewrite map2_length; congruence).
    assert (E2 : length (map2 Rplus (map2 Rplus ih hh)
                           (LeakyRNNCell.bias_term self (length state))) =
                 length state)
      by (rewrite map2_length; congruence).
    rewrite map2_length by (rewrite zeros_length; exact E2).
    symmetry; exact E2.
Qed.

(** X18.  The leak keeps the state in a box: when the nonlinearity maps
    into [[lo, hi]], the state lies in [[lo, hi]] and [dt / tau] is
    between zero and one, the state a cell without noise returns lies in
    [[lo, hi]] as well. *)
Theorem leaky_update_stays_in_range :
  forall (self : LeakyRNNCell.t) (input state : vec) (key : Key) (lo hi : R),
    LeakyRNNCell.use_noise self = false ->
    LeakyRNNCell.tau self <> 0%R ->
    LeakyRNNCell.shapes_fit self input state ->
    (0 <= LeakyRNNCell.dt self / LeakyRNNCell.tau self <= 1)%R ->
    (forall v, Forall (fun x => (lo <= x <= hi)%R)
                      (LeakyRNNCell.nonlinearity self v)) ->
    Forall (fun x => (lo <= x <= hi)%R) state ->
    exists state',
      LeakyRNNCell.__call__ self input state key = Ok state' /\
      Forall (fun x => (lo <= x <= hi)%R) state'.
Proof.
  intros self input state key lo hi Hn Htau Hfit Ha Hnl Hs.
  eexists. split; [apply call_without_noise; assumption|].
  unfold LeakyRNNCell.spec_update.
  apply leak_interval; [exact Ha | exact Hs | apply Hnl].
Qed.

End LeakyUpdate.

(** ** PopulationStructure: sizes and kinds of units *)

Section Populations.
Context {J : JaxLib}.

(** What [create] returns once the total is right: the populations the
    assignment gives, and the two combined index arrays. *)
Lemma create_Ok (hidden_size n1 n2 n3 n4 : nat)
    (assignment_fn : option PopulationStructure.assignment_fn_t) (key : Key)
    (p : PopulationStructure.t) :
  PopulationStructure.create hidden_size n1 n2 n3 n4 assignment_fn key = Ok p ->
  n1 + n2 + n3 + n4 = hidden_size /\
  PopulationStructure.input_indices p =
    PopulationStructure.input_only_indices p ++
    PopulationStructure.input_readout_indices p /\
  PopulationStructure.readout_indices p =
    PopulationStructure.readout_only_indices p ++
    PopulationStructure.input_readout_indices p /\
  PopulationStructure.n_input_only p = n1 /\
  PopulationStructure.n_readout_only p = n2 /\
  PopulationStructure.n_recurrent_only p = n3 /\
  PopulationStructure.n_input_readout p = n4 /\
  match assignment_fn with
  | None =>
      PopulationStructure.populations p = jr_permutation key hidden_size /\
      PopulationStructure.input_only_indices p =
        PopulationStructure.slice_to (jr_permutation key hidden_size) n1 /\
      PopulationStructure.readout_only_indices p =
        PopulationStructure.slice (jr_permutation key hidden_size) n1 (n1 + n2) /\
      PopulationStructure.recurrent_only_indices p =
        PopulationStructure.slice (jr_permutation key hidden_size)
          (n1 + n2) (n1 + n2 + n3) /\
      PopulationStructure.input_readout_indices p =
        PopulationStructure.slice_from (jr_permutation key hidden_size)
          (n1 + n2 + n3)
  | Some f =>
      (PopulationStructure.input_only_indices p,
       PopulationStructure.readout_only_indices p,
       PopulationStructure.recurrent_only_indices p,
       PopulationStructure.input_readout_indices p) =
        f hidden_size n1 n2 n3 n4 key
  end.
Proof.
  unfold PopulationStructure.create.
  destruct (Nat.eqb_spec (n1 + n2 + n3 + n4) hidden_size) as [E|E];
    simpl negb; cbv iota; [|discriminate].
  destruct assignment_fn as [f|].
  - destruct (f hidden_size n1 n2 n3 n4 key) as [[[a b] c] d].
    intros H; injection H as <-. simpl. repeat split; try reflexivity; exact E.
  - intros H; injection H as <-. simpl.
    repeat split; try reflexivity; try exact E.
    unfold PopulationStructure.populations. simpl. apply slices_reassemble.
Qed.

(** With the default assignment and sizes that are not negative, the
    sizes of the index arrays. *)
Lemma create_sizes_of_nat_sizes :
  permutation_law J ->
  forall (hidden_size n1 n2 n3 n4 : nat) (key : Key) (p : PopulationStructure.t),
    PopulationStructure.create hidden_size n1 n2 n3 n4 None key = Ok p ->
    length (PopulationStructure.input_only_indices p) = n1 /\
    length (PopulationStructure.readout_only_indices p) = n2 /\
    length (PopulationStructure.recurrent_only_indices p) = n3 /\
    length (PopulationStructure.input_readout_indices p) = n4 /\
    length (PopulationStructure.input_indices p) = n1 + n4 /\
    length (PopulationStructure.readout_indices p) = n2 + n4.
Proof.
  intros law hidden_size n1 n2 n3 n4 key p H.
  apply create_Ok in H.
  destruct H as (E & Hi & Hr & _ & _ & _ & _ & _ & H1 & H2 & H3 & H4).
  assert (Hlen : length (jr_permutation key hidden_size) = hidden_size).
  { rewrite (Permutation_length (law key hidden_size)). apply length_seq. }
  assert (L1 : length (PopulationStructure.input_only_indices p) = n1).
  { rewrite H1. unfold PopulationStructure.slice_to.
    rewrite length_firstn. lia. }
  assert (L2 : length (PopulationStructure.readout_only_indices p) = n2).
  { rewrite H2. unfold PopulationStructure.slice.
    rewrite length_firstn, length_skipn. lia. }
  assert (L3 : length (PopulationStructure.recurrent_only_indices p) = n3).
  { rewrite H3. unfold PopulationStructure.slice.
    rewrite length_firstn, length_skipn. lia. }
  assert (L4 : length (PopulationStructure.input_readout_indices p) = n4).
  { rewrite H4. unfold PopulationStructure.slice_from.
    rewrite length_skipn. lia. }
  rewrite Hi, Hr, !length_app. repeat split; lia.
Qed.

(** What [create] on Python ints returns: the total is right, and the
    two combined index arrays are concatenations. *)
Lemma create_int_Ok (hidden_size n1 n2 n3 n4 : Z)
    (assignment_fn : option PopulationStructureZ.assignment_fn_t) (key : Key)
    (p : PopulationStructureZ.t) :
  PopulationStructureZ.create hidden_size n1 n2 n3 n4 assignment_fn key = Ok p ->
  (n1 + n2 + n3 + n4 = hidden_size)%Z /\
  PopulationStructureZ.input_indices p =
    PopulationStructureZ.input_only_indices p ++
    PopulationStructureZ.input_readout_indices p /\
  PopulationStructureZ.readout_indices p =
    PopulationStructureZ.readout_only_indices p ++
    PopulationStructureZ.input_readout_indices p.
Proof.
  unfold PopulationStructureZ.create.
  destruct (Z.eqb_spec (n1 + n2 + n3 + n4) hidden_size) as [E|E];
    simpl negb; cbv iota; [|discriminate].
  destruct assignment_fn as [f|].
  - destruct (f hidden_size n1 n2 n3 n4 key) as [[[a b] c] d].
    intros H; injection H as <-. simpl. repeat split; try reflexivity; exact E.
  - intros H; injection H as <-. simpl.
    repeat split; try reflexivity; exact E.
Qed.

(** X19.  With the default assignment and sizes that are not negative
    and sum to [hidden_size], each of the four index arrays [create]
    returns has the size asked for, [input_indices] has
    [n_input_only + n_input_readout] entries and [readout_indices] has
    [n_readout_only + n_input_readout] entries. *)
Theorem create_population_sizes :
  permutation_law J ->
  forall (hidden_size n1 n2 n3 n4 : Z) (key : Key) (p : PopulationStructureZ.t),
    (0 <= n1)%Z -> (0 <= n2)%Z -> (0 <= n3)%Z -> (0 <= n4)%Z ->
    PopulationStructureZ.create hidden_size n1 n2 n3 n4 None key = Ok p ->
    Z.of_nat (length (PopulationStructureZ.input_only_indices p)) = n1 /\
    Z.of_nat (length (PopulationStructureZ.readout_only_indices p)) = n2 /\
    Z.of_nat (length (PopulationStructureZ.recurrent_only_indices p)) = n3 /\
    Z.of_nat (length (PopulationStructureZ.input_readout_indices p)) = n4 /\
    Z.of_nat (length (PopulationStructureZ.input_indices p)) = (n1 + n4)%Z /\
    Z.of_nat (length (PopulationStructureZ.readout_indices p)) = (n2 + n4)%Z.
Proof.
  intros law h n1 n2 n3 n4 key p H1 H2 H3 H4 H.
  pose proof (create_int_Ok _ _ _ _ _ _ _ H) as (E & _ & _).
  assert (Hh : (0 <= h)%Z) by lia.
  rewrite <- (Z2Nat.id h Hh), <- (Z2Nat.id n1 H1), <- (Z2Nat.id n2 H2),
    <- (Z2Nat.id n3 H3), <- (Z2Nat.id n4 H4) in H.
  rewrite create_default_of_nat in H.
  apply bind_Ok in H. destruct H as [p0 [Hp0 H]]. injection H as <-.
  apply (create_sizes_of_nat_sizes law) in Hp0.
  destruct Hp0 as (L1 & L2 & L3 & L4 & Li & Lr).
  unfold PopulationStructureZ.of_nat. simpl. rewrite !length_map.
  rewrite L1, L2, L3, L4, Li, Lr. repeat split; lia.
Qed.

(** The kinds of units of a partition whose combined arrays are built as
    [create] builds them. *)
Lemma partition_kinds (h : nat) (p : PopulationStructure.t) (i : nat) :
  PopulationStructure.is_partition h p ->
  PopulationStructure.input_indices p =
    PopulationStructure.input_only_indices p ++
    PopulationStructure.input_readout_indices p ->
  PopulationStructure.readout_indices p =
    PopulationStructure.readout_only_indices p ++
    PopulationStructure.input_readout_indices p ->
  (In i (PopulationStructure.input_only_indices p) ->
   In i (PopulationStructure.input_indices p) /\
   ~ In i (PopulationStructure.readout_indices p)) /\
  (In i (PopulationStructure.readout_only_indices p) ->
   ~ In i (PopulationStructure.input_indices p) /\
   In i (PopulationStructure.readout_indices p)) /\
  (In i (PopulationStructure.recurrent_only_indices p) ->
   ~ In i (PopulationStructure.input_indices p) /\
   ~ In i (PopulationStructure.readout_indices p)) /\
  (In i (PopulationStructure.input_readout_indices p) ->
   In i (PopulationStructure.input_indices p) /\
   In i (PopulationStructure.readout_indices p)).
Proof.
  intros [(D12 & D13 & D14 & D23 & D24 & D34) _] -> ->.
  unfold PopulationStructure.disjoint in *.
  split; [|split; [|split]]; intros H; rewrite !in_app_iff; split;
    try (left; exact H); try (right; exact H);
    intros [H'|H'];
    first [ exact (D12 _ H H') | exact (D12 _ H' H)
          | exact (D13 _ H H') | exact (D13 _ H' H)
          | exact (D14 _ H H') | exact (D14 _ H' H)
          | exact (D23 _ H H') | exact (D23 _ H' H)
          | exact (D24 _ H H') | exact (D24 _ H' H)
          | exact (D34 _ H H') | exact (D34 _ H' H) ].
Qed.

Lemma partition_kinds_int (h : Z) (p : PopulationStructureZ.t) (i : Z) :
  PopulationStructureZ.is_partition h p ->
  PopulationStructureZ.input_indices p =
    PopulationStructureZ.input_only_indices p ++
    PopulationStructureZ.input_readout_indices p ->
  PopulationStructureZ.readout_indices p =
    PopulationStructureZ.readout_only_indices p ++
    PopulationStructureZ.input_readout_indices p ->
  (In i (PopulationStructureZ.input_only_indices p) ->
   In i (PopulationStructureZ.input_indices p) /\
   ~ In i (PopulationStructureZ.readout_indices p)) /\
  (In i (PopulationStructureZ.readout_only_indices p) ->
   ~ In i (PopulationStructureZ.input_indices p) /\
   In i (PopulationStructureZ.readout_indices p)) /\
  (In i (PopulationStructureZ.recurrent_only_indices p) ->
   ~ In i (PopulationStructureZ.input_indices p) /\
   ~ In i (PopulationStructureZ.readout_indices p)) /\
  (In i (PopulationStructureZ.input_readout_indices p) ->
   In i (PopulationStructureZ.input_indices p) /\
   In i (PopulationStructureZ.readout_indices p)).
Proof.
  intros [(D12 & D13 & D14 & D23 & D24 & D34) _] -> ->.
  unfold PopulationStructureZ.disjoint in *.
  split; [|split; [|split]]; intros H; rewrite !in_app_iff; split;
    try (left; exact H); try (right; exact H);
    intros [H'|H'];
    first [ exact (D12 _ H H') | exact (D12 _ H' H)
          | exact (D13 _ H H') | exact (D13 _ H' H)
          | exact (D14 _ H H') | exact (D14 _ H' H)
          | exact (D23 _ H H') | exact (D23 _ H' H)
          | exact (D24 _ H H') | exact (D24 _ H' H)
          | exact (D34 _ H H') | exact (D34 _ H' H) ].
Qed.

(** X20.  With the default assignment or [contiguous_assignment] and
    sizes that are not negative and sum to [hidden_size], the units are
    of the four kinds the class describes: an input-only unit is in
    [input_indices] and not in [readout_indices], a readout-only unit the
    other way round, a recurrent-only unit in neither, an input-readout
    unit in both. *)
Theorem created_unit_kinds :
  permutation_law J ->
  forall (hidden_size n1 n2 n3 n4 : Z)
         (assignment_fn : option PopulationStructureZ.assignment_fn_t)
         (key : Key) (p : PopulationStructureZ.t) (i : Z),
    (0 <= n1)%Z -> (0 <= n2)%Z -> (0 <= n3)%Z -> (0 <= n4)%Z ->
    assignment_fn = None \/
    assignment_fn = Some PopulationStructureZ.contiguous_assignment ->
    PopulationStructureZ.create hidden_size n1 n2 n3 n4 assignment_fn key = Ok p ->
    (In i (PopulationStructureZ.input_only_indices p) ->
     In i (PopulationStructureZ.input_indices p) /\
     ~ In i (PopulationStructureZ.readout_indices p)) /\
    (In i (PopulationStructureZ.readout_only_indices p) ->
     ~ In i (PopulationStructureZ.input_indices p) /\
     In i (PopulationStructureZ.readout_indices p)) /\
    (In i (PopulationStructureZ.recurrent_only_indices p) ->
     ~ In i (PopulationStructureZ.input_indices p) /\
     ~ In i (PopulationStructureZ.readout_indices p)) /\
    (In i (PopulationStructureZ.input_readout_indices p) ->
     In i (PopulationStructureZ.input_indices p) /\
     In i (PopulationStructureZ.readout_indices p)).
Proof.
  intros law h n1 n2 n3 n4 f key p i H1 H2 H3 H4 Hf H.
  pose proof (create_int_Ok _ _ _ _ _ _ _ H) as (E & Hi & Hr).
  apply (partition_kinds_int (h := h)); [|exact Hi|exact Hr].
  assert (Hh : (0 <= h)%Z) by lia.
  assert (Hsum : Z.to_nat n1 + Z.to_nat n2 + Z.to_nat n3 + Z.to_nat n4 =
                 Z.to_nat h) by lia.
  rewrite <- (Z2Nat.id h Hh), <- (Z2Nat.id n1 H1), <- (Z2Nat.id n2 H2),
    <- (Z2Nat.id n3 H3), <- (Z2Nat.id n4 H4) in H.
  rewrite <- (Z2Nat.id h Hh).
  destruct Hf as [-> | ->].
  - destruct (proj2 (create_partition_of_nat_sizes law (Z.to_nat h)
                       (Z.to_nat n1) (Z.to_nat n2) (Z.to_nat n3) (Z.to_nat n4)
                       None key) Hsum (or_introl eq_refl)) as [p0 [Hp0 Hpart]].
    rewrite create_default_of_nat, Hp0 in H. injection H as <-.
    apply is_partition_of_nat, Hpart.
  - destruct (proj2 (create_partition_of_nat_sizes law (Z.to_nat h)
                       (Z.to_nat n1) (Z.to_nat n2) (Z.to_nat n3) (Z.to_nat n4)
                       (Some PopulationStructure.contiguous_assignment) key)
                Hsum (or_intror eq_refl)) as [p0 [Hp0 Hpart]].
    rewrite create_contiguous_of_nat, Hp0 in H. injection H as <-.
    apply is_partition_of_nat, Hpart.
Qed.

(** X21.  With [contiguous_assignment] the populations are consecutive
    blocks: unit [i] is in [input_indices] exactly when it is among the
    first [n_input_only] units or among the last [n_input_readout] ones,
    and in [readout_indices] exactly when it is among the
    [n_readout_only] units after the first block or among the last
    [n_input_readout] ones. *)
Theorem contiguous_blocks :
  forall (hidden_size n1 n2 n3 n4 : nat) (key : Key) (p : PopulationStructure.t)
         (i : nat),
    PopulationStructure.create hidden_size n1 n2 n3 n4
      (Some PopulationStructure.contiguous_assignment) key = Ok p ->
    (In i (PopulationStructure.input_indices p) <->
     i < n1 \/ n1 + n2 + n3 <= i < hidden_size) /\
    (In i (PopulationStructure.readout_indices p) <->
     n1 <= i < n1 + n2 \/ n1 + n2 + n3 <= i < hidden_size).
Proof.
  intros hidden_size n1 n2 n3 n4 key p i H.
  pose proof (create_Ok _ _ _ _ _ _ _ H) as (E & Hi & Hr & _ & _ & _ & _ & Hp).
  unfold PopulationStructure.contiguous_assignment in Hp.
  injection Hp as H1 H2 H3 H4.
  rewrite Hi, Hr, H1, H2, H4, !in_app_iff.
  unfold PopulationStructure.arange. rewrite !in_seq. lia.
Qed.

End Populations.

(** ** CompositeLoss: errors, labels and operators *)

Lemma term_tuples_terms (labels : list string) (ts : list Loss.t) (ws : list R) :
  length labels = length ts -> length ts = length ws ->
  map Loss.tuple_term (Loss.term_tuples labels ts ws) = ts.
Proof.
  unfold Loss.term_tuples, Loss.tuple_term. intros H1 H2.
  change (map (fun x : Loss.term_tuple => fst (snd x))
            (combine labels (combine ts ws)))
    with (map (fun x : string * (Loss.t * R) => fst (snd x))
            (combine labels (combine ts ws))).
  rewrite <- (map_map snd fst), combine_snd.
  - apply combine_fst, H2.
  - rewrite length_combine. lia.
Qed.

Lemma flattened_terms_count (tuples : list Loss.term_tuple) :
  length (Loss.flattened_terms tuples) =
    list_sum (map (fun x => LossCount.contribution (Loss.tuple_term x)) tuples).
Proof.
  unfold Loss.flattened_terms, Loss.simple_tuples, Loss.composite_tuples,
    LossCount.contribution, Loss.component_terms, Dict.values.
  rewrite length_app, length_map.
  induction tuples as [|x tuples IH]; simpl; [reflexivity|].
  destruct (Loss.is_composite (Loss.tuple_term x)); simpl.
  - rewrite length_app, length_map. lia.
  - lia.
Qed.

Section CompositeLossMore.

Variable get_unique_label : string -> list string -> string.

(** X22.  The constructor raises [ValueError] in two cases and in no
    other: when it is given an empty mapping of terms to take the labels
    from, and when the number of weights differs from the number of
    terms.  Otherwise it returns a [CompositeLoss] that carries the label
    it was given. *)
Theorem composite_init_errors :
  forall (terms_a : Loss.terms_arg) (weights_a : Loss.weights_arg)
         (label_a : string) (user_labels : bool),
    let rejected :=
      (terms_a = Loss.TermsMapping [] /\ user_labels = true) \/
      length (Loss.terms_of_arg terms_a) <>
        length (Loss.weight_values weights_a (Loss.terms_of_arg terms_a)) in
    (rejected ->
     Loss.__init__ get_unique_label terms_a weights_a label_a user_labels =
       Raise ValueError) /\
    (~ rejected ->
     exists l,
       Loss.__init__ get_unique_label terms_a weights_a label_a user_labels =
         Ok l /\
       Loss.is_composite l = true /\ Loss.label l = label_a).
Proof.
  intros terms_a weights_a label_a user_labels rejected. subst rejected.
  unfold Loss.__init__, Loss.labels_and_terms, Loss.terms_of_arg.
  split.
  - intros [[-> ->]|Hne]; [reflexivity|].
    destruct terms_a as [d|s]; [destruct user_labels; [destruct d as [|x d]|]|];
      try reflexivity; cbn [bind];
      match goal with
      | |- context [Nat.eqb ?a ?b] =>
          destruct (Nat.eqb_spec a b) as [E|E]; [contradiction|reflexivity]
      end.
  - intros Hok.
    assert (Hlen : length (Loss.terms_of_arg terms_a) =
                   length (Loss.weight_values weights_a
                             (Loss.terms_of_arg terms_a))).
    { destruct (Nat.eq_dec (length (Loss.terms_of_arg terms_a))
                 (length (Loss.weight_values weights_a
                            (Loss.terms_of_arg terms_a)))) as [E|E];
        [exact E|]. contradiction Hok. right. exact E. }
    unfold Loss.terms_of_arg in Hlen.
    destruct terms_a as [d|s]; [destruct user_labels; [destruct d as [|x d]|]|];
      try (contradiction Hok; left; split; reflexivity);
      cbn [bind]; rewrite Hlen, Nat.eqb_refl; cbn [negb];
      rewrite fold_flatten_step; eexists; (split; [reflexivity|]);
      split; reflexivity.
Qed.

Hypothesis law : Loss.unique_label_law get_unique_label.

(** The labels the two loops arrive at are distinct and as many as the
    flattened terms. *)
Lemma flattened_labels_facts (tuples : list Loss.term_tuple) :
  NoDup (Loss.flattened_labels get_unique_label tuples) /\
  length (Loss.flattened_labels get_unique_label tuples) =
    length (Loss.flattened_terms tuples).
Proof.
  split.
  - apply fold_labels_NoDup; [exact law|].
    apply uniquify_NoDup; [exact law | constructor].
  - unfold Loss.flattened_labels, Loss.flattened_terms.
    rewrite fold_labels_length, uniquify_length, length_app, !length_map; simpl.
    f_equal. apply flat_map_lengths. intros x _.
    rewrite component_labels_length. unfold Loss.component_terms, Dict.values.
    rewrite length_map; reflexivity.
Qed.

(** X23.  With labels that [get_unique_label] keeps distinct, the
    constructor loses no term: the labels of the result are pairwise
    distinct, [terms] and [weights] have the same labels in the same
    order, and the number of terms is the number of simple terms passed
    in plus the number of components of the composite terms passed in. *)
Theorem composite_keeps_every_term :
  forall (terms_a : Loss.terms_arg) (weights_a : Loss.weights_arg)
         (label_a : string) (user_labels : bool) (l : Loss.t),
    Loss.__init__ get_unique_label terms_a weights_a label_a user_labels = Ok l ->
    NoDup (Dict.keys (Loss.terms l)) /\
    length (Loss.terms l) =
      list_sum (map LossCount.contribution (Loss.terms_of_arg terms_a)) /\
    ((forall c, In c (Loss.terms_of_arg terms_a) -> Loss.is_composite c = true ->
                Loss.produced get_unique_label c) ->
     Dict.keys (Loss.terms l) = Dict.keys (Loss.weights l)).
Proof.
  intros terms_a weights_a label_a user_labels l Hinit.
  pose proof Hinit as H. apply init_Ok in H.
  destruct H as (labels & ts & Hlt & Hlen & ->).
  apply labels_and_terms_Ok in Hlt. destruct Hlt as [Ht Hll].
  set (tuples := Loss.term_tuples labels ts (Loss.weight_values weights_a ts)) in *.
  destruct (flattened_labels_facts tuples) as [Hnd HL].
  destruct (@of_zip_values _ _ (Loss.flattened_terms tuples) Hnd HL) as [_ K].
  split; [simpl; rewrite K; exact Hnd|]. split.
  - simpl. rewrite <- (length_map fst).
    change (map fst (Dict.of_zip (Loss.flattened_labels get_unique_label tuples)
                       (Loss.flattened_terms tuples)))
      with (Dict.keys (Dict.of_zip (Loss.flattened_labels get_unique_label tuples)
                         (Loss.flattened_terms tuples))).
    rewrite K, HL, flattened_terms_count.
    rewrite <- Ht. unfold tuples.
    rewrite <- (map_map Loss.tuple_term LossCount.contribution).
    rewrite term_tuples_terms by assumption. reflexivity.
  - intros Hprod. apply (produced_keys law).
    exact (@Loss.produced_init get_unique_label terms_a weights_a label_a
             user_labels _ Hprod Hinit).
Qed.

(** X24.  Multiplying a loss the constructor produced by a scalar keeps
    its terms and multiplies each of its weights by the scalar; the
    negation is the multiplication by minus one. *)
Theorem scalar_multiple_scales_weights :
  forall (l l' : Loss.t) (c : R),
    Loss.produced get_unique_label l ->
    Loss.__mul__ get_unique_label l c = Ok l' ->
    Dict.values (Loss.terms l') = Dict.values (Loss.terms l) /\
    Dict.values (Loss.weights l') =
      map (fun w => (c * w)%R) (Dict.values (Loss.weights l)) /\
    Loss.__neg__ get_unique_label l = Loss.__mul__ get_unique_label l (-1).
Proof.
  intros l l' c Hp Hmul. unfold Loss.__mul__ in Hmul.
  destruct (produced_flat Hp) as [Hc _].
  assert (Hl : forall x, In x (Loss.terms_of_arg (Loss.TermsSequence [l])) ->
                 Loss.is_composite x = true ->
                 length (Loss.terms x) = length (Loss.weights x)).
  { intros x [<-|[]] _. apply keys_length, (produced_keys law Hp). }
  destruct (@init_values get_unique_label law _ _ _ _ _ Hl Hmul)
    as (labels & ts & Hlt & E1 & E2 & _).
  simpl in Hlt. injection Hlt as <- <-.
  unfold Loss.flattened_terms, Loss.flattened_weights, Loss.simple_tuples,
    Loss.composite_tuples, Loss.term_tuples, Loss.weight_values in E1, E2.
  simpl in E1, E2. unfold Loss.tuple_term in E1, E2. simpl in E1, E2.
  rewrite Hc in E1, E2. simpl in E1, E2.
  unfold Loss.component_terms, Loss.component_weights, Loss.tuple_term,
    Loss.tuple_weight in E1, E2. simpl in E1, E2.
  rewrite app_nil_r in E1, E2.
  split; [exact E1|]. split; [exact E2 | reflexivity].
Qed.

(** X25.  The sum and the difference of two losses the constructor
    produced hold the terms of the first followed by the terms of the
    second; the weights of the first are multiplied by one, those of the
    second by one in the sum and by minus one in the difference. *)
Theorem sum_and_difference_of_composites :
  forall (a b l : Loss.t) (sign : R),
    Loss.produced get_unique_label a ->
    Loss.produced get_unique_label b ->
    (sign = 1%R /\ Loss.__add__ get_unique_label a b = Ok l) \/
    (sign = (-1)%R /\ Loss.__sub__ get_unique_label a b = Ok l) ->
    Dict.values (Loss.terms l) =
      Dict.values (Loss.terms a) ++ Dict.values (Loss.terms b) /\
    Dict.values (Loss.weights l) =
      map (fun w => (1 * w)%R) (Dict.values (Loss.weights a)) ++
      map (fun w => (sign * w)%R) (Dict.values (Loss.weights b)).
Proof.
  intros a b l sign Ha Hb H.
  destruct (produced_flat Ha) as [Hca _].
  destruct (produced_flat Hb) as [Hcb _].
  assert (Hinit : Loss.__init__ get_unique_label (Loss.TermsSequence [a; b])
                    (Loss.WeightsSequence [1%R; sign]) EmptyString true = Ok l).
  { destruct H as [[-> H]|[-> H]]; exact H. }
  assert (Hl : forall x, In x (Loss.terms_of_arg (Loss.TermsSequence [a; b])) ->
                 Loss.is_composite x = true ->
                 length (Loss.terms x) = length (Loss.weights x)).
  { intros x [<-|[<-|[]]] _; apply keys_length.
    - exact (produced_keys law Ha).
    - exact (produced_keys law Hb). }
  destruct (@init_values get_unique_label law _ _ _ _ _ Hl Hinit)
    as (labels & ts & Hlt & E1 & E2 & _).
  simpl in Hlt. injection Hlt as <- <-.
  unfold Loss.flattened_terms, Loss.flattened_weights, Loss.simple_tuples,
    Loss.composite_tuples, Loss.term_tuples, Loss.weight_values in E1, E2.
  simpl in E1, E2. unfold Loss.tuple_term in E1, E2. simpl in E1, E2.
  rewrite Hca, Hcb in E1, E2. simpl in E1, E2.
  unfold Loss.component_terms, Loss.component_weights, Loss.tuple_term,
    Loss.tuple_weight in E1, E2. simpl in E1, E2.
  rewrite app_nil_r in E1, E2.
  split; [exact E1 | exact E2].
Qed.

End CompositeLossMore.

(** ** The loss functions: power_discount, mse, nan_safe_mse *)

Lemma nth_map_seq (f : nat -> R) (n i : nat) :
  i < n -> nth i (map f (seq 0 n)) 0%R = f i.
Proof.
  intros Hi.
  rewrite (nth_indep _ 0%R (f 0)) by (rewrite length_map, length_seq; exact Hi).
  rewrite map_nth, seq_nth by exact Hi. reflexivity.
Qed.

(** [jnp.linspace(1.0 / n, 1.0, n)] is [1/n, 2/n, ..., n/n]. *)
Lemma linspace_unit (n : nat) :
  n <> 0 ->
  LossFunctions.linspace (1 / INR n) 1 n =
    map (fun i => (INR (S i) / INR n)%R) (seq 0 n).
Proof.
  intros Hn. unfold LossFunctions.linspace.
  destruct n as [|[|m]]; [contradiction | reflexivity |].
  apply map_ext. intros i.
  replace (S (S m) - 1) with (S m) by lia.
  rewrite !S_INR.
  pose proof (pos_INR m) as Hm.
  field. split; lra.
Qed.

Lemma pow_le_mono (x y : R) (e : nat) :
  (0 <= x)%R -> (x <= y)%R -> (x ^ e <= y ^ e)%R.
Proof.
  intros Hx Hxy. apply pow_incr. split; assumption.
Qed.

(** X26.  [power_discount] by cases.  With exponent zero the result is
    the scalar 1, whatever the number of steps.  With another exponent,
    no step makes the division [1.0 / n_steps] raise [ZeroDivisionError]
    and a negative number of steps makes [jnp.linspace] raise
    [ValueError].  Otherwise the result has one weight per step and the
    last weight is 1; with a positive exponent the weights lie between 0
    and 1 and never decrease, with a negative exponent they are at least
    1 and never increase. *)
Theorem power_discount_weights :
  forall (n_steps discount_exp : Z),
    (discount_exp = 0%Z ->
     LossFunctions.power_discount n_steps discount_exp = Ok (Jnp.Scalar 1)) /\
    (discount_exp <> 0%Z -> n_steps = 0%Z ->
     LossFunctions.power_discount n_steps discount_exp =
       Raise ZeroDivisionError) /\
    (discount_exp <> 0%Z -> (n_steps < 0)%Z ->
     LossFunctions.power_discount n_steps discount_exp = Raise ValueError) /\
    (discount_exp <> 0%Z -> (0 < n_steps)%Z ->
     exists v,
       LossFunctions.power_discount n_steps discount_exp = Ok (Jnp.Arr v) /\
       Z.of_nat (length v) = n_steps /\
       nth (length v - 1) v 0%R = 1%R /\
       ((0 < discount_exp)%Z ->
        forall i j, i <= j -> j < length v ->
          (0 <= nth i v 0 <= nth j v 0)%R /\ (nth j v 0 <= 1)%R) /\
       ((discount_exp < 0)%Z ->
        forall i j, i <= j -> j < length v ->
          (1 <= nth j v 0 <= nth i v 0)%R)).
Proof.
  intros n e. split; [|split; [|split]].
  - intros ->. reflexivity.
  - intros He ->. unfold LossFunctions.power_discount, LeakyRNNCell.float_div.
    destruct (Z.eqb_spec e 0) as [E|_]; [contradiction|].
    destruct (Req_dec_T (IZR 0) 0) as [_|E]; [reflexivity | contradiction].
  - intros He Hn. unfold LossFunctions.power_discount, LeakyRNNCell.float_div.
    destruct (Z.eqb_spec e 0) as [E|_]; [contradiction|].
    destruct (Req_dec_T (IZR n) 0) as [E|_].
    { apply eq_IZR_R0 in E. lia. }
    cbn [bind]. destruct (Z.ltb_spec n 0); [reflexivity | lia].
  - intros He Hn.
    set (m := Z.to_nat n).
    assert (Hm : m <> 0) by (unfold m; lia).
    assert (HnR : IZR n = INR m).
    { unfold m. rewrite INR_IZR_INZ, Z2Nat.id by lia. reflexivity. }
    assert (HmR : (0 < INR m)%R) by (apply lt_0_INR; lia).
    set (f := fun i => powerRZ (INR (S i) / INR m) e).
    assert (Hbase : forall i, i < m -> (0 < INR (S i) / INR m <= 1)%R).
    { intros i Hi. split.
      - apply Rdiv_lt_0_compat; [apply lt_0_INR; lia | exact HmR].
      - apply (Rmult_le_reg_r (INR m)); [exact HmR|].
        unfold Rdiv. rewrite Rmult_assoc, Rinv_l, Rmult_1_r, Rmult_1_l by lra.
        apply le_INR. lia. }
    assert (Hmono : forall i j, i <= j -> j < m ->
              (INR (S i) / INR m <= INR (S j) / INR m)%R).
    { intros i j Hij Hj. unfold Rdiv. apply Rmult_le_compat_r.
      - apply Rlt_le, Rinv_0_lt_compat, HmR.
      - apply le_INR. lia. }
    exists (map f (seq 0 m)).
    assert (Hlen : length (map f (seq 0 m)) = m)
      by (rewrite length_map, length_seq; reflexivity).
    rewrite Hlen.
    split; [|split; [|split; [|split]]].
    + unfold LossFunctions.power_discount, LeakyRNNCell.float_div.
      destruct (Z.eqb_spec e 0) as [E|_]; [contradiction|].
      destruct (Req_dec_T (IZR n) 0) as [E|_]; [lra|].
      cbn [bind]. destruct (Z.ltb_spec n 0); [lia|].
      fold m. rewrite HnR, linspace_unit by exact Hm.
      rewrite map_map. reflexivity.
    + unfold m. lia.
    + rewrite (nth_map_seq f) by lia. unfold f.
      replace (S (m - 1)) with m by lia.
      unfold Rdiv. rewrite Rinv_r by lra.
      destruct e as [|p|p]; cbn [powerRZ]; [reflexivity | apply pow1 |].
      rewrite pow1. apply Rinv_1.
    + intros Hpos i j Hij Hj.
      rewrite !(nth_map_seq f) by lia. unfold f.
      destruct e as [|p|p]; try lia. cbn [powerRZ].
      destruct (Hbase i ltac:(lia)) as [Hi0 Hi1].
      destruct (Hbase j Hj) as [Hj0 Hj1].
      split; [split|].
      * apply pow_le. lra.
      * apply pow_le_mono; [lra | apply Hmono; assumption].
      * rewrite <- (pow1 (Pos.to_nat p)). apply pow_le_mono; lra.
    + intros Hneg i j Hij Hj.
      rewrite !(nth_map_seq f) by lia. unfold f.
      destruct e as [|p|p]; try lia. cbn [powerRZ].
      destruct (Hbase i ltac:(lia)) as [Hi0 Hi1].
      destruct (Hbase j Hj) as [Hj0 Hj1].
      pose proof (pow_lt _ (Pos.to_nat p) Hi0) as Pi.
      pose proof (pow_lt _ (Pos.to_nat p) Hj0) as Pj.
      split.
      * rewrite <- Rinv_1. apply Rinv_le_contravar; [exact Pj|].
        rewrite <- (pow1 (Pos.to_nat p)). apply pow_le_mono; lra.
      * apply Rinv_le_contravar; [exact Pi|].
        apply pow_le_mono; [lra | apply Hmono; assumption].
Qed.









Lemma nansum_nan (v : LossFunctions.nan_array) :
  In None v -> LossFunctions.nansum v = None.
Proof.
  induction v as [|x v IH]; simpl; [intros []|].
  intros [->|H]; [reflexivity|].
  rewrite (IH H). destruct x; reflexivity.
Qed.

(** X29.  A prediction that is NaN where the target is a number makes
    the result of [nan_safe_mse] NaN: the mask removes only the positions
    whose target is NaN. *)
Theorem nan_safe_mse_nan_prediction :
  forall (preds targets : LossFunctions.nan_array) (i : nat) (t : R),
    length preds = length targets ->
    nth_error preds i = Some None ->
    nth_error targets i = Some (Some t) ->
    LossFunctions.nan_safe_mse preds targets = Ok None.
Proof.
  intros preds targets i t Hlen Hp Ht. unfold LossFunctions.nan_safe_mse.
  rewrite Hlen, Nat.eqb_refl. cbn [negb].
  rewrite nansum_nan; [reflexivity|].
  clear Hlen. revert targets i Hp Ht.
  induction preds as [|p preds IH]; intros [|t' targets] [|i] Hp Ht;
    simpl in *; try discriminate.
  - injection Hp as ->. injection Ht as ->. left; reflexivity.
  - right. apply (IH targets i Hp Ht).
Qed.


(** * Instances of the further properties *)

Lemma example_normal_law : normal_law Example.jax.
Proof.
  intros k n; simpl; apply zeros_length.
Qed.

Lemma loss_ab_produced : Loss.produced Example.unique_label Example.loss_ab.
Proof.
  apply (@Loss.produced_init Example.unique_label
           (Loss.TermsSequence [Example.loss_a; Example.loss_b])
           (Loss.WeightsSequence [1%R; 1%R]) EmptyString true); [|reflexivity].
  intros x [<-|[<-|[]]] Hx; discriminate.
Qed.

Section FurtherInstances.

#[local] Existing Instance Example.jax.

Import SimpleStagedNetwork.
Local Open Scope string_scope.

Lemma plain_cell_rows_masked_witness :
  exists net w,
    __init__ (J := Example.jax) 1 2 (Some 1) None Example.leaky_type
      Example.linear_type Example.linear_type false identity_func identity_func
      None (Some Example.two_populations) 0 = Ok net /\
    Layer.get_weight_ih (hidden net) = Some w /\
    exists row, nth_error w 1 = Some row /\ Forall (fun x => x = 0%R) row.
Proof.
  eexists; eexists. split; [reflexivity|]. split; [reflexivity|].
  apply (@plain_cell_rows_masked Example.jax 1 2 (Some 1) None
           Example.leaky_type Example.linear_type Example.linear_type false
           identity_func identity_func None Example.two_populations 0 _ _
           eq_refl eq_refl).
  - simpl; lia.
  - lia.
  - simpl; intros [E|[]]; discriminate.
Defined.

Lemma input_unit_rows_unchanged_witness :
  exists net w,
    __init__ (J := Example.jax) 1 2 (Some 1) None Example.leaky_type
      Example.linear_type Example.linear_type false identity_func identity_func
      None (Some Example.two_populations) 0 = Ok net /\
    Layer.get_weight_ih (hidden net) = Some w /\
    exists layer0 raw,
      Example.leaky_type (hidden_in_size 1 None) 2 false
        (fst (fst (jr_split3 (JaxLib := Example.jax) 0))) = Ok layer0 /\
      Layer.get_weight_ih layer0 = Some raw /\
      length w = length raw /\
      forall k, k < length w ->
        In (k mod 2) (PopulationStructure.input_indices Example.two_populations) ->
        nth_error w k = nth_error raw k.
Proof.
  eexists; eexists. split; [reflexivity|]. split; [reflexivity|].
  exact (input_unit_rows_unchanged (J := Example.jax) 1 2 (Some 1) None
           Example.leaky_type Example.linear_type Example.linear_type false
           identity_func identity_func None Example.two_populations 0
           eq_refl eq_refl).
Defined.

Lemma hidden_layer_left_as_built_witness :
  exists net,
    __init__ (J := Example.jax) 1 2 (Some 1) None Example.leaky_type
      Example.linear_type Example.linear_type false identity_func identity_func
      None None 0 = Ok net /\
    hidden net = Layer.Leaky (Example.leaky_cell 1 2).
Proof.
  eexists. split; [reflexivity|].
  exact (@hidden_layer_left_as_built Example.jax 1 2 (Some 1) None
           Example.leaky_type Example.linear_type Example.linear_type false
           identity_func identity_func None None 0 _ _
           eq_refl eq_refl (or_introl eq_refl)).
Defined.

Lemma gated_blocks_masked_witness :
  exists net w,
    __init__ (J := Example.jax) 1 2 (Some 1) None Example.gru_type
      Example.linear_type Example.linear_type false identity_func identity_func
      None (Some Example.two_populations) 0 = Ok net /\
    Layer.get_weight_ih (hidden net) = Some w /\
    length (GruWeights.getitem w
              (GruWeights.gru_weight_idxs_func GruWeights.update w)) = 2.
Proof.
  eexists; eexists. split; [reflexivity|]. split; [reflexivity|].
  exact (proj1 (gated_blocks_masked (J := Example.jax) 1 2 (Some 1) None
                  Example.gru_type Example.linear_type Example.linear_type false
                  identity_func identity_func None Example.two_populations 0
                  GruWeights.update eq_refl eq_refl eq_refl)).
Defined.

Lemma masked_linear_init_masks_weight_witness :
  exists ml,
    MaskedLinear.__init__ (J := Example.jax) 2 1 [[0%R; 1%R]] false 0 = Ok ml /\
    MaskedLinear.mask ml = [[0%R; 1%R]].
Proof.
  eexists. split; [reflexivity|].
  exact (proj1 (masked_linear_init_masks_weight (J := Example.jax) 2 1
                  [[0%R; 1%R]] false 0 eq_refl)).
Defined.

Lemma encoder_mask_is_all_ones_witness :
  exists net,
    __init__ (J := Example.jax) 1 2 (Some 1) (Some 1) Example.leaky_type
      Example.linear_type Example.linear_type false identity_func identity_func
      None (Some Example.two_populations) 0 = Ok net /\
    exists m,
      encoder net = Some (Layer.Masked m) /\
      MaskedLinear.mask m = Jnp.ones2 1 1.
Proof.
  eexists. split; [reflexivity|].
  destruct (encoder_mask_is_all_ones (J := Example.jax) 1 2 (Some 1) 1
              Example.leaky_type Example.linear_type Example.linear_type false
              identity_func identity_func None Example.two_populations 0 eq_refl)
    as (m & Hm & Hmask & _).
  exists m. split; [exact Hm | exact Hmask].
Defined.

Lemma init_state_sizes_witness :
  exists net,
    __init__ (J := Example.jax) 1 2 (Some 1) None Example.leaky_type
      Example.linear_type Example.linear_type false identity_func identity_func
      None None 0 = Ok net /\
    init (J := Example.jax) net 5 =
      NetworkState.mk (Jnp.zeros 1) (Jnp.zeros 2) (Some (Jnp.zeros 1)) None.
Proof.
  eexists. split; [reflexivity|].
  exact (init_state_sizes (J := Example.jax) 1 2 (Some 1) None
           Example.leaky_type Example.linear_type Example.linear_type false
           identity_func identity_func None None 0 5 eq_refl).
Defined.

Lemma plain_readout_bias_zeroed_witness :
  exists net,
    __init__ (J := Example.jax) 1 2 (Some 1) None Example.leaky_type
      Example.linear_type Example.linear_type true identity_func identity_func
      None None 0 = Ok net /\
    exists r,
      readout net = Some r /\
      Layer.getattr_bias r = Some (Jnp.zeros 1).
Proof.
  eexists. split; [reflexivity|].
  exact (plain_readout_bias_zeroed (J := Example.jax) 1 2 1 None
           Example.leaky_type Example.linear_type Example.linear_type true
           identity_func identity_func None 0 eq_refl eq_refl).
Defined.

Lemma stage_data_flow_witness :
  exists stage,
    In ("hidden", stage) (model_spec Sample.plain_net) /\
    where_input stage [] (Example.state_with_input 1) = Some [1%R] /\
    where_state stage (Example.state_with_input 1) = Some [0%R; 0%R].
Proof.
  eexists.
  refine ((fun H => conj H
             (proj1 (proj2 (proj2 (stage_data_flow (J := Example.jax)
                Sample.plain_net _ [] (Example.state_with_input 1)))) H)) _).
  simpl. right; left; reflexivity.
Defined.

Lemma hidden_stage_result_witness :
  exists stage,
    In ("hidden", stage) (model_spec Sample.plain_net) /\
    stage_result stage Sample.plain_net [] (Example.state_with_input 1) 0 =
      Layer.call2 (J := Example.jax) (hidden Sample.plain_net) (Some [1%R])
        (Some [0%R; 0%R]) 0.
Proof.
  eexists.
  refine ((fun H => conj H
             (hidden_stage_result (J := Example.jax) Sample.plain_net _ []
                (Example.state_with_input 1) 0 H)) _).
  simpl. right; left; reflexivity.
Defined.

Lemma readout_ignores_other_units_witness :
  exists net,
    __init__ (J := Example.jax) 1 2 (Some 1) None Example.leaky_type
      Example.linear_type Example.linear_type false identity_func identity_func
      None (Some Example.two_populations) 0 = Ok net /\
    exists m,
      readout net = Some (Layer.Masked m) /\
      MaskedLinear.mask m =
        Jnp.ones_at_cols 1 2
          (PopulationStructure.readout_indices Example.two_populations).
Proof.
  eexists. split; [reflexivity|].
  destruct (readout_ignores_other_units (J := Example.jax) 1 2 1 None
              Example.leaky_type Example.linear_type Example.linear_type false
              identity_func identity_func None Example.two_populations 0 eq_refl)
    as (m & Hm & Hmask & _).
  exists m. split; [exact Hm | exact Hmask].
Defined.

Lemma add_hidden_noise_without_effect_witness :
  hidden_noise_std Sample.plain_net = None /\
  _add_hidden_noise (J := Example.jax) Sample.plain_net None
    (Some [1%R; 2%R]) 0 = Ok (Some [1%R; 2%R]).
Proof.
  split; [reflexivity|].
  exact (add_hidden_noise_without_effect (J := Example.jax) Sample.plain_net
           None [1%R; 2%R] 0 example_normal_law (or_introl eq_refl)).
Defined.

End FurtherInstances.

Lemma biased_cell_shapes_fit (dt tau : R) :
  LeakyRNNCell.shapes_fit (Sample.biased_cell dt tau) [1%R] [1%R; 1%R].
Proof.
  unfold LeakyRNNCell.shapes_fit; simpl.
  split; [reflexivity|]. split; [reflexivity|].
  split; [repeat constructor|]. split; [repeat constructor|].
  split; [intros _; eexists; split; reflexivity | reflexivity].
Qed.

Lemma leaky_update_without_noise_witness :
  LeakyRNNCell.tau (Sample.biased_cell 1 2) <> 0%R /\
  LeakyRNNCell.__call__ (J := Example.jax) (Sample.biased_cell 1 2)
    [1%R] [1%R; 1%R] 0 =
    Ok (LeakyRNNCell.spec_update (Sample.biased_cell 1 2) [1%R] [1%R; 1%R]
          (LeakyRNNCell.bias_term (Sample.biased_cell 1 2) 2) (Jnp.zeros 2)).
Proof.
  assert (H : LeakyRNNCell.tau (Sample.biased_cell 1 2) <> 0%R)
    by (simpl; lra).
  split; [exact H|].
  exact (@leaky_update_without_noise Example.jax (Sample.biased_cell 1 2)
           [1%R] [1%R; 1%R] 0 eq_refl H (biased_cell_shapes_fit 1 2)).
Defined.

Lemma leaky_degenerate_time_constants_witness :
  LeakyRNNCell.__call__ (J := Example.jax) (Sample.biased_cell 1 0)
    [1%R] [1%R; 1%R] 0 = Raise ZeroDivisionError /\
  LeakyRNNCell.__call__ (J := Example.jax) (Sample.biased_cell 0 2)
    [1%R] [1%R; 1%R] 0 = Ok [1%R; 1%R].
Proof.
  split.
  - exact (proj1 (@leaky_degenerate_time_constants Example.jax
                    (Sample.biased_cell 1 0) [1%R] [1%R; 1%R] 0 eq_refl) eq_refl).
  - refine (proj2 (@leaky_degenerate_time_constants Example.jax
                     (Sample.biased_cell 0 2) [1%R] [1%R; 1%R] 0 eq_refl)
              eq_refl _ (biased_cell_shapes_fit 0 2)).
    simpl; lra.
Defined.

Lemma clip_range (v : vec) :
  Forall (fun x => (0 <= x <= 1)%R) (Sample.clip v).
Proof.
  unfold Sample.clip. apply Forall_map, Forall_forall. intros x _.
  split; [apply Rmax_l|].
  apply Rmax_lub; [lra | apply Rmin_l].
Qed.

Lemma leaky_update_stays_in_range_witness :
  exists state',
    LeakyRNNCell.__call__ (J := Example.jax) (Sample.clipped_cell 1 2)
      [5%R] [0%R; 1%R] 0 = Ok state' /\
    Forall (fun x => (0 <= x <= 1)%R) state'.
Proof.
  apply (@leaky_update_stays_in_range Example.jax (Sample.clipped_cell 1 2)
           [5%R] [0%R; 1%R] 0 0%R 1%R).
  - reflexivity.
  - simpl; lra.
  - unfold LeakyRNNCell.shapes_fit; simpl.
    split; [reflexivity|]. split; [reflexivity|].
    split; [repeat constructor|]. split; [repeat constructor|].
    split; [discriminate|].
    intros v; unfold Sample.clip; apply length_map.
  - simpl; lra.
  - exact clip_range.
  - repeat constructor; lra.
Defined.

Lemma create_population_sizes_witness :
  exists p,
    PopulationStructureZ.create (J := Example.jax) 6 2 2 1 1 None 0 = Ok p /\
    Z.of_nat (length (PopulationStructureZ.input_indices p)) = (2 + 1)%Z /\
    Z.of_nat (length (PopulationStructureZ.readout_indices p)) = (2 + 1)%Z.
Proof.
  eexists. split; [reflexivity|].
  destruct (@create_population_sizes Example.jax example_permutation_law
              6 2 2 1 1 0 _ ltac:(lia) ltac:(lia) ltac:(lia) ltac:(lia) eq_refl)
    as (_ & _ & _ & _ & Hi & Hr).
  split; [exact Hi | exact Hr].
Defined.

Lemma created_unit_kinds_witness :
  exists p,
    PopulationStructureZ.create (J := Example.jax) 6 2 2 1 1 None 0 = Ok p /\
    (In 5%Z (PopulationStructureZ.input_only_indices p) ->
     In 5%Z (PopulationStructureZ.input_indices p) /\
     ~ In 5%Z (PopulationStructureZ.readout_indices p)).
Proof.
  eexists. split; [reflexivity|].
  exact (proj1 (@created_unit_kinds Example.jax example_permutation_law
                  6 2 2 1 1 None 0 _ 5%Z ltac:(lia) ltac:(lia) ltac:(lia)
                  ltac:(lia) (or_introl eq_refl) eq_refl)).
Defined.

Lemma contiguous_blocks_witness :
  exists p,
    PopulationStructure.create (J := Example.jax) 6 2 2 1 1
      (Some PopulationStructure.contiguous_assignment) 0 = Ok p /\
    (In 5 (PopulationStructure.input_indices p) <->
     5 < 2 \/ 2 + 2 + 1 <= 5 < 6).
Proof.
  eexists. split; [reflexivity|].
  exact (proj1 (@contiguous_blocks Example.jax 6 2 2 1 1 0 _ 5 eq_refl)).
Defined.

Lemma composite_init_errors_witness :
  Loss.__init__ Example.unique_label (Loss.TermsSequence [Example.loss_a])
    (Loss.WeightsSequence []) EmptyString true = Raise ValueError /\
  Loss.__init__ Example.unique_label (Loss.TermsMapping [])
    Loss.WeightsNone EmptyString true = Raise ValueError.
Proof.
  split.
  - apply (proj1 (composite_init_errors Example.unique_label
                    (Loss.TermsSequence [Example.loss_a])
                    (Loss.WeightsSequence []) EmptyString true)).
    right; simpl; discriminate.
  - apply (proj1 (composite_init_errors Example.unique_label
                    (Loss.TermsMapping []) Loss.WeightsNone EmptyString true)).
    left; split; reflexivity.
Defined.

Lemma composite_keeps_every_term_witness :
  exists l,
    Loss.__init__ Example.unique_label
      (Loss.TermsSequence [Example.loss_ab; Loss.Simple "c"])
      (Loss.WeightsSequence [2%R; 1%R]) EmptyString true = Ok l /\
    NoDup (Dict.keys (Loss.terms l)) /\
    length (Loss.terms l) = 3.
Proof.
  eexists. split; [reflexivity|].
  destruct (@composite_keeps_every_term Example.unique_label
              unique_label_law_example
              (Loss.TermsSequence [Example.loss_ab; Loss.Simple "c"])
              (Loss.WeightsSequence [2%R; 1%R]) EmptyString true _ eq_refl)
    as (Hnd & Hlen & _).
  split; [exact Hnd | exact Hlen].
Defined.

Lemma scalar_multiple_scales_weights_witness :
  exists l',
    Loss.__mul__ Example.unique_label Example.loss_ab 2 = Ok l' /\
    Dict.values (Loss.terms l') = [Example.loss_a; Example.loss_b] /\
    Dict.values (Loss.weights l') = [(2 * 1)%R; (2 * 1)%R].
Proof.
  eexists. split; [reflexivity|].
  destruct (@scalar_multiple_scales_weights Example.unique_label
              unique_label_law_example Example.loss_ab _ 2%R
              loss_ab_produced eq_refl) as (Ht & Hw & _).
  split; [exact Ht | exact Hw].
Defined.

Lemma sum_and_difference_of_composites_witness :
  exists l,
    Loss.__sub__ Example.unique_label Example.loss_ab Example.loss_ab = Ok l /\
    Dict.values (Loss.weights l) =
      [(1 * 1)%R; (1 * 1)%R; (-1 * 1)%R; (-1 * 1)%R].
Proof.
  eexists. split; [reflexivity|].
  exact (proj2 (@sum_and_difference_of_composites Example.unique_label
                  unique_label_law_example Example.loss_ab Example.loss_ab _
                  (-1)%R loss_ab_produced loss_ab_produced
                  (or_intror (conj eq_refl eq_refl)))).
Defined.

Lemma power_discount_weights_witness :
  exists v,
    LossFunctions.power_discount 2 6 = Ok (Jnp.Arr v) /\
    Z.of_nat (length v) = 2%Z /\
    nth (length v - 1) v 0%R = 1%R.
Proof.
  destruct (proj2 (proj2 (proj2 (power_discount_weights 2 6))))
    as (v & Hv & Hl & Hlast & _); [discriminate | reflexivity |].
  exists v. split; [exact Hv|]. split; [exact Hl | exact Hlast].
Defined.



Lemma nan_safe_mse_nan_prediction_witness :
  LossFunctions.nan_safe_mse [Some 1%R; None] [Some 3%R; Some 2%R] = Ok None.
Proof.
  exact (@nan_safe_mse_nan_prediction [Some 1%R; None] [Some 3%R; Some 2%R] 1 2%R
           eq_refl eq_refl eq_refl).
Defined.

